(** * ppe_diag: the dataclass-driven CLI configuration and the plot-style helpers

    A shallow embedding of
      - [src/ppe_diag/scripts/utils/base_config.py] ([BaseConfig]:
        [__post_init__], [help], [from_cli], [describe]) and
      - [src/ppe_diag/plotting/utils/plot_style.py] ([get_colormap],
        [set_cartopy_defaults], [xarray_plot_style], [get_ensemble_colors],
        [get_member_color]),
    together with the part of CPython's [argparse] (3.11) that [from_cli]
    drives: long options with the [store], [store_true] and [store_false]
    actions, the built-in [-h/--help] action, abbreviations, [--opt=value]
    and the [--] separator.

    Python raises exceptions; here a computation returns [Ok v] or
    [Raise e].  Code that touches the file system threads it explicitly and
    keeps the changes made before an exception; the calls of [pathlib] can
    fail, as far as the file system of this development goes. *)

From Stdlib Require Import ZArith QArith Ascii DecimalString.
From stdpp Require Import base option list strings gmap fin_maps.

Local Open Scope Z_scope.

(** ** Exceptions and results *)

(** Why [parser.error] ended the process (exit status 2). *)
Inductive usage_error : Type :=
  | AmbiguousOption (arg : string) (matches : list string)
  | ExpectedOneArgument (option_string : string)
  | IgnoredExplicitArgument (option_string explicit_arg : string)
  | InvalidValue (option_string value : string)
  | RequiredMissing (option_strings : list string)
  | UnrecognizedArguments (argv : list string).

Inductive exn : Type :=
  | SystemExit_usage (e : usage_error)      (* argparse: usage message, status 2 *)
  | SystemExit_help                         (* argparse: -h / --help, status 0 *)
  | ArgumentError_conflict (option_string : string)  (* add_argument *)
  | ValueError (msg : string)
  | TypeError
  | AttributeError (attr : string)
  | IndexError
  | ZeroDivisionError
  | UnboundLocalError (var : string)
  | StopIteration
  (* [OSError] and the subclasses the file system raises *)
  | FileExistsError
  | FileNotFoundError
  | NotADirectoryError
  | IsADirectoryError
  | PermissionError
  | OSError (errno : Z).

Inductive result (A : Type) : Type :=
  | Ok (a : A)
  | Raise (e : exn).
Arguments Ok {A} a.
Arguments Raise {A} e.

#[global] Instance result_ret : MRet result := fun A a => Ok a.
#[global] Instance result_bind : MBind result := fun A B k r =>
  match r with
  | Ok a => k a
  | Raise e => Raise e
  end.

Definition is_ok {A : Type} (r : result A) : bool :=
  match r with Ok _ => true | Raise _ => false end.

(** [isinstance(e, OSError)]. *)
Definition is_OSError (e : exn) : bool :=
  match e with
  | FileExistsError | FileNotFoundError | NotADirectoryError | IsADirectoryError
  | PermissionError | OSError _ => true
  | _ => false
  end.

(** ** Strings *)

Module Str.

Definition minus : ascii := "-"%char.
Definition underscore : ascii := "_"%char.
Definition newline : ascii := "010"%char.

(** [s.replace(a, b)] for single characters. *)
Fixpoint replace (a b : ascii) (s : string) : string :=
  match s with
  | EmptyString => EmptyString
  | String c s' => String (if Ascii.eqb c a then b else c) (replace a b s')
  end.

(** [s.lstrip(c)]. *)
Fixpoint lstrip (c : ascii) (s : string) : string :=
  match s with
  | EmptyString => EmptyString
  | String c' s' => if Ascii.eqb c' c then lstrip c s' else s
  end.

(** [s.startswith(p)]. *)
Definition startswith (s p : string) : bool := String.prefix p s.

(** [c in s]. *)
Fixpoint contains (c : ascii) (s : string) : bool :=
  match s with
  | EmptyString => false
  | String c' s' => Ascii.eqb c' c || contains c s'
  end.

(** [s.split(c, 1)] when [c in s]: the text before and after the first [c]. *)
Fixpoint split1 (c : ascii) (s : string) : option (string * string) :=
  match s with
  | EmptyString => None
  | String c' s' =>
      if Ascii.eqb c' c then Some (EmptyString, s')
      else match split1 c s' with
           | Some (l, r) => Some (String c' l, r)
           | None => None
           end
  end.

(** [s.ljust(n)]: pad with spaces on the right up to width [n]. *)
Definition ljust (s : string) (n : nat) : string :=
  s +:+ String.concat "" (replicate (n - String.length s) " ").

(** [s.split(c)]: the pieces of [s] between the occurrences of [c]. *)
Fixpoint split (c : ascii) (s : string) : list string :=
  match s with
  | EmptyString => [EmptyString]
  | String c' s' =>
      if Ascii.eqb c' c then EmptyString :: split c s'
      else match split c s' with
           | piece :: pieces => String c' piece :: pieces
           | [] => [String c' EmptyString]
           end
  end.

(** The number of lines of a text, and a text without a line break. *)
Definition line_count (text : string) : nat := length (split newline text).

Definition single_line (s : string) : Prop := contains newline s = false.

(** [needle in s] for strings. *)
Definition is_infix (needle s : string) : Prop :=
  exists pre post, s = pre +:+ needle +:+ post.

Definition is_digit (c : ascii) : bool :=
  (48 <=? Z.of_N (N_of_ascii c)) && (Z.of_N (N_of_ascii c) <=? 57).

Fixpoint all_digits (s : string) : bool :=
  match s with
  | EmptyString => true
  | String c s' => is_digit c && all_digits s'
  end.

(** The characters of an identifier, and a field name as the dataclasses
    of this package use them: a non-empty identifier that does not start
    with an underscore. *)
Definition is_identifier_char (c : ascii) : bool :=
  let n := Z.of_N (N_of_ascii c) in
  ((97 <=? n) && (n <=? 122)) || ((65 <=? n) && (n <=? 90))
  || ((48 <=? n) && (n <=? 57)) || (n =? 95).

Fixpoint is_identifier (s : string) : bool :=
  match s with
  | EmptyString => true
  | String c s' => is_identifier_char c && is_identifier s'
  end.

Definition plain_name (s : string) : bool :=
  match s with
  | EmptyString => false
  | String c _ => negb (Ascii.eqb c underscore) && is_identifier s
  end.

(** One trailing newline removed: where [$] of a Python regular
    expression may match. *)
Fixpoint chomp (s : string) : string :=
  match s with
  | EmptyString => EmptyString
  | String c EmptyString => if Ascii.eqb c newline then EmptyString else s
  | String c s' => String c (chomp s')
  end.

End Str.

(** ** Python values and type annotations *)

(** The annotations a field can carry.  [TUnion args] is [typing.Union[...]],
    so [Optional[T]] is [TUnion [T; TNoneType]]; [TClass name] is any other
    class. *)
#[warnings="-register-all"] Inductive pytype : Type :=
  | TBool
  | TInt
  | TStr
  | TPath
  | TNoneType
  | TUnion (args : list pytype)
  | TClass (name : string).

(** A [pathlib.Path], as its components below the starting directory. *)
Abbreviation path := (list string).

#[warnings="-register-all"] Inductive pyval : Type :=
  | VNone
  | VBool (b : bool)
  | VInt (z : Z)
  | VStr (s : string)
  | VPath (p : path)
  | VList (items : list pyval)
  | VObj (cls : string) (state : string).

(** [dataclasses.MISSING] is [None] of the option; a declared default [d]
    is [Some d]. *)
Record FieldSpec : Type := mkField {
  fld_name : string;
  fld_type : pytype;
  fld_default : option pyval;
  fld_help : string            (* [metadata.get("help", "")] *)
}.

(** What the Python runtime and the classes named in annotations provide:
    calling a type on a command-line string ([None] when the call raises
    [ValueError] or [TypeError]), [str(type)], [str(value)] and
    [repr(value)]. *)
Class PyRuntime : Type := {
  convert : pytype -> string -> option pyval;
  type_str : pytype -> string;
  py_str : pyval -> string;
  py_repr : pyval -> string;
  (* [str(s)] is [s] *)
  convert_str : forall s, convert TStr s = Some (VStr s)
}.

(** The runtime that computes [int(s0)] to be [z] and agrees with the
    given one elsewhere. *)
Definition with_int `{PyRuntime} (s0 : string) (z : Z) : PyRuntime :=
  {| convert := fun ty s =>
       match ty with
       | TStr => Some (VStr s)
       | TInt => if String.eqb s s0 then Some (VInt z) else convert TInt s
       | _ => convert ty s
       end;
     type_str := type_str; py_str := py_str; py_repr := py_repr;
     convert_str := fun _ => eq_refl |}.

(** [v == k] for an integer literal [k]: [True == 1] in Python. *)
Definition py_eq_int (v : pyval) (k : Z) : bool :=
  match v with
  | VInt z => z =? k
  | VBool b => (if b then 1 else 0) =? k
  | _ => false
  end.

(** [v == s] for a string literal [s]. *)
Definition py_eq_str (v : pyval) (s : string) : bool :=
  match v with
  | VStr s' => String.eqb s' s
  | _ => false
  end.

(** [v in [k1, k2, ...]] and [v in ["s1", "s2", ...]]. *)
Definition py_in_ints (v : pyval) (ks : list Z) : bool := existsb (py_eq_int v) ks.
Definition py_in_strs (v : pyval) (ss : list string) : bool := existsb (py_eq_str v) ss.

Definition is_bool (ty : pytype) : bool :=
  match ty with TBool => true | _ => false end.

Definition is_NoneType (ty : pytype) : bool :=
  match ty with TNoneType => true | _ => false end.

(** [typing.get_args]. *)
Definition get_args (ty : pytype) : list pytype :=
  match ty with TUnion args => args | _ => [] end.

(** [get_origin(ty) is Union]. *)
Definition origin_is_Union (ty : pytype) : bool :=
  match ty with TUnion _ => true | _ => false end.

(** [origin is Union and type(None) in args]: the field is [Optional[...]]. *)
Definition is_Optional (ty : pytype) : bool :=
  origin_is_Union ty && existsb is_NoneType (get_args ty).

(** [next(a for a in args if a is not type(None))]. *)
Definition next_not_None (args : list pytype) : result pytype :=
  match filter (fun a => is_NoneType a = false) args with
  | a :: _ => Ok a
  | [] => Raise StopIteration
  end.

(** ** The file system *)

(** What [pathlib.Path] (CPython 3.11, POSIX) finds and does under the
    starting directory.  An entry is a directory or a regular file.  The
    operating system may refuse to look an entry up (no search permission
    on its directory, a name that is too long) and may refuse to create
    one (no write permission, a read-only or full device): the two maps
    [no_lookup] and [no_create] say for which paths, and with which error.
    The starting directory (the empty path) is a directory.  An entry is
    reached through its ancestors, which must all be directories: entries
    of [nodes] below a path that is missing or a regular file are not part
    of the file system.  Links, special files and other processes are
    outside the model. *)
Inductive node : Type := Directory | RegularFile.

Inductive denial : Type := EACCES | ENAMETOOLONG | EROFS | ENOSPC.

Definition denial_error (d : denial) : exn :=
  match d with
  | EACCES => PermissionError
  | ENAMETOOLONG => OSError 36
  | EROFS => OSError 30
  | ENOSPC => OSError 28
  end.

Record filesystem : Type := mkFS {
  nodes : gmap path node;
  no_lookup : gmap path denial;
  no_create : gmap path denial
}.

(** The file system with nothing in the starting directory and no
    refusals. *)
#[global] Instance filesystem_empty : Empty filesystem := mkFS ∅ ∅ ∅.

(** Every entry of the first is an entry of the second, and the operating
    system refuses the same. *)
#[global] Instance filesystem_subseteq : SubsetEq filesystem := fun fs fs' =>
  nodes fs ⊆ nodes fs' /\ no_lookup fs = no_lookup fs' /\ no_create fs = no_create fs'.

Module FS.

(** [os.stat] from the directory [dir] along the components [rest]: the
    entry found, [None] for [ENOENT] and [ENOTDIR], or the error of a
    refused lookup. *)
Fixpoint lookup_from (fs : filesystem) (dir : path) (rest : list string)
    : result (option node) :=
  match rest with
  | [] => Ok (Some Directory)
  | c :: rest' =>
      let q := dir ++ [c] in
      match no_lookup fs !! q with
      | Some d => Raise (denial_error d)
      | None =>
          match nodes fs !! q, rest' with
          | None, _ => Ok None
          | Some n, [] => Ok (Some n)
          | Some Directory, _ => lookup_from fs q rest'
          | Some RegularFile, _ => Ok None
          end
      end
  end.

Definition stat (fs : filesystem) (p : path) : result (option node) :=
  lookup_from fs [] p.

(** [p.exists()]: [False] for [ENOENT] and [ENOTDIR]; other errors of
    [os.stat] are raised. *)
Definition exists_ (fs : filesystem) (p : path) : result bool :=
  n ← stat fs p; Ok (bool_decide (is_Some n)).

(** [p] is there: [p.exists()] returns [True]. *)
Definition path_exists (fs : filesystem) (p : path) : bool :=
  match stat fs p with
  | Ok (Some _) => true
  | _ => false
  end.

(** [p.parent]: the path without its last component. *)
Definition parent (p : path) : path := removelast p.

Definition create (fs : filesystem) (q : path) (n : node) : filesystem :=
  mkFS (<[q := n]> (nodes fs)) (no_lookup fs) (no_create fs).

(** [p.mkdir(parents=True, exist_ok=True)]: the missing directories are
    made from the top; the first component that cannot be looked up or
    made, or that is a regular file, ends the call, and the directories
    made before it stay.  A regular file in the place of [p] itself is
    [FileExistsError], one among its ancestors [NotADirectoryError]. *)
Fixpoint makedirs (fs : filesystem) (dir : path) (rest : list string)
    : result unit * filesystem :=
  match rest with
  | [] => (Ok (), fs)
  | c :: rest' =>
      let q := dir ++ [c] in
      match no_lookup fs !! q with
      | Some d => (Raise (denial_error d), fs)
      | None =>
          match nodes fs !! q with
          | Some Directory => makedirs fs q rest'
          | Some RegularFile =>
              (Raise (match rest' with
                      | [] => FileExistsError
                      | _ => NotADirectoryError
                      end), fs)
          | None =>
              match no_create fs !! q with
              | Some d => (Raise (denial_error d), fs)
              | None => makedirs (create fs q Directory) q rest'
              end
          end
      end
  end.

Definition mkdir_parents (fs : filesystem) (p : path) : result unit * filesystem :=
  makedirs fs [] p.

(** [os.open(p, O_CREAT | O_WRONLY)] and [os.close]. *)
Fixpoint create_file_from (fs : filesystem) (dir : path) (rest : list string)
    : result unit * filesystem :=
  match rest with
  | [] => (Raise IsADirectoryError, fs)
  | c :: rest' =>
      let q := dir ++ [c] in
      match no_lookup fs !! q with
      | Some d => (Raise (denial_error d), fs)
      | None =>
          match nodes fs !! q, rest' with
          | Some RegularFile, [] => (Ok (), fs)
          | Some Directory, [] => (Raise IsADirectoryError, fs)
          | None, [] =>
              match no_create fs !! q with
              | Some d => (Raise (denial_error d), fs)
              | None => (Ok (), create fs q RegularFile)
              end
          | Some Directory, _ => create_file_from fs q rest'
          | Some RegularFile, _ => (Raise NotADirectoryError, fs)
          | None, _ => (Raise FileNotFoundError, fs)
          end
      end
  end.

(** [p.touch()]: [os.utime] when [p] is there, else the file is
    created. *)
Definition touch (fs : filesystem) (p : path) : result unit * filesystem :=
  match stat fs p with
  | Ok (Some _) => (Ok (), fs)
  | _ => create_file_from fs [] p
  end.

(** Nothing stands in the way of creating [p]: no component is refused,
    and no ancestor is a regular file. *)
Fixpoint clear_from (fs : filesystem) (dir : path) (rest : list string) : bool :=
  match rest with
  | [] => true
  | c :: rest' =>
      let q := dir ++ [c] in
      match no_lookup fs !! q, no_create fs !! q with
      | None, None =>
          match nodes fs !! q, rest' with
          | Some RegularFile, _ :: _ => false
          | _, _ => clear_from fs q rest'
          end
      | _, _ => false
      end
  end.

Definition unobstructed (fs : filesystem) (p : path) : bool := clear_from fs [] p.

(** The components [rest] below [dir] are directories that can be
    looked up. *)
Fixpoint dirs_along (fs : filesystem) (dir : path) (rest : list string) : Prop :=
  match rest with
  | [] => True
  | c :: rest' =>
      no_lookup fs !! (dir ++ [c]) = None
      /\ nodes fs !! (dir ++ [c]) = Some Directory
      /\ dirs_along fs (dir ++ [c]) rest'
  end.

End FS.

(** ** argparse *)

(** The value of the local [arg_type] in [from_cli]: a class, or the
    [lambda x: bool(int(x))] of line 74. *)
Inductive converter : Type :=
  | CType (ty : pytype)
  | CLambdaBoolInt.

Module Argparse.

Inductive action_kind : Type :=
  | Store (type : converter)      (* the default action, [nargs=None] *)
  | StoreTrue                     (* [action="store_true"], [nargs=0] *)
  | StoreFalse.                   (* [action="store_false"], [nargs=0] *)

(** An optional argument added by [add_argument] with one long option
    string. *)
Record action : Type := mkAction {
  option_string : string;
  dest : string;
  kind : action_kind;
  required : bool;
  default : pyval;
  help : string
}.

(** What an option string is registered for: the built-in help action or an
    action of the program. *)
Inductive target : Type :=
  | THelp
  | TAction (a : action).

(** [parser._actions] after the help action, in the order they were added. *)
Abbreviation parser := (list action).

(** [parser._option_string_actions], in insertion order. *)
Definition option_string_actions (p : parser) : list (string * target) :=
  ("-h", THelp) :: ("--help", THelp) ::
  map (fun a => (option_string a, TAction a)) p.

Definition lookup_option (p : parser) (s : string) : option target :=
  snd <$> find (fun '(os, _) => String.eqb os s) (option_string_actions p).

(** [--foo-bar] gives the destination [foo_bar]; an empty one is an error
    of [add_argument]. *)
Definition infer_dest (arg_name : string) : result string :=
  let d := Str.lstrip Str.minus arg_name in
  match d with
  | EmptyString =>
      Raise (ValueError ("dest= is required for options like '" +:+ arg_name +:+ "'"))
  | _ => Ok (Str.replace Str.minus Str.underscore d)
  end.

(** [parser.add_argument(arg_name, ...)] with the default conflict handler:
    an option string that is already registered raises [ArgumentError]. *)
Definition add_argument (p : parser) (arg_name : string) (k : action_kind)
    (req : bool) (dflt : pyval) (help_text : string) : result parser :=
  d ← infer_dest arg_name;
  match lookup_option p arg_name with
  | Some _ => Raise (ArgumentError_conflict arg_name)
  | None => Ok (p ++ [mkAction arg_name d k req dflt help_text])
  end.

(** The class of a command-line string in [arg_strings_pattern]: ['A'] an
    argument, ['O'] an option (with the action found for it, if any, the
    option string and the explicit argument after [=]), ['-'] the [--]
    separator. *)
Inductive arg_class : Type :=
  | A
  | O (act : option target) (option_string : string) (explicit_arg : option string)
  | Dash.

(** [_negative_number_matcher]: [^-\d+$|^-\d*\.\d+$]. *)
Definition negative_number (s : string) : bool :=
  match Str.chomp s with
  | String c body =>
      Ascii.eqb c Str.minus &&
      ((negb (String.eqb body "") && Str.all_digits body) ||
       match Str.split1 "." body with
       | Some (l, r) => Str.all_digits l && negb (String.eqb r "") && Str.all_digits r
       | None => false
       end)
  | EmptyString => false
  end.

(** [_get_option_tuples]: the registered options an unknown option string
    can abbreviate.  [second] is [option_string[1]]. *)
Definition get_option_tuples (p : parser) (arg_string : string) (second : ascii)
    : list (target * string * option string) :=
  if Ascii.eqb second Str.minus then
    let '(option_prefix, explicit_arg) :=
      match Str.split1 "=" arg_string with
      | Some (l, r) => (l, Some r)
      | None => (arg_string, None)
      end in
    omap (fun '(os, t) =>
            if Str.startswith os option_prefix then Some (t, os, explicit_arg) else None)
         (option_string_actions p)
  else
    let short_option_prefix := String.substring 0 2 arg_string in
    let short_explicit_arg := String.substring 2 (String.length arg_string - 2) arg_string in
    omap (fun '(os, t) =>
            if String.eqb os short_option_prefix then Some (t, os, Some short_explicit_arg)
            else if Str.startswith os arg_string then Some (t, os, None)
            else None)
         (option_string_actions p).

(** [_parse_optional]. *)
Definition parse_optional (p : parser) (arg_string : string) : result arg_class :=
  match arg_string with
  | EmptyString => Ok A
  | String first rest =>
      if negb (Ascii.eqb first Str.minus) then Ok A else
      match lookup_option p arg_string with
      | Some t => Ok (O (Some t) arg_string None)
      | None =>
          match rest with
          | EmptyString => Ok A
          | String second _ =>
              let exact :=
                match Str.split1 "=" arg_string with
                | Some (os, explicit_arg) =>
                    (fun t => O (Some t) os (Some explicit_arg)) <$> lookup_option p os
                | None => None
                end in
              match exact with
              | Some c => Ok c
              | None =>
                  match get_option_tuples p arg_string second with
                  | [(t, os, explicit_arg)] => Ok (O (Some t) os explicit_arg)
                  | (_ :: _ :: _) as tuples =>
                      Raise (SystemExit_usage
                               (AmbiguousOption arg_string (map (fun x => snd (fst x)) tuples)))
                  | [] =>
                      if negative_number arg_string then Ok A
                      else if Str.contains " " arg_string then Ok A
                      else Ok (O None arg_string None)
                  end
              end
          end
      end
  end.

(** The first loop of [_parse_known_args]: every string with its class;
    everything after [--] is an argument. *)
Fixpoint classify (p : parser) (arg_strings : list string)
    : result (list (string * arg_class)) :=
  match arg_strings with
  | [] => Ok []
  | s :: rest =>
      if String.eqb s "--" then Ok ((s, Dash) :: map (fun s' => (s', A)) rest)
      else
        c ← parse_optional p s;
        cs ← classify p rest;
        Ok ((s, c) :: cs)
  end.

Section Parsing.
Context `{PyRuntime}.

(** Calling the [type=] of an action on a command-line string. *)
Definition call_converter (c : converter) (s : string) : option pyval :=
  match c with
  | CType ty => convert ty s
  | CLambdaBoolInt =>
      match convert TInt s with
      | Some (VInt z) => Some (VBool (negb (z =? 0)))
      | _ => None
      end
  end.

(** [_get_value]: a [ValueError] or [TypeError] of the conversion becomes a
    usage error.  Without [type=] the string is kept. *)
Definition get_value (a : action) (arg_string : string) : result pyval :=
  match kind a with
  | Store c =>
      match call_converter c arg_string with
      | Some v => Ok v
      | None => Raise (SystemExit_usage (InvalidValue (option_string a) arg_string))
      end
  | StoreTrue | StoreFalse => Ok (VStr arg_string)
  end.

(** [_get_values] for the one string of a [store] action: a [--] is
    stripped first, which leaves the empty list as the value. *)
Definition get_values (a : action) (arg_string : string) : result pyval :=
  if String.eqb arg_string "--" then Ok (VList []) else get_value a arg_string.

(** The namespace, the actions seen and the strings nobody consumed. *)
Record parse_state : Type := mkState {
  namespace : gmap string pyval;
  seen_actions : list string;
  extras : list string
}.

Definition add_extra (st : parse_state) (s : string) : parse_state :=
  mkState (namespace st) (seen_actions st) (extras st ++ [s]).

(** [take_action]: mark the action as seen and store the value. *)
Definition take_action (st : parse_state) (a : action) (v : pyval) : parse_state :=
  mkState (<[dest a := v]> (namespace st))
          (option_string a :: seen_actions st)
          (extras st).

(** A single-dash option without arguments followed by more text
    ([-hh], [-hx]): the text is read as further single-dash options, of
    which the parser has only [-h]. *)
Fixpoint short_options_tail (p : parser) (explicit_arg : string) : exn :=
  match explicit_arg with
  | EmptyString => SystemExit_help
  | String c rest =>
      match lookup_option p (String Str.minus (String c EmptyString)) with
      | Some THelp => short_options_tail p rest
      | _ => SystemExit_usage (IgnoredExplicitArgument "-h/--help" explicit_arg)
      end
  end.

(** [consume_optional] for the help action. *)
Definition consume_help (p : parser) (os : string) (explicit_arg : option string) : exn :=
  match explicit_arg with
  | None => SystemExit_help
  | Some e =>
      if Str.startswith os "--" || String.eqb e ""
      then SystemExit_usage (IgnoredExplicitArgument "-h/--help" e)
      else short_options_tail p e
  end.

(** The main loop of [_parse_known_args]: options are consumed with their
    argument, everything else is left over (the parser has no
    positionals). *)
Fixpoint consume (p : parser) (args : list (string * arg_class)) (st : parse_state)
    : result parse_state :=
  match args with
  | [] => Ok st
  | (s, A) :: rest | (s, Dash) :: rest | (s, O None _ _) :: rest =>
      consume p rest (add_extra st s)
  | (_, O (Some THelp) os explicit_arg) :: _ => Raise (consume_help p os explicit_arg)
  | (_, O (Some (TAction a)) os explicit_arg) :: rest =>
      match kind a, explicit_arg with
      | Store _, Some e =>
          v ← get_values a e;
          consume p rest (take_action st a v)
      | Store _, None =>
          match rest with
          | (s', A) :: rest' =>
              v ← get_values a s';
              consume p rest' (take_action st a v)
          | _ => Raise (SystemExit_usage (ExpectedOneArgument (option_string a)))
          end
      | StoreTrue, None => consume p rest (take_action st a (VBool true))
      | StoreFalse, None => consume p rest (take_action st a (VBool false))
      | _, Some e =>
          Raise (SystemExit_usage (IgnoredExplicitArgument (option_string a) e))
      end
  end.

(** [parse_known_args]: action defaults that are not present yet. *)
Definition initial_namespace (p : parser) : gmap string pyval :=
  foldl (fun ns a =>
           match ns !! dest a with
           | Some _ => ns
           | None => <[dest a := default a]> ns
           end) ∅ p.

(** The end of [_parse_known_args]: an action that was not seen is
    reported if it is required; otherwise a string default that is still
    in the namespace is converted like a command-line string.  argparse
    tests [action.default is getattr(namespace, action.dest)]; here the
    two strings are compared, which is the same whenever no other action
    shares the destination. *)
Fixpoint check_required (actions : list action) (seen : list string)
    (ns : gmap string pyval) : result (gmap string pyval * list string) :=
  match actions with
  | [] => Ok (ns, [])
  | a :: rest =>
      if bool_decide (option_string a ∈ seen) then check_required rest seen ns
      else if required a then
        '(ns', names) ← check_required rest seen ns;
        Ok (ns', option_string a :: names)
      else
        match default a, ns !! dest a with
        | VStr d, Some (VStr cur) =>
            if String.eqb d cur then
              v ← get_value a d;
              check_required rest seen (<[dest a := v]> ns)
            else check_required rest seen ns
        | _, _ => check_required rest seen ns
        end
  end.

(** [parser.parse_args(argv)]. *)
Definition parse_args (p : parser) (argv : list string) : result (gmap string pyval) :=
  args ← classify p argv;
  st ← consume p args (mkState (initial_namespace p) [] []);
  '(ns, required_actions) ← check_required p (seen_actions st) (namespace st);
  match required_actions with
  | _ :: _ => Raise (SystemExit_usage (RequiredMissing required_actions))
  | [] =>
      match extras st with
      | _ :: _ => Raise (SystemExit_usage (UnrecognizedArguments (extras st)))
      | [] => Ok ns
      end
  end.

(** The actions that the option strings of a classified command line
    select, in order. *)
Definition selected (args : list (string * arg_class)) : list action :=
  omap (fun x => match x.2 with
                 | O (Some (TAction a)) _ _ => Some a
                 | _ => None
                 end) args.

(** Some string of the command line is an option string of [a], exact,
    abbreviated or with [=value]. *)
Definition given (p : parser) (a : action) (argv : list string) : Prop :=
  Exists (fun s => exists os e, parse_optional p s = Ok (O (Some (TAction a)) os e)) argv.

(** The value of an action that is not required and was not given: its
    default, converted like a command-line string if it is a string. *)
Definition defaulted (a : action) (v : pyval) : Prop :=
  match default a with
  | VStr d => get_value a d = Ok v
  | dflt => v = dflt
  end.

(** What an action may store. *)
Definition stores (a : action) (v : pyval) : Prop :=
  match kind a with
  | Store _ => True
  | StoreTrue => v = VBool true
  | StoreFalse => v = VBool false
  end.

End Parsing.

End Argparse.

(** ** Dataclasses *)

(** An instance: its attributes by name. *)
Abbreviation instance := (gmap string pyval).

(** A dataclass: its name, [fields(cls)] in declaration order and its
    [__post_init__], which may raise and may touch the file system. *)
Record dataclass : Type := mkDataclass {
  cls_name : string;
  cls_fields : list FieldSpec;
  cls_post_init : instance -> filesystem -> result unit * filesystem
}.

(** The fields of a dataclass have distinct names; the properties of
    [from_cli] below are for names that are plain (identifiers that do not
    start with an underscore). *)
Definition well_named (flds : list FieldSpec) : Prop :=
  NoDup (fld_name <$> flds) /\ Forall (fun fld => Str.plain_name (fld_name fld) = true) flds.

(** The generated [__init__] binds every field from the keyword arguments
    or from its default; a field with neither is a [TypeError]. *)
Fixpoint bind_fields (flds : list FieldSpec) (kwargs : gmap string pyval)
    : result instance :=
  match flds with
  | [] => Ok ∅
  | fld :: rest =>
      v ← match kwargs !! fld_name fld, fld_default fld with
          | Some v, _ => Ok v
          | None, Some d => Ok d
          | None, None => Raise TypeError
          end;
      self ← bind_fields rest kwargs;
      Ok (<[fld_name fld := v]> self)
  end.

(** Calling [cls] with keyword arguments: a keyword that names no field is
    a [TypeError]; [__post_init__] runs on the bound instance. *)
Definition construct (cls : dataclass) (kwargs : gmap string pyval) (fs : filesystem)
    : result instance * filesystem :=
  if bool_decide (dom kwargs ⊆ list_to_set (fld_name <$> cls_fields cls))
  then
    match bind_fields (cls_fields cls) kwargs with
    | Ok self =>
        match cls_post_init cls self fs with
        | (Ok _, fs') => (Ok self, fs')
        | (Raise e, fs') => (Raise e, fs')
        end
    | Raise e => (Raise e, fs)
    end
  else (Raise TypeError, fs).

(** ** BaseConfig *)

Module BaseConfig.
Import Argparse.

Section WithRuntime.
Context `{PyRuntime}.

Definition declared_fields : list FieldSpec :=
  [ mkField "verbose" TInt (Some (VInt 0))
      "Increase verbosity level (0: WARNING, 1: INFO, 2: INFO_DETAILED, 3: DEBUG)";
    mkField "log_file" TPath (Some VNone)
      "Path to the log file where logs will be written. If None, logs will not be saved to a file.";
    mkField "log_mode" TStr (Some (VStr "w"))
      "Mode for opening the log file ('w' for write, 'a' for append)" ].

(** [getattr(self, name)]. *)
Definition getattr (self : instance) (name : string) : result pyval :=
  match self !! name with
  | Some v => Ok v
  | None => Raise (AttributeError name)
  end.

(** Lines 31-33: create the log file, and its directory, if it is not
    there. *)
Definition ensure_log_file (fs : filesystem) (log_file : path)
    : result unit * filesystem :=
  match FS.exists_ fs log_file with
  | Raise e => (Raise e, fs)
  | Ok there =>
      if negb there then
        match FS.mkdir_parents fs (FS.parent log_file) with
        | (Raise e, fs') => (Raise e, fs')
        | (Ok _, fs') => FS.touch fs' log_file
        end
      else (Ok (), fs)
  end.

(** The log-file step has nothing to fail on: the log file is [None], is
    there already, or nothing stands in the way of creating it. *)
Definition log_file_in_reach (fs : filesystem) (log_file : option path) : Prop :=
  match log_file with
  | None => True
  | Some p => FS.path_exists fs p = true \/ FS.unobstructed fs p = true
  end.

(** [__post_init__]. *)
Definition post_init (self : instance) (fs : filesystem) : result unit * filesystem :=
  match getattr self "verbose" with
  | Raise e => (Raise e, fs)
  | Ok verbose =>
  if negb (py_in_ints verbose [0; 1; 2; 3]) then
    (Raise (ValueError ("Invalid verbosity level: " +:+ py_str verbose
                          +:+ ". Must be 0, 1, 2, or 3.")), fs)
  else
  match getattr self "log_file" with
  | Raise e => (Raise e, fs)
  | Ok log_file =>
  let after_log_file :=
    match log_file with
    | VNone => (Ok (), fs)
    | VPath p => ensure_log_file fs p
    | _ => (Raise (AttributeError "exists"), fs)
    end in
  match after_log_file with
  | (Raise e, fs') => (Raise e, fs')
  | (Ok _, fs') =>
  match getattr self "log_mode" with
  | Raise e => (Raise e, fs')
  | Ok log_mode =>
  if negb (py_in_strs log_mode ["w"; "a"]) then
    (Raise (ValueError ("Invalid log mode: " +:+ py_str log_mode
                          +:+ ". Must be 'w' or 'a'.")), fs')
  else (Ok (), fs')
  end end end end.

(** A value of [log_file]: [None] or a [Path]. *)
Definition log_file_value (log_file : option path) : pyval :=
  match log_file with
  | None => VNone
  | Some p => VPath p
  end.

(** The class itself, and a subclass that declares more fields and
    inherits [__post_init__]. *)
Definition BaseConfig : dataclass :=
  mkDataclass "BaseConfig" declared_fields post_init.

Definition subclass (name : string) (own_fields : list FieldSpec) : dataclass :=
  mkDataclass name (declared_fields ++ own_fields) post_init.

(** [BaseConfig(verbose=..., log_file=..., log_mode=...)]. *)
Definition new (verbose log_file log_mode : pyval) (fs : filesystem)
    : result instance * filesystem :=
  construct BaseConfig
    (<["verbose" := verbose]> (<["log_file" := log_file]> {["log_mode" := log_mode]})) fs.

(** The instance that [new] binds before [__post_init__] runs. *)
Definition bound (verbose log_file log_mode : pyval) : instance :=
  <["verbose" := verbose]> (<["log_file" := log_file]> (<["log_mode" := log_mode]> ∅)).

(** A record with a required field [x] and an optional field [y] with
    default 5: as a dataclass of its own that uses [from_cli] and has no
    [__post_init__], and as a keyword-only subclass of [BaseConfig]. *)
Definition field_x : FieldSpec := mkField "x" TInt None "".
Definition field_y : FieldSpec := mkField "y" TInt (Some (VInt 5)) "".

Definition xy_record : dataclass :=
  mkDataclass "Record" [field_x; field_y] (fun _ fs => (Ok (), fs)).

Definition xy_config : dataclass := subclass "Record" [field_x; field_y].

(** A subclass with one more field, whose help text has two lines. *)
Definition noted_config : dataclass :=
  subclass "noted_config"
    [mkField "note" TStr (Some (VStr ""))
       ("first line" +:+ String Str.newline "second line")].

(** [main_config], which declares nothing of its own. *)
Definition main_config : dataclass := subclass "main_config" [].

(** The locals of the loop body of [from_cli] that are assigned more than
    once.  [arg_type] is unbound ([None]) until it is assigned. *)
Record locals : Type := mkLocals {
  l_required : bool;
  l_default : pyval;
  l_arg_type : option converter
}.

Definition set_arg_type (l : locals) (c : option converter) : locals :=
  mkLocals (l_required l) (l_default l) c.

Definition set_required (l : locals) (b : bool) : locals :=
  mkLocals b (l_default l) (l_arg_type l).

(** The option string of a field (line 70). *)
Definition arg_name (fld : FieldSpec) : string :=
  "--" +:+ Str.replace Str.underscore Str.minus (fld_name fld).

(** The annotation with [Optional] taken off (lines 82-84). *)
Definition unwrap (ty : pytype) : result pytype :=
  if is_Optional ty then next_not_None (get_args ty) else Ok ty.

(** The declared default, [None] for a field without one (line 73). *)
Definition default_or_None (fld : FieldSpec) : pyval :=
  match fld_default fld with
  | None => VNone
  | Some d => d
  end.

(** Requiredness in the words of the specification: the default is the
    missing sentinel and the type is not [Optional]. *)
Definition declared_required (fld : FieldSpec) : bool :=
  bool_decide (fld_default fld = None) && negb (is_Optional (fld_type fld)).

(** [default is True]. *)
Definition default_is_True (fld : FieldSpec) : bool :=
  match fld_default fld with
  | Some (VBool true) => true
  | _ => false
  end.

(** The argument that the loop body adds for a field whose unwrapped type
    is [ty] and whose destination is [d]. *)
Definition argument_of (fld : FieldSpec) (ty : pytype) (d : string) : action :=
  if is_bool ty then
    mkAction (arg_name fld) d
      (if default_is_True fld then StoreFalse else StoreTrue)
      false (VBool (default_is_True fld))
      (fld_help fld +:+ (if negb (declared_required fld) then " (default: False)" else ""))
  else
    mkAction (arg_name fld) d (Store (CType ty)) (declared_required fld)
      (default_or_None fld) (fld_help fld).

(** A subclass of [BaseConfig] with a [bool] field with default [False]
    and one with default [True]. *)
Definition field_flag : FieldSpec := mkField "flag" TBool (Some (VBool false)) "".
Definition field_on : FieldSpec := mkField "on" TBool (Some (VBool true)) "".

Definition flag_config : dataclass := subclass "Flagged" [field_flag; field_on].

(** Keyword-only subclasses of [BaseConfig] with one more field and no
    default for it: [flag: bool], and [flag: Optional[bool]]. *)
Definition flag_record : dataclass :=
  subclass "Flags" [mkField "flag" TBool None ""].

Definition optional_flag_record : dataclass :=
  subclass "Flags" [mkField "flag" (TUnion [TBool; TNoneType]) None ""].

(** Line 74: [arg_type = fld.type if fld.type != bool else lambda x: bool(int(x))]. *)
Definition line_74 (fld : FieldSpec) : option converter :=
  Some (if negb (is_bool (fld_type fld)) then CType (fld_type fld) else CLambdaBoolInt).

(** Line 74 replaced by a plain assignment of the declared type, and line
    74 removed. *)
Definition plain_assignment (fld : FieldSpec) : option converter :=
  Some (CType (fld_type fld)).

Definition no_assignment (fld : FieldSpec) : option converter := None.

(** The body of the loop over [fields(cls)] (lines 70-108), with the
    assignment of line 74 as a parameter: adds the argument of one field
    to the parser. *)
Definition add_field (assign_74 : FieldSpec -> option converter)
    (p : parser) (fld : FieldSpec) : result parser :=
  let arg_name := "--" +:+ Str.replace Str.underscore Str.minus (fld_name fld) in
  let help_text := fld_help fld in
  let required := bool_decide (fld_default fld = None) in
  let default := match fld_default fld with None => VNone | Some d => d end in
  let l := mkLocals required default None in
  let l := set_arg_type l (assign_74 fld) in
  (* Type deduction *)
  let l := set_arg_type l (Some (CType (fld_type fld))) in
  arg_type ← from_option Ok (Raise (UnboundLocalError "arg_type")) (l_arg_type l);
  let ty := match arg_type with CType ty => ty | CLambdaBoolInt => TClass "function" end in
  (* Handle Optional[X] *)
  l ← (if is_Optional ty then
         a ← next_not_None (get_args ty);
         Ok (set_required (set_arg_type l (Some (CType a))) false)
       else Ok l);
  arg_type ← from_option Ok (Raise (UnboundLocalError "arg_type")) (l_arg_type l);
  (* Determine actual CLI type *)
  let cli_type := arg_type in
  if match arg_type with CType ty => is_bool ty | CLambdaBoolInt => false end then
    add_argument p arg_name
      (match l_default l with VBool true => StoreFalse | _ => StoreTrue end)
      false
      (match l_default l with VBool true => VBool true | _ => VBool false end)
      (help_text +:+ (if negb (l_required l) then " (default: False)" else ""))
  else if negb (l_required l) then
    add_argument p arg_name (Store cli_type) false (l_default l) help_text
  else
    add_argument p arg_name (Store cli_type) true VNone help_text.

(** The parser after the loop. *)
Definition build_parser (assign_74 : FieldSpec -> option converter)
    (flds : list FieldSpec) : result parser :=
  foldl (fun acc fld => p ← acc; add_field assign_74 p fld) (Ok []) flds.

(** [from_cli] with the assignment of line 74 as a parameter; [argv] is
    [sys.argv[1:]]. *)
Definition from_cli_with (assign_74 : FieldSpec -> option converter)
    (cls : dataclass) (argv : list string) (fs : filesystem)
    : result instance * filesystem :=
  match build_parser assign_74 (cls_fields cls) with
  | Raise e => (Raise e, fs)
  | Ok p =>
      match parse_args p argv with
      | Raise e => (Raise e, fs)
      | Ok args => construct cls args fs
      end
  end.

(** [cls.from_cli()] as written. *)
Definition from_cli : dataclass -> list string -> filesystem -> result instance * filesystem :=
  from_cli_with line_74.

(** One line of [describe] (line 121). *)
Definition describe_line (fld : FieldSpec) (value : pyval) : string :=
  "  " +:+ Str.ljust (fld_name fld) 25 +:+ ": "
       +:+ Str.ljust (type_str (fld_type fld)) 25 +:+ " = "
       +:+ py_repr value +:+ "  " +:+ fld_help fld.

Definition describe_header (cls : dataclass) : string :=
  "Instance of dataclass '" +:+ cls_name cls +:+ "' has the following values:".

(** The list [lines] that [describe] builds. *)
Definition describe_lines (cls : dataclass) (self : instance) : result (list string) :=
  field_lines ← mapM (fun fld => value ← getattr self (fld_name fld);
                                 Ok (describe_line fld value))
                     (cls_fields cls);
  Ok (describe_header cls :: field_lines).

(** The line feed between the lines. *)
Definition LF : string := String Str.newline EmptyString.

(** [self.describe(return_string)]: the value returned and the text
    printed. *)
Definition describe (cls : dataclass) (self : instance) (return_string : bool)
    : result (option string * list string) :=
  lines ← describe_lines cls self;
  if return_string then Ok (Some (String.concat LF lines), [])
  else Ok (None, [String.concat LF lines]).

(** One line of [help] (lines 44-49). *)
Definition help_line (fld : FieldSpec) : string :=
  let desc := fld_help fld in
  let desc := match fld_default fld with
              | Some d => desc +:+ " (default: " +:+ py_repr d +:+ ")"
              | None => desc +:+ " (required)"
              end in
  "  " +:+ Str.ljust (fld_name fld) 25 +:+ ": "
       +:+ Str.ljust (type_str (fld_type fld)) 25 +:+ " " +:+ desc.

(** [cls.help()]: what each [print] writes. *)
Definition help (cls : dataclass) : list string :=
  ("Dataclass '" +:+ cls_name cls +:+ "' expects the following fields:")
  :: (help_line <$> cls_fields cls).


End WithRuntime.

End BaseConfig.

(** ** A runtime for the examples *)

(** Decimal integers, strings, [/]-separated paths.  [int], [str] and
    [Path] accept more in Python (spaces and underscores in numbers, for
    one); the theorems below hold for every runtime and use this one only
    at concrete inputs. *)
Module Sample.

Definition int_of_string (s : string) : option Z :=
  Z.of_int <$> DecimalString.NilZero.int_of_string s.

Definition string_of_int (z : Z) : string :=
  DecimalString.NilZero.string_of_int (Z.to_int z).

Definition path_of_string (s : string) : path :=
  filter (fun part => part ≠ "" ∧ part ≠ ".") (Str.split "/" s).

Definition sample_convert (ty : pytype) (s : string) : option pyval :=
  match ty with
  | TInt => VInt <$> int_of_string s
  | TStr => Some (VStr s)
  | TPath => Some (VPath (path_of_string s))
  | TBool => Some (VBool (negb (String.eqb s "")))
  | TClass name => Some (VObj name s)
  | TNoneType | TUnion _ => None
  end.

Fixpoint sample_type_str (ty : pytype) : string :=
  match ty with
  | TBool => "<class 'bool'>"
  | TInt => "<class 'int'>"
  | TStr => "<class 'str'>"
  | TPath => "<class 'pathlib.Path'>"
  | TNoneType => "<class 'NoneType'>"
  | TUnion args => "typing.Union[" +:+ String.concat ", " (map sample_type_str args) +:+ "]"
  | TClass name => "<class '" +:+ name +:+ "'>"
  end.

(** A line break is written [\n] by [repr]. *)
Fixpoint escape (s : string) : string :=
  match s with
  | EmptyString => EmptyString
  | String c s' =>
      if Ascii.eqb c Str.newline then String "\" (String "n" (escape s'))
      else String c (escape s')
  end.

Fixpoint sample_repr (v : pyval) : string :=
  match v with
  | VNone => "None"
  | VBool b => if b then "True" else "False"
  | VInt z => string_of_int z
  | VStr s => "'" +:+ escape s +:+ "'"
  | VPath p => "PosixPath('" +:+ escape (String.concat "/" p) +:+ "')"
  | VList items => "[" +:+ String.concat ", " (map sample_repr items) +:+ "]"
  | VObj cls state => cls +:+ "(" +:+ escape state +:+ ")"
  end.

Definition sample_str (v : pyval) : string :=
  match v with
  | VStr s => s
  | VPath p => String.concat "/" p
  | _ => sample_repr v
  end.

(** A registry of colormaps with the one name "tab20"; a color is the
    number the colormap was called on. *)
Definition sample_get_cmap (name : string) : result (Q -> Q) :=
  if String.eqb name "tab20" then Ok (fun x => x)
  else Raise (ValueError ("'" +:+ name +:+ "' is not a valid value for cmap")).

#[global] Instance sample_runtime : PyRuntime :=
  {| convert := sample_convert;
     type_str := sample_type_str;
     py_str := sample_str;
     py_repr := sample_repr;
     convert_str := fun _ => eq_refl |}.

End Sample.

(** ** plot_style *)

Module PlotStyle.

Section WithLibraries.

(** Python objects of the plotting libraries, and colors. *)
Context {object color : Type}.

(** [cmocean.cm.__dict__], [cmocean.cm.tarn] and
    [cmocean.tools.crop_by_percent(cmap, per, which=..., N=None)]. *)
Context (cm_dict : gmap string object).
Context (tarn : object).
Context (crop_by_percent : object -> Z -> string -> object).

(** [plt.get_cmap(name)]: a colormap, called on a number in [0, 1], or the
    exception for an unknown name. *)
Context (plt_get_cmap : string -> result (Q -> color)).

Definition mapping : gmap string object :=
  {[ "heatmap" := crop_by_percent tarn 30 "both" ]}.

Definition get_colormap (variable_name : string) : result object :=
  match mapping !! variable_name with
  | Some c => Ok c
  | None =>
      match cm_dict !! variable_name with
      | Some c => Ok c
      | None =>
          Raise (ValueError ("No colormap defined for variable '" +:+ variable_name
                               +:+ "'. Please define a mapping in mapping)."))
      end
  end.

(** [range(n)]. *)
Definition range (n : Z) : list Z := Z.of_nat <$> seq 0 (Z.to_nat n).

(** [i / n] on integers. *)
Definition true_div (i n : Z) : result Q :=
  if n =? 0 then Raise ZeroDivisionError else Ok (inject_Z i / inject_Z n)%Q.

(** [l[i]], where a negative index counts from the end. *)
Definition index {X : Type} (l : list X) (i : Z) : result X :=
  let len := Z.of_nat (length l) in
  let j := if i <? 0 then i + len else i in
  if (0 <=? j) && (j <? len)
  then from_option Ok (Raise IndexError) (l !! Z.to_nat j)
  else Raise IndexError.

(** The colors of the members for a given colormap: what the
    comprehension of [get_ensemble_colors] evaluates to. *)
Definition member_colors (cmap : Q -> color) (n : Z) : list color :=
  (fun i => cmap (inject_Z i / inject_Z n)%Q) <$> range n.

Definition get_ensemble_colors (n_members : Z) (cmap_name : string) : result (list color) :=
  cmap ← plt_get_cmap cmap_name;
  mapM (fun i => x ← true_div i n_members; Ok (cmap x)) (range n_members).

Definition get_member_color (member_idx n_members : Z) (cmap_name : string) : result color :=
  colors ← get_ensemble_colors n_members cmap_name;
  index colors member_idx.

End WithLibraries.

Section Styles.

Context {object : Type}.

(** [cmocean.cm.matter] and [True]. *)
Context (matter py_True : object).

(** [xarray_plot_style]: the keyword arguments are a dictionary;
    [defaults.update(kwargs)] lets them win. *)
Definition xarray_defaults : gmap string object :=
  <["cmap" := matter]> (<["robust" := py_True]> {[ "add_colorbar" := py_True ]}).

Definition xarray_plot_style (kwargs : gmap string object) : gmap string object :=
  kwargs ∪ xarray_defaults.

(** The calls that [set_cartopy_defaults] makes on [ax];
    [set_global] stands for [ax.set_global(central_longitude=...)]. *)
Inductive ax_call : Type :=
  | coastlines
  | add_feature (feature : object) (linestyle : string)
  | gridlines (crs : object) (draw_labels : bool) (kwargs : gmap string object)
  | set_extent (extent : list Q) (crs : object)
  | set_global (central_longitude : Q).

(** [cartopy.feature.BORDERS]. *)
Context (BORDERS : object).

(** The axes object the caller passes: what a call does after the calls
    made before it, return ([None]) or raise. *)
Context (ax : list ax_call -> ax_call -> option exn).

(** One call on [ax]: the calls made so far, this one included. *)
Definition call (made : list ax_call) (c : ax_call) : result unit * list ax_call :=
  match ax made c with
  | None => (Ok (), made ++ [c])
  | Some e => (Raise e, made ++ [c])
  end.

(** [set_cartopy_defaults(ax, ...)]: the result and the calls made on [ax],
    in order.  [extent] is [None] or a sequence of numbers, which is true
    when it is not empty.  A keyword given twice in a call is a
    [TypeError] before the call is made, so [gridlines_kwargs] must not
    name [crs] or [draw_labels]. *)
Definition set_cartopy_defaults (projection : object)
    (with_coastlines with_borders with_gridlines : bool)
    (gridlines_kwargs : option (gmap string object))
    (central_longitude : Q) (extent : option (list Q))
    : result unit * list ax_call :=
  match (if with_coastlines then call [] coastlines else (Ok (), [])) with
  | (Raise e, made) => (Raise e, made)
  | (Ok _, made) =>
  match (if with_borders then call made (add_feature BORDERS ":")
         else (Ok (), made)) with
  | (Raise e, made) => (Raise e, made)
  | (Ok _, made) =>
  match (if with_gridlines then
           let kwargs := match gridlines_kwargs with None => ∅ | Some kw => kw end in
           if bool_decide ("crs" ∈ dom kwargs) || bool_decide ("draw_labels" ∈ dom kwargs)
           then (Raise TypeError, made)
           else call made (gridlines projection true kwargs)
         else (Ok (), made)) with
  | (Raise e, made) => (Raise e, made)
  | (Ok _, made) =>
  match (match extent with
         | Some (x :: xs) => call made (set_extent (x :: xs) projection)
         | _ => (Ok (), made)
         end) with
  | (Raise e, made) => (Raise e, made)
  | (Ok _, made) =>
  if negb (Qeq_bool central_longitude 0)
  then call made (set_global central_longitude)
  else (Ok (), made)
  end end end end.

End Styles.

End PlotStyle.

(** * Properties *)

(** ** The file system *)

Section FileSystem.
Import FS.

Lemma filesystem_subseteq_refl (fs : filesystem) : fs ⊆ fs.
Proof. by split. Qed.

Lemma filesystem_subseteq_trans (fs1 fs2 fs3 : filesystem) :
  fs1 ⊆ fs2 -> fs2 ⊆ fs3 -> fs1 ⊆ fs3.
Proof.
  intros (Hn & Hl & Hc) (Hn' & Hl' & Hc'). split; [by etrans|].
  split; congruence.
Qed.

Lemma create_subseteq (fs : filesystem) (q : path) (n : node) :
  nodes fs !! q = None -> fs ⊆ create fs q n.
Proof. intros Hq. split; [by apply insert_subseteq|done]. Qed.

Lemma makedirs_subseteq (fs fs' : filesystem) (dir rest : path) (r : result unit) :
  makedirs fs dir rest = (r, fs') -> fs ⊆ fs'.
Proof.
  revert fs dir. induction rest as [|c rest IH]; intros fs dir; cbn [makedirs].
  - intros [= _ <-]. apply filesystem_subseteq_refl.
  - destruct (no_lookup fs !! (dir ++ [c])).
    { intros [= _ <-]. apply filesystem_subseteq_refl. }
    destruct (nodes fs !! (dir ++ [c])) as [[|]|] eqn:Hq.
    + apply IH.
    + intros [= _ <-]. apply filesystem_subseteq_refl.
    + destruct (no_create fs !! (dir ++ [c])).
      { intros [= _ <-]. apply filesystem_subseteq_refl. }
      intros Hm. eapply filesystem_subseteq_trans; [|by eapply IH].
      by apply create_subseteq.
Qed.

Lemma dirs_along_mono (fs fs' : filesystem) (dir rest : path) :
  fs ⊆ fs' -> dirs_along fs dir rest -> dirs_along fs' dir rest.
Proof.
  intros (Hn & Hl & Hc). revert dir.
  induction rest as [|c rest IH]; intros dir; cbn [dirs_along]; [done|].
  intros (Hlook & Hdir & Hrest). split; [congruence|]. split; [|by apply IH].
  by eapply lookup_weaken.
Qed.

Lemma makedirs_ok (fs fs' : filesystem) (dir rest : path) :
  makedirs fs dir rest = (Ok (), fs') -> dirs_along fs' dir rest.
Proof.
  revert fs dir. induction rest as [|c rest IH]; intros fs dir; cbn [makedirs dirs_along];
    [done|].
  destruct (no_lookup fs !! (dir ++ [c])) eqn:Hl; [done|].
  destruct (nodes fs !! (dir ++ [c])) as [[|]|] eqn:Hq.
  - intros Hm. destruct (makedirs_subseteq _ _ _ _ _ Hm) as (Hn & Hl' & _).
    split; [congruence|]. split; [by eapply lookup_weaken|by eapply IH].
  - by destruct rest.
  - destruct (no_create fs !! (dir ++ [c])); [done|].
    intros Hm. destruct (makedirs_subseteq _ _ _ _ _ Hm) as (Hn & Hl' & _).
    cbn [create no_lookup] in Hl'.
    split; [congruence|]. split; [|by eapply IH].
    eapply lookup_weaken; [|done]. cbn [create nodes]. apply lookup_insert_eq.
Qed.

Lemma dirs_along_makedirs (fs : filesystem) (dir rest : path) :
  dirs_along fs dir rest -> makedirs fs dir rest = (Ok (), fs).
Proof.
  revert dir. induction rest as [|c rest IH]; intros dir; cbn [makedirs dirs_along];
    [done|].
  intros (-> & -> & Hrest). by apply IH.
Qed.

(** A second call ends like the first and makes nothing more. *)
Lemma makedirs_again (fs fs' : filesystem) (dir rest : path) (r : result unit) :
  makedirs fs dir rest = (r, fs') -> makedirs fs' dir rest = (r, fs').
Proof.
  revert fs dir. induction rest as [|c rest IH]; intros fs dir; cbn [makedirs].
  - by intros [= <- <-].
  - destruct (no_lookup fs !! (dir ++ [c])) eqn:Hl.
    { intros [= <- <-]. by rewrite Hl. }
    destruct (nodes fs !! (dir ++ [c])) as [[|]|] eqn:Hq.
    + intros Hm. destruct (makedirs_subseteq _ _ _ _ _ Hm) as (Hn & Hl' & _).
      rewrite <- Hl', Hl, (lookup_weaken _ _ _ _ Hq Hn). by eapply IH.
    + intros [= <- <-]. by rewrite Hl, Hq.
    + destruct (no_create fs !! (dir ++ [c])) eqn:Hc.
      { intros [= <- <-]. by rewrite Hl, Hq, Hc. }
      intros Hm. destruct (makedirs_subseteq _ _ _ _ _ Hm) as (Hn & Hl' & _).
      cbn [create no_lookup nodes] in Hl', Hn.
      rewrite <- Hl', Hl.
      rewrite (lookup_weaken _ _ (dir ++ [c]) Directory (lookup_insert_eq _ _ _) Hn).
      by eapply IH.
Qed.

Lemma dirs_along_lookup (fs : filesystem) (dir rest : path) (c : string) (l : path) :
  dirs_along fs dir rest ->
  lookup_from fs dir (rest ++ c :: l) = lookup_from fs (dir ++ rest) (c :: l).
Proof.
  revert dir. induction rest as [|c0 rest IH]; intros dir.
  - by rewrite app_nil_r.
  - cbn [dirs_along]. intros (Hl & Hq & Hrest).
    rewrite <- app_comm_cons. cbn [lookup_from]. rewrite Hl, Hq.
    rewrite (IH _ Hrest), <- (assoc_L (++)). cbn [app].
    by destruct rest.
Qed.

Lemma dirs_along_create_file (fs : filesystem) (dir rest : path) (c : string) :
  dirs_along fs dir rest ->
  create_file_from fs dir (rest ++ [c]) = create_file_from fs (dir ++ rest) [c].
Proof.
  revert dir. induction rest as [|c0 rest IH]; intros dir.
  - by rewrite app_nil_r.
  - cbn [dirs_along]. intros (Hl & Hq & Hrest).
    rewrite <- app_comm_cons. cbn [create_file_from]. rewrite Hl, Hq.
    rewrite (IH _ Hrest), <- (assoc_L (++)). cbn [app].
    by destruct rest.
Qed.

Lemma dirs_along_take (fs : filesystem) (dir rest : path) (n : nat) :
  dirs_along fs dir rest -> lookup_from fs dir (take n rest) = Ok (Some Directory).
Proof.
  revert dir n. induction rest as [|c rest IH]; intros dir n.
  - by rewrite take_nil.
  - destruct n as [|n]; [done|]. cbn [dirs_along take]. intros (Hl & Hq & Hrest).
    cbn [lookup_from]. rewrite Hl, Hq, (IH _ n Hrest). by destruct (take n rest).
Qed.

(** What is found has its ancestors in place. *)
Lemma lookup_from_found (fs : filesystem) (dir rest : path) (c : string) (n : node) :
  lookup_from fs dir (rest ++ [c]) = Ok (Some n) -> dirs_along fs dir rest.
Proof.
  revert dir. induction rest as [|c0 rest IH]; intros dir; [done|].
  rewrite <- app_comm_cons. cbn [lookup_from dirs_along].
  destruct (no_lookup fs !! (dir ++ [c0])); [done|].
  destruct (nodes fs !! (dir ++ [c0])) as [[|]|]; [|by destruct rest|done].
  intros Hf. split; [done|]. split; [done|]. apply IH.
  by destruct rest.
Qed.

(** After a failed [makedirs], a path below is not found: the lookup
    fails in the same way or finds nothing. *)
Lemma makedirs_failed_lookup (fs fs' : filesystem) (dir rest : path) (e : exn)
    (c : string) :
  makedirs fs dir rest = (Raise e, fs') ->
  lookup_from fs' dir (rest ++ [c]) = Raise e
  \/ lookup_from fs' dir (rest ++ [c]) = Ok None.
Proof.
  revert fs dir. induction rest as [|c0 rest IH]; intros fs dir; cbn [makedirs];
    [done|].
  rewrite <- app_comm_cons. cbn [lookup_from].
  destruct (no_lookup fs !! (dir ++ [c0])) eqn:Hl.
  { intros [= <- <-]. rewrite Hl. by left. }
  destruct (nodes fs !! (dir ++ [c0])) as [[|]|] eqn:Hq.
  - intros Hm. destruct (makedirs_subseteq _ _ _ _ _ Hm) as (Hn & Hl' & _).
    rewrite <- Hl', Hl, (lookup_weaken _ _ _ _ Hq Hn).
    destruct (IH _ _ Hm) as [Hr|Hr]; rewrite Hr; destruct rest; auto.
  - intros [= _ <-]. rewrite Hl, Hq. destruct rest; auto.
  - destruct (no_create fs !! (dir ++ [c0])) eqn:Hc.
    { intros [= _ <-]. rewrite Hl, Hq. by right. }
    intros Hm. destruct (makedirs_subseteq _ _ _ _ _ Hm) as (Hn & Hl' & _).
    cbn [create no_lookup nodes] in Hl', Hn.
    rewrite <- Hl', Hl.
    rewrite (lookup_weaken _ _ (dir ++ [c0]) Directory (lookup_insert_eq _ _ _) Hn).
    destruct (IH _ _ Hm) as [Hr|Hr]; rewrite Hr; destruct rest; auto.
Qed.

Lemma makedirs_OSError (fs fs' : filesystem) (dir rest : path) (e : exn) :
  makedirs fs dir rest = (Raise e, fs') -> is_OSError e = true.
Proof.
  revert fs dir. induction rest as [|c rest IH]; intros fs dir; cbn [makedirs];
    [done|].
  destruct (no_lookup fs !! (dir ++ [c])) as [d|].
  { intros [= <- _]. by destruct d. }
  destruct (nodes fs !! (dir ++ [c])) as [[|]|].
  - apply IH.
  - intros [= <- _]. by destruct rest.
  - destruct (no_create fs !! (dir ++ [c])) as [d|]; [|apply IH].
    intros [= <- _]. by destruct d.
Qed.

Lemma lookup_from_OSError (fs : filesystem) (dir rest : path) (e : exn) :
  lookup_from fs dir rest = Raise e -> is_OSError e = true.
Proof.
  revert dir. induction rest as [|c rest IH]; intros dir; cbn [lookup_from]; [done|].
  destruct (no_lookup fs !! (dir ++ [c])) as [d|].
  { intros [= <-]. by destruct d. }
  destruct (nodes fs !! (dir ++ [c])) as [[|]|]; [|by destruct rest|done].
  destruct rest; [done|]. apply IH.
Qed.

End FileSystem.

Section FileSystemCreation.
Import FS.

Lemma stat_below_dirs (fs : filesystem) (par : path) (c : string) :
  dirs_along fs [] par ->
  stat fs (par ++ [c])
  = match no_lookup fs !! (par ++ [c]) with
    | Some d => Raise (denial_error d)
    | None => Ok (nodes fs !! (par ++ [c]))
    end.
Proof.
  intros Hdirs. unfold stat. rewrite (dirs_along_lookup fs [] par c [] Hdirs).
  cbn [lookup_from app]. destruct (no_lookup fs !! (par ++ [c])); [done|].
  by destruct (nodes fs !! (par ++ [c])) as [[|]|].
Qed.

Lemma create_below_dirs (fs : filesystem) (par : path) (c : string) :
  dirs_along fs [] par ->
  create_file_from fs [] (par ++ [c])
  = match no_lookup fs !! (par ++ [c]) with
    | Some d => (Raise (denial_error d), fs)
    | None =>
        match nodes fs !! (par ++ [c]) with
        | Some RegularFile => (Ok (), fs)
        | Some Directory => (Raise IsADirectoryError, fs)
        | None =>
            match no_create fs !! (par ++ [c]) with
            | Some d => (Raise (denial_error d), fs)
            | None => (Ok (), create fs (par ++ [c]) RegularFile)
            end
        end
    end.
Proof.
  intros Hdirs. rewrite (dirs_along_create_file fs [] par c Hdirs).
  cbn [create_file_from app]. destruct (no_lookup fs !! (par ++ [c])); [done|].
  by destruct (nodes fs !! (par ++ [c])) as [[|]|].
Qed.

Lemma path_exists_prefixes (fs : filesystem) (p : path) (n : nat) :
  path_exists fs p = true -> path_exists fs (take n p) = true.
Proof.
  unfold path_exists. destruct (stat fs p) as [[nd|]|] eqn:Hs; [|done|done]. intros _.
  destruct p as [|c0 p0] using rev_ind; [by rewrite take_nil|]. clear IHp0.
  unfold stat in *. pose proof (lookup_from_found _ _ _ _ _ Hs) as Hdirs.
  destruct (decide (n <= length p0)%nat) as [Hle|Hgt].
  - rewrite take_app_le by done. by rewrite (dirs_along_take fs [] p0 n Hdirs).
  - rewrite take_ge by (rewrite length_app; cbn; lia). by rewrite Hs.
Qed.

Lemma clear_from_create (fs : filesystem) (q dir rest : path) (n : node) :
  (length q <= length dir)%nat ->
  clear_from (create fs q n) dir rest = clear_from fs dir rest.
Proof.
  revert dir. induction rest as [|c rest IH]; intros dir Hlen; [done|].
  cbn [clear_from create no_lookup no_create nodes].
  rewrite lookup_insert_ne.
  2:{ intros ->. rewrite length_app in Hlen. cbn in Hlen. lia. }
  rewrite IH by (rewrite length_app; cbn; lia). done.
Qed.

Lemma clear_lookup (fs : filesystem) (dir rest : path) :
  clear_from fs dir rest = true -> exists o, lookup_from fs dir rest = Ok o.
Proof.
  revert dir. induction rest as [|c rest IH]; intros dir; cbn [clear_from lookup_from];
    [eauto|].
  destruct (no_lookup fs !! (dir ++ [c])); [done|].
  destruct (no_create fs !! (dir ++ [c])); [done|].
  destruct (nodes fs !! (dir ++ [c])) as [[|]|], rest as [|c' rest']; eauto; done.
Qed.

Lemma clear_makedirs (fs : filesystem) (dir rest : path) (c : string) :
  clear_from fs dir (rest ++ [c]) = true ->
  exists fs', makedirs fs dir rest = (Ok (), fs')
              /\ clear_from fs' (dir ++ rest) [c] = true.
Proof.
  revert fs dir. induction rest as [|c0 rest IH]; intros fs dir.
  - rewrite app_nil_r. eauto.
  - rewrite <- app_comm_cons. cbn [clear_from makedirs].
    destruct (no_lookup fs !! (dir ++ [c0])); [done|].
    destruct (no_create fs !! (dir ++ [c0])); [done|].
    assert (Hne : exists x l, rest ++ [c] = x :: l).
    { destruct rest; cbn; eauto. }
    destruct Hne as (x & l & Hne). rewrite Hne.
    replace (dir ++ c0 :: rest) with ((dir ++ [c0]) ++ rest)
      by (by rewrite <- (assoc_L (++))).
    destruct (nodes fs !! (dir ++ [c0])) as [[|]|]; [| done |]; rewrite <- Hne; intros Hcl.
    + by apply IH.
    + apply IH. by rewrite clear_from_create.
Qed.

End FileSystemCreation.

(** ** Construction and validation of [BaseConfig] *)

Section LogFile.
Import FS BaseConfig.

Lemma path_exists_stat (fs : filesystem) (p : path) :
  exists_ fs p = Ok (path_exists fs p) \/ exists e, exists_ fs p = Raise e
                                                   /\ stat fs p = Raise e
                                                   /\ path_exists fs p = false.
Proof.
  unfold exists_, path_exists. destruct (stat fs p) as [[n|]|e]; cbn; eauto.
Qed.

Lemma ensure_log_file_present (fs : filesystem) (p : path) :
  path_exists fs p = true -> ensure_log_file fs p = (Ok (), fs).
Proof.
  intros Hp. unfold ensure_log_file.
  destruct (path_exists_stat fs p) as [->|(e & _ & _ & He)]; [|congruence].
  by rewrite Hp.
Qed.

(** The log-file step never removes an entry; a second run ends like the
    first and changes nothing more; when it returns the log file is there,
    with its ancestors; when it raises, the exception is an [OSError] and
    the log file is not there. *)
Lemma ensure_log_file_spec (fs fs' : filesystem) (p : path) (r : result unit) :
  ensure_log_file fs p = (r, fs') ->
  fs ⊆ fs'
  /\ ensure_log_file fs' p = (r, fs')
  /\ match r with
     | Ok _ => path_exists fs' p = true
     | Raise e => is_OSError e = true /\ path_exists fs' p = false
     end.
Proof.
  unfold ensure_log_file at 1.
  destruct (path_exists_stat fs p) as [->|(e & -> & Hs & Hfalse)].
  2:{ intros [= <- <-]. split; [apply filesystem_subseteq_refl|]. split.
      - unfold ensure_log_file, exists_. by rewrite Hs.
      - split; [by eapply lookup_from_OSError|done]. }
  destruct (path_exists fs p) eqn:Hex; cbn [negb].
  { intros [= <- <-]. split; [apply filesystem_subseteq_refl|].
    split; [by apply ensure_log_file_present|done]. }
  destruct p as [|c par _] using rev_ind; [done|].
  unfold mkdir_parents, parent. rewrite removelast_last.
  destruct (makedirs fs [] par) as [[[]|e] fs1] eqn:Hm.
  - pose proof (makedirs_subseteq _ _ _ _ _ Hm) as Hsub.
    pose proof (makedirs_ok _ _ _ _ Hm) as Hdirs.
    assert (Hagain : forall r fs2,
              touch fs1 (par ++ [c]) = (r, fs2) ->
              path_exists fs1 (par ++ [c]) = false ->
              ensure_log_file fs1 (par ++ [c]) = (r, fs2)).
    { intros r0 fs2 Ht Hno. unfold ensure_log_file.
      destruct (path_exists_stat fs1 (par ++ [c])) as [->|(e & -> & Hs & _)].
      - rewrite Hno. cbn [negb]. unfold mkdir_parents, parent.
        by rewrite removelast_last, (dirs_along_makedirs _ _ _ Hdirs).
      - unfold touch in Ht. rewrite Hs in Ht.
        rewrite (create_below_dirs _ _ _ Hdirs) in Ht.
        rewrite (stat_below_dirs _ _ _ Hdirs) in Hs.
        destruct (no_lookup fs1 !! (par ++ [c])); [|done].
        injection Hs as <-. by injection Ht as <- <-. }
    unfold touch. rewrite (stat_below_dirs _ _ _ Hdirs), (create_below_dirs _ _ _ Hdirs).
    destruct (no_lookup fs1 !! (par ++ [c])) as [d|] eqn:Hl.
    + intros [= <- <-]. split; [done|].
      assert (Hno : path_exists fs1 (par ++ [c]) = false).
      { unfold path_exists. by rewrite (stat_below_dirs _ _ _ Hdirs), Hl. }
      split; [|split; [by destruct d|done]].
      apply Hagain; [|done]. unfold touch.
      by rewrite (stat_below_dirs _ _ _ Hdirs), (create_below_dirs _ _ _ Hdirs), Hl.
    + destruct (nodes fs1 !! (par ++ [c])) as [n|] eqn:Hn.
      * intros [= <- <-]. split; [done|].
        assert (Hyes : path_exists fs1 (par ++ [c]) = true).
        { unfold path_exists. by rewrite (stat_below_dirs _ _ _ Hdirs), Hl, Hn. }
        split; [by apply ensure_log_file_present|done].
      * assert (Hno : path_exists fs1 (par ++ [c]) = false).
        { unfold path_exists. by rewrite (stat_below_dirs _ _ _ Hdirs), Hl, Hn. }
        destruct (no_create fs1 !! (par ++ [c])) as [d|] eqn:Hc.
        -- intros [= <- <-]. split; [done|].
           split; [|split; [by destruct d|done]].
           apply Hagain; [|done]. unfold touch.
           by rewrite (stat_below_dirs _ _ _ Hdirs), (create_below_dirs _ _ _ Hdirs),
                Hl, Hn, Hc.
        -- intros [= <- <-].
           pose proof (create_subseteq fs1 (par ++ [c]) RegularFile Hn) as Hsub2.
           assert (Hyes : path_exists (create fs1 (par ++ [c]) RegularFile) (par ++ [c])
                          = true).
           { unfold path_exists.
             rewrite (stat_below_dirs _ _ _ (dirs_along_mono _ _ _ _ Hsub2 Hdirs)).
             cbn [create no_lookup nodes]. by rewrite Hl, lookup_insert_eq. }
           split; [by eapply filesystem_subseteq_trans|].
           split; [by apply ensure_log_file_present|done].
  - intros [= <- <-]. split; [by eapply makedirs_subseteq|].
    assert (Hno : path_exists fs1 (par ++ [c]) = false
                  /\ ensure_log_file fs1 (par ++ [c]) = (Raise e, fs1)).
    { unfold path_exists, ensure_log_file, exists_, stat.
      destruct (makedirs_failed_lookup _ _ _ _ _ c Hm) as [Hr|Hr]; rewrite Hr.
      - done.
      - cbn. unfold mkdir_parents, parent.
        by rewrite removelast_last, (makedirs_again _ _ _ _ _ Hm). }
    destruct Hno as [Hno Hagain]. split; [done|].
    split; [by eapply makedirs_OSError|done].
Qed.

(** Where nothing stands in the way, the log-file step returns. *)
Lemma ensure_log_file_unobstructed (fs : filesystem) (p : path) :
  unobstructed fs p = true -> exists fs', ensure_log_file fs p = (Ok (), fs').
Proof.
  intros Hclear. unfold unobstructed in Hclear.
  destruct (clear_lookup _ _ _ Hclear) as [o Ho].
  unfold ensure_log_file, exists_, stat. rewrite Ho. cbn [mbind result_bind].
  destruct o as [n|]; [rewrite bool_decide_eq_true_2 by eauto; cbn; eauto|].
  rewrite bool_decide_eq_false_2 by (by intros [? ?]). cbn [negb].
  destruct p as [|c par _] using rev_ind; [done|].
  unfold mkdir_parents, parent. rewrite removelast_last.
  destruct (clear_makedirs _ _ _ _ Hclear) as (fs1 & Hm & Hlast). rewrite Hm.
  pose proof (makedirs_ok _ _ _ _ Hm) as Hdirs.
  unfold touch. rewrite (stat_below_dirs _ _ _ Hdirs), (create_below_dirs _ _ _ Hdirs).
  cbn [clear_from app] in Hlast.
  destruct (no_lookup fs1 !! (par ++ [c])); [done|].
  destruct (no_create fs1 !! (par ++ [c])); [done|].
  destruct (nodes fs1 !! (par ++ [c])); eauto.
Qed.

End LogFile.

Section Validation.
Context `{PyRuntime}.
Import BaseConfig.

Lemma new_unfold verbose log_file log_mode fs :
  new verbose log_file log_mode fs =
  match post_init (bound verbose log_file log_mode) fs with
  | (Ok _, fs') => (Ok (bound verbose log_file log_mode), fs')
  | (Raise e, fs') => (Raise e, fs')
  end.
Proof.
  unfold new, construct.
  rewrite bool_decide_eq_true_2.
  - reflexivity.
  - rewrite !dom_insert, dom_singleton. simpl. set_solver.
Qed.

Lemma post_init_bound verbose log_file log_mode fs :
  post_init (bound verbose (log_file_value log_file) log_mode) fs =
  if negb (py_in_ints verbose [0; 1; 2; 3]) then
    (Raise (ValueError ("Invalid verbosity level: " +:+ py_str verbose
                          +:+ ". Must be 0, 1, 2, or 3.")), fs)
  else
    match match log_file with
          | None => (Ok (), fs)
          | Some p => ensure_log_file fs p
          end with
    | (Raise e, fs') => (Raise e, fs')
    | (Ok _, fs') =>
        if negb (py_in_strs log_mode ["w"; "a"]) then
          (Raise (ValueError ("Invalid log mode: " +:+ py_str log_mode
                                +:+ ". Must be 'w' or 'a'.")), fs')
        else (Ok (), fs')
    end.
Proof.
  unfold post_init, bound, getattr.
  rewrite lookup_insert_eq.
  destruct (negb (py_in_ints verbose [0; 1; 2; 3])); [reflexivity|].
  rewrite lookup_insert_ne by done. rewrite lookup_insert_eq.
  destruct log_file as [p|]; cbn [log_file_value];
    [destruct (ensure_log_file fs p) as [[[]|e] fs']|]; try reflexivity;
    (rewrite lookup_insert_ne by done; rewrite lookup_insert_ne by done;
     rewrite lookup_insert_eq; reflexivity).
Qed.

(** C2, as amended.  A verbosity outside 0..3 makes the construction of
    [BaseConfig] raise [ValueError] (and no instance is returned), whatever
    the other fields are.  A log mode outside "w", "a" makes it raise
    [ValueError] when the log file is [None], is there already or can be
    created; in general it raises either that [ValueError] or, for a log
    file that is not there and cannot be created, the [OSError] of the
    creation, which comes before the log mode is looked at.  With a
    verbosity in 0..3, a log mode among "w", "a" and no log file the
    construction succeeds. *)
Theorem BaseConfig_validation (verbose log_mode : pyval) (log_file : option path)
    (fs : filesystem) :
  (py_in_ints verbose [0; 1; 2; 3] = false ->
   exists msg fs',
     new verbose (log_file_value log_file) log_mode fs = (Raise (ValueError msg), fs'))
  /\ (py_in_strs log_mode ["w"; "a"] = false ->
      log_file_in_reach fs log_file ->
      exists msg fs',
        new verbose (log_file_value log_file) log_mode fs = (Raise (ValueError msg), fs'))
  /\ (py_in_strs log_mode ["w"; "a"] = false ->
      (exists msg fs',
         new verbose (log_file_value log_file) log_mode fs = (Raise (ValueError msg), fs'))
      \/ (exists p e fs',
            log_file = Some p
            /\ FS.path_exists fs p = false
            /\ FS.unobstructed fs p = false
            /\ is_OSError e = true
            /\ new verbose (log_file_value log_file) log_mode fs = (Raise e, fs')))
  /\ (py_in_ints verbose [0; 1; 2; 3] = true ->
      py_in_strs log_mode ["w"; "a"] = true ->
      new verbose VNone log_mode fs = (Ok (bound verbose VNone log_mode), fs)).
Proof.
  split; [|split; [|split]].
  - intros Hv. rewrite new_unfold, post_init_bound, Hv. simpl. eauto.
  - intros Hm Hreach. rewrite new_unfold, post_init_bound, Hm.
    destruct (negb (py_in_ints verbose [0; 1; 2; 3])); [simpl; eauto|].
    destruct log_file as [p|]; [|simpl; eauto].
    destruct Hreach as [Hex|Hclear].
    + rewrite (ensure_log_file_present fs p Hex). simpl. eauto.
    + destruct (ensure_log_file_unobstructed fs p Hclear) as [fs' ->]. simpl. eauto.
  - intros Hm. rewrite new_unfold, post_init_bound, Hm.
    destruct (negb (py_in_ints verbose [0; 1; 2; 3])); [simpl; eauto|].
    destruct log_file as [p|]; [|simpl; eauto].
    destruct (ensure_log_file fs p) as [[[]|e] fs'] eqn:Hens; [simpl; eauto|].
    right. exists p, e, fs'. split; [done|].
    destruct (ensure_log_file_spec fs fs' p _ Hens) as (_ & _ & Hos & _).
    split.
    { destruct (FS.path_exists fs p) eqn:Hex; [|done].
      by rewrite (ensure_log_file_present fs p Hex) in Hens. }
    split; [|done].
    destruct (FS.unobstructed fs p) eqn:Hclear; [|done].
    destruct (ensure_log_file_unobstructed fs p Hclear) as [fs1 Hok]. congruence.
  - intros Hv Hm. rewrite new_unfold.
    rewrite (post_init_bound verbose None log_mode), Hv, Hm. reflexivity.
Qed.

(** C5, as amended.  With a valid verbosity, the construction of
    [BaseConfig] with a string as log mode succeeds only for the log modes
    "w" and "a".  When the log file is [None], is there already or can be
    created, it succeeds exactly for them, and then returns the instance
    with the given fields; every other string is rejected with the
    [ValueError] for the log mode. *)
Theorem BaseConfig_log_mode_w_a (verbose : pyval) (log_file : option path)
    (log_mode : string) (fs : filesystem) :
  py_in_ints verbose [0; 1; 2; 3] = true ->
  (is_ok (new verbose (log_file_value log_file) (VStr log_mode) fs).1 = true ->
   log_mode = "w" \/ log_mode = "a")
  /\ (log_file_in_reach fs log_file ->
      (is_ok (new verbose (log_file_value log_file) (VStr log_mode) fs).1 = true
       <-> log_mode = "w" \/ log_mode = "a")
      /\ (log_mode = "w" \/ log_mode = "a" ->
          exists fs',
            new verbose (log_file_value log_file) (VStr log_mode) fs =
            (Ok (bound verbose (log_file_value log_file) (VStr log_mode)), fs'))
      /\ (~ (log_mode = "w" \/ log_mode = "a") ->
          exists fs',
            new verbose (log_file_value log_file) (VStr log_mode) fs =
            (Raise (ValueError ("Invalid log mode: " +:+ py_str (VStr log_mode)
                                  +:+ ". Must be 'w' or 'a'.")), fs'))).
Proof.
  intros Hv. rewrite new_unfold, post_init_bound, Hv. cbn [negb].
  assert (Hmode : py_in_strs (VStr log_mode) ["w"; "a"] = true
                  <-> log_mode = "w" \/ log_mode = "a").
  { cbn. rewrite orb_false_r, orb_true_iff, !String.eqb_eq. done. }
  split.
  - destruct (match log_file with None => _ | Some p => _ end) as [[[]|e] fs'];
      [|done].
    destruct (py_in_strs (VStr log_mode) ["w"; "a"]) eqn:Hm; [|done].
    intros _. by apply Hmode.
  - intros Hreach.
    assert (Hstep : exists fs', match log_file with
                                | None => (Ok (), fs)
                                | Some p => ensure_log_file fs p
                                end = (Ok (), fs')).
    { destruct log_file as [p|]; [|eauto]. destruct Hreach as [Hex|Hclear].
      - rewrite (ensure_log_file_present fs p Hex). eauto.
      - apply (ensure_log_file_unobstructed fs p Hclear). }
    destruct Hstep as [fs' ->].
    destruct (py_in_strs (VStr log_mode) ["w"; "a"]) eqn:Hm; cbn [negb fst is_ok].
    + pose proof (proj1 Hmode eq_refl) as Hwa. split; [done|]. split; [eauto|tauto].
    + assert (Hnot : ~ (log_mode = "w" \/ log_mode = "a")).
      { intros Hwa. by apply Hmode in Hwa. }
      split; [split; [done|tauto]|]. split; [tauto|eauto].
Qed.

(** C9, as amended.  The verbosity is checked before the file system is
    touched: with an invalid verbosity the construction raises and the file
    system is as before.  The log file is created before the log mode is
    checked: with a valid verbosity, a log file that is not there and an
    invalid log mode, the construction raises.  No entry is removed, and
    either the exception is the [ValueError] and the log file and all its
    ancestors are there afterwards, or the log file could not be created:
    then the exception is the [OSError] of the creation and the log file
    is not there.  Where nothing stands in the way of creating the log
    file, it is the first of the two. *)
Theorem BaseConfig_not_atomic (verbose log_mode : pyval) (log_file : option path)
    (p : path) (fs : filesystem) :
  (py_in_ints verbose [0; 1; 2; 3] = false ->
   exists msg,
     new verbose (log_file_value log_file) log_mode fs = (Raise (ValueError msg), fs))
  /\ (py_in_ints verbose [0; 1; 2; 3] = true ->
      py_in_strs log_mode ["w"; "a"] = false ->
      FS.path_exists fs p = false ->
      exists e fs',
        new verbose (VPath p) log_mode fs = (Raise e, fs')
        /\ fs ⊆ fs'
        /\ ((exists msg, e = ValueError msg)
              /\ FS.path_exists fs' p = true
              /\ (forall n, FS.path_exists fs' (take n p) = true)
            \/ is_OSError e = true
               /\ FS.path_exists fs' p = false
               /\ FS.unobstructed fs p = false)
        /\ (FS.unobstructed fs p = true -> exists msg, e = ValueError msg)).
Proof.
  split.
  - intros Hv. rewrite new_unfold, post_init_bound, Hv. simpl. eauto.
  - intros Hv Hm Hex. rewrite new_unfold.
    rewrite (post_init_bound verbose (Some p) log_mode), Hv, Hm. cbn [negb].
    destruct (ensure_log_file fs p) as [[[]|e] fs'] eqn:Hens;
      destruct (ensure_log_file_spec fs fs' p _ Hens) as (Hsub & _ & Hpost).
    + eexists _, fs'. split; [reflexivity|]. split; [done|]. split; [|eauto].
      left. split; [eauto|]. split; [done|].
      intros n. by apply path_exists_prefixes.
    + destruct Hpost as [Hos Hno].
      assert (Hobs : FS.unobstructed fs p = false).
      { destruct (FS.unobstructed fs p) eqn:Hclear; [|done].
        destruct (ensure_log_file_unobstructed fs p Hclear) as [fs1 Hok]. congruence. }
      exists e, fs'. split; [reflexivity|]. split; [done|]. split; [by right|].
      congruence.
Qed.

End Validation.

Lemma BaseConfig_validation_witness :
  (exists msg fs',
     BaseConfig.new (VInt 7) VNone (VStr "w") ∅ = (Raise (ValueError msg), fs'))
  /\ (exists msg fs',
        BaseConfig.new (VInt 1) (VPath ["logs"; "run.log"]) (VStr "x") ∅
        = (Raise (ValueError msg), fs'))
  /\ BaseConfig.new (VInt 3) VNone (VStr "a") ∅
     = (Ok (BaseConfig.bound (VInt 3) VNone (VStr "a")), ∅).
Proof.
  split; [|split].
  - apply (proj1 (BaseConfig_validation (VInt 7) (VStr "w") None ∅)). reflexivity.
  - apply (proj1 (proj2 (BaseConfig_validation
                           (VInt 1) (VStr "x") (Some ["logs"; "run.log"]) ∅))).
    + reflexivity.
    + right. vm_compute. reflexivity.
  - apply (proj2 (proj2 (proj2 (BaseConfig_validation (VInt 3) (VStr "a") None ∅))));
      reflexivity.
Defined.

(** A log mode outside "w", "a" without [ValueError]: [a] is a regular
    file, so the directory of the log file [a/b] cannot be made, and the
    construction ends with [FileExistsError] before the log mode is looked
    at. *)
Lemma BaseConfig_log_mode_unchecked :
  py_in_strs (VStr "x") ["w"; "a"] = false
  /\ BaseConfig.new (VInt 0) (VPath ["a"; "b"]) (VStr "x")
       (mkFS {[ ["a"] := RegularFile ]} ∅ ∅)
     = (Raise FileExistsError, mkFS {[ ["a"] := RegularFile ]} ∅ ∅).
Proof. split; vm_compute; reflexivity. Qed.

(** With the log mode "write" or "append" the construction raises. *)
Lemma BaseConfig_log_mode_write_rejected :
  BaseConfig.new (VInt 0) VNone (VStr "write") ∅ =
    (Raise (ValueError "Invalid log mode: write. Must be 'w' or 'a'."), ∅)
  /\ BaseConfig.new (VInt 0) VNone (VStr "append") ∅ =
    (Raise (ValueError "Invalid log mode: append. Must be 'w' or 'a'."), ∅).
Proof. split; vm_compute; reflexivity. Qed.

Lemma BaseConfig_log_mode_w_a_witness :
  is_ok (BaseConfig.new (VInt 0) VNone (VStr "a") ∅).1 = true
  /\ exists fs',
       BaseConfig.new (VInt 0) VNone (VStr "a") ∅ =
       (Ok (BaseConfig.bound (VInt 0) VNone (VStr "a")), fs').
Proof.
  destruct (BaseConfig_log_mode_w_a (VInt 0) None "a" ∅) as [_ Hreach];
    [reflexivity|].
  destruct (Hreach I) as (Hiff & Hok & _).
  split; [apply Hiff|apply Hok]; right; reflexivity.
Defined.

Lemma BaseConfig_not_atomic_witness :
  (exists msg,
     BaseConfig.new (VInt 9) (VPath ["logs"; "run.log"]) (VStr "x") ∅
     = (Raise (ValueError msg), ∅))
  /\ (exists msg fs',
        BaseConfig.new (VInt 0) (VPath ["logs"; "run.log"]) (VStr "x") ∅
        = (Raise (ValueError msg), fs')
        /\ (∅ ⊆ fs')
        /\ FS.path_exists fs' ["logs"; "run.log"] = true
        /\ forall n, FS.path_exists fs' (take n ["logs"; "run.log"]) = true).
Proof.
  split.
  - apply (proj1 (BaseConfig_not_atomic
                    (VInt 9) (VStr "x") (Some ["logs"; "run.log"]) [] ∅)).
    reflexivity.
  - assert (Hmissing : FS.path_exists ∅ ["logs"; "run.log"] = false)
      by (vm_compute; reflexivity).
    assert (Hway : FS.unobstructed ∅ ["logs"; "run.log"] = true)
      by (vm_compute; reflexivity).
    destruct (proj2 (BaseConfig_not_atomic (VInt 0) (VStr "x") None
                       ["logs"; "run.log"] ∅) eq_refl eq_refl Hmissing)
      as (e & fs' & Hnew & Hsub & Hcase & Hclear).
    destruct (Hclear Hway) as [msg ->].
    exists msg, fs'. split; [exact Hnew|]. split; [exact Hsub|].
    destruct Hcase as [(_ & Hthere & Hall)|(Hos & _)]; [|discriminate Hos].
    split; [exact Hthere|exact Hall].
Defined.

(** A log file that cannot be created: the directory is made, but the
    operating system refuses the file (no write permission).  With an
    invalid log mode the construction ends with the [PermissionError] of
    [touch], not with [ValueError]; the directory is there afterwards and
    the log file is not. *)
Lemma BaseConfig_log_file_not_created :
  FS.path_exists (mkFS ∅ ∅ {[ ["logs"; "run.log"] := EACCES ]}) ["logs"; "run.log"] = false
  /\ py_in_strs (VStr "x") ["w"; "a"] = false
  /\ (BaseConfig.new (VInt 0) (VPath ["logs"; "run.log"]) (VStr "x")
        (mkFS ∅ ∅ {[ ["logs"; "run.log"] := EACCES ]})).1 = Raise PermissionError
  /\ FS.path_exists
       (BaseConfig.new (VInt 0) (VPath ["logs"; "run.log"]) (VStr "x")
          (mkFS ∅ ∅ {[ ["logs"; "run.log"] := EACCES ]})).2 ["logs"] = true
  /\ FS.path_exists
       (BaseConfig.new (VInt 0) (VPath ["logs"; "run.log"]) (VStr "x")
          (mkFS ∅ ∅ {[ ["logs"; "run.log"] := EACCES ]})).2 ["logs"; "run.log"] = false.
Proof. repeat split; vm_compute; reflexivity. Qed.

(** ** Colormaps and ensemble colors *)

Section PlotStyleProperties.
Import PlotStyle.
Context {object color : Type}.
Context (cm_dict : gmap string object) (tarn : object).
Context (crop_by_percent : object -> Z -> string -> object).
Context (plt_get_cmap : string -> result (Q -> color)).

Lemma is_infix_middle (pre needle post : string) :
  Str.is_infix needle (pre +:+ needle +:+ post).
Proof. by exists pre, post. Qed.

(** C8.  A name that is a key of the explicit mapping gets the colormap
    mapped there; any other name that is in the registry of cmocean gets
    the registry's object; every other name raises a [ValueError] whose
    message contains the name. *)
Theorem get_colormap_lookup (variable_name : string) :
  (forall c, mapping tarn crop_by_percent !! variable_name = Some c ->
             get_colormap cm_dict tarn crop_by_percent variable_name = Ok c)
  /\ (forall c, mapping tarn crop_by_percent !! variable_name = None ->
                cm_dict !! variable_name = Some c ->
                get_colormap cm_dict tarn crop_by_percent variable_name = Ok c)
  /\ (mapping tarn crop_by_percent !! variable_name = None ->
      cm_dict !! variable_name = None ->
      exists msg,
        get_colormap cm_dict tarn crop_by_percent variable_name = Raise (ValueError msg)
        /\ Str.is_infix variable_name msg).
Proof.
  unfold get_colormap. split; [|split].
  - intros c ->. reflexivity.
  - intros c -> ->. reflexivity.
  - intros -> ->. eexists. split; [reflexivity|]. apply is_infix_middle.
Qed.

Lemma range_length (n : Z) : length (range n) = Z.to_nat n.
Proof. unfold range. by rewrite length_fmap, length_seq. Qed.

Lemma range_lookup (n : Z) (i : nat) :
  (i < Z.to_nat n)%nat -> range n !! i = Some (Z.of_nat i).
Proof.
  intros Hi. unfold range. rewrite list_lookup_fmap, lookup_seq_lt by done.
  reflexivity.
Qed.

Lemma mapM_colors (cmap : Q -> color) (n : Z) (l : list Z) :
  n <> 0 ->
  mapM (fun i => x ← true_div i n; Ok (cmap x)) l
  = Ok ((fun i => cmap (inject_Z i / inject_Z n)%Q) <$> l).
Proof.
  intros Hn. induction l as [|i l IH]; [reflexivity|].
  simpl. rewrite IH. unfold true_div.
  destruct (Z.eqb_spec n 0); [done|]. reflexivity.
Qed.

Lemma get_ensemble_colors_known (cmap : Q -> color) (n : Z) (cmap_name : string) :
  plt_get_cmap cmap_name = Ok cmap ->
  get_ensemble_colors plt_get_cmap n cmap_name = Ok (member_colors cmap n).
Proof.
  intros Hc. unfold get_ensemble_colors, member_colors. rewrite Hc. simpl.
  destruct (Z.eqb_spec n 0) as [->|Hn]; [reflexivity|].
  by apply mapM_colors.
Qed.

(** C10.  For a registered colormap name and [n >= 0],
    [get_ensemble_colors] returns a list of [n] colors, the empty list for
    [n = 0] (no division takes place); [get_member_color i n] is the
    element [i] of that list for [0 <= i < n] and raises [IndexError] for
    [i >= n]. *)
Theorem ensemble_colors (cmap : Q -> color) (n i : Z) (cmap_name : string) :
  plt_get_cmap cmap_name = Ok cmap ->
  0 <= n ->
  exists colors,
    get_ensemble_colors plt_get_cmap n cmap_name = Ok colors
    /\ Z.of_nat (length colors) = n
    /\ (n = 0 -> colors = [])
    /\ (0 <= i < n ->
        exists c, colors !! Z.to_nat i = Some c
                  /\ get_member_color plt_get_cmap i n cmap_name = Ok c)
    /\ (n <= i -> get_member_color plt_get_cmap i n cmap_name = Raise IndexError).
Proof.
  intros Hc Hn. exists (member_colors cmap n).
  assert (Hlen : Z.of_nat (length (member_colors cmap n)) = n).
  { unfold member_colors. rewrite length_fmap, range_length. lia. }
  split; [by apply get_ensemble_colors_known|].
  split; [done|].
  split; [by intros ->|].
  unfold get_member_color. rewrite (get_ensemble_colors_known cmap) by done.
  simpl. unfold index. rewrite Hlen. split.
  - intros Hi.
    exists (cmap (inject_Z (Z.of_nat (Z.to_nat i)) / inject_Z n)%Q).
    assert (Hl : member_colors cmap n !! Z.to_nat i
                 = Some (cmap (inject_Z (Z.of_nat (Z.to_nat i)) / inject_Z n)%Q)).
    { unfold member_colors. rewrite list_lookup_fmap, range_lookup by lia.
      reflexivity. }
    split; [done|].
    destruct (Z.ltb_spec i 0); [lia|].
    destruct (Z.leb_spec 0 i); [|lia].
    destruct (Z.ltb_spec i n); [|lia].
    simpl. rewrite Hl. reflexivity.
  - intros Hi.
    destruct (Z.ltb_spec i 0); [lia|].
    destruct (Z.leb_spec 0 i); [|lia].
    destruct (Z.ltb_spec i n); [lia|]. reflexivity.
Qed.

End PlotStyleProperties.

Lemma get_colormap_lookup_witness :
  PlotStyle.get_colormap {[ "matter" := "matter" ]} "tarn"
    (fun c _ _ => "cropped " +:+ c) "heatmap" = Ok "cropped tarn"
  /\ PlotStyle.get_colormap {[ "matter" := "matter" ]} "tarn"
       (fun c _ _ => "cropped " +:+ c) "matter" = Ok "matter"
  /\ exists msg,
       PlotStyle.get_colormap {[ "matter" := "matter" ]} "tarn"
         (fun c _ _ => "cropped " +:+ c) "rainfall" = Raise (ValueError msg)
       /\ Str.is_infix "rainfall" msg.
Proof.
  pose proof (get_colormap_lookup ({[ "matter" := "matter" ]} : gmap string string)
                "tarn" (fun c _ _ => "cropped " +:+ c)) as Hspec.
  split; [|split].
  - apply (proj1 (Hspec "heatmap")). reflexivity.
  - apply (proj1 (proj2 (Hspec "matter"))); reflexivity.
  - apply (proj2 (proj2 (Hspec "rainfall"))); reflexivity.
Defined.

Lemma ensemble_colors_witness :
  (exists colors,
     PlotStyle.get_ensemble_colors Sample.sample_get_cmap 4 "tab20" = Ok colors
     /\ Z.of_nat (length colors) = 4
     /\ exists c, colors !! 2%nat = Some c
                  /\ PlotStyle.get_member_color Sample.sample_get_cmap 2 4 "tab20" = Ok c)
  /\ PlotStyle.get_member_color Sample.sample_get_cmap 7 4 "tab20" = Raise IndexError
  /\ PlotStyle.get_ensemble_colors Sample.sample_get_cmap 0 "tab20" = Ok [].
Proof.
  split; [|split].
  - destruct (ensemble_colors Sample.sample_get_cmap (fun x => x) 4 2 "tab20")
      as (colors & Hc & Hlen & _ & Hi & _); [reflexivity|lia|].
    exists colors. split; [done|]. split; [done|]. apply Hi. lia.
  - destruct (ensemble_colors Sample.sample_get_cmap (fun x => x) 4 7 "tab20")
      as (colors & _ & _ & _ & _ & Hi); [reflexivity|lia|].
    apply Hi. lia.
  - destruct (ensemble_colors Sample.sample_get_cmap (fun x => x) 0 0 "tab20")
      as (colors & Hc & _ & Hnil & _); [reflexivity|lia|].
    by rewrite Hc, (Hnil eq_refl).
Defined.

(** ** The assignment of line 74 *)

Section DeadAssignment.
Context `{PyRuntime}.
Import Argparse BaseConfig.

Lemma add_field_overwritten (assign_74 : FieldSpec -> option converter)
    (p : parser) (fld : FieldSpec) :
  add_field assign_74 p fld = add_field line_74 p fld.
Proof. reflexivity. Qed.

Lemma build_parser_overwritten (assign_74 : FieldSpec -> option converter)
    (flds : list FieldSpec) :
  build_parser assign_74 flds = build_parser line_74 flds.
Proof.
  unfold build_parser. generalize (Ok [] : result parser).
  induction flds as [|fld flds IH]; intros acc; [reflexivity|].
  simpl. rewrite IH. reflexivity.
Qed.

(** C7.  What line 74 assigns to [arg_type] is overwritten by line 77
    before it is read: [from_cli] with a plain assignment of the declared
    type in its place, with the line removed, or with any other
    assignment, returns what [from_cli] returns, for every dataclass,
    argument list and file system. *)
Theorem line_74_is_dead (assign_74 : FieldSpec -> option converter)
    (cls : dataclass) (argv : list string) (fs : filesystem) :
  from_cli_with plain_assignment cls argv fs = from_cli cls argv fs
  /\ from_cli_with no_assignment cls argv fs = from_cli cls argv fs
  /\ from_cli_with assign_74 cls argv fs = from_cli cls argv fs.
Proof.
  unfold from_cli, from_cli_with.
  rewrite !(build_parser_overwritten plain_assignment),
          !(build_parser_overwritten no_assignment),
          !(build_parser_overwritten assign_74).
  done.
Qed.

End DeadAssignment.

(** ** argparse: the parser depends on the runtime only through the
    conversions it performs *)

Section ParserInduction.

(** [consume] descends to the tail of the list, or past the argument of a
    [store] option to the tail of the tail. *)
Lemma list_ind_two {X : Type} (P : list X -> Prop) :
  P [] ->
  (forall x l, P l -> (forall y l', l = y :: l' -> P l') -> P (x :: l)) ->
  forall l, P l.
Proof.
  intros Hnil Hcons l.
  enough (Hboth : P l /\ forall y l', l = y :: l' -> P l') by apply Hboth.
  induction l as [|x l [IH1 IH2]].
  - split; [done|]. intros y l' Heq. discriminate.
  - split.
    + by apply Hcons.
    + intros y l' Heq. by injection Heq as -> ->.
Qed.

End ParserInduction.

Section RuntimeExt.
Import Argparse.
Context (R1 R2 : PyRuntime).
Hypothesis convert_ext : forall ty s, @convert R1 ty s = @convert R2 ty s.

Lemma get_value_ext a s : @get_value R1 a s = @get_value R2 a s.
Proof.
  unfold get_value, call_converter.
  destruct (kind a) as [[ty|]| |]; by rewrite ?convert_ext.
Qed.

Lemma get_values_ext a s : @get_values R1 a s = @get_values R2 a s.
Proof. unfold get_values. by rewrite get_value_ext. Qed.

Lemma consume_ext p args st : @consume R1 p args st = @consume R2 p args st.
Proof.
  revert st. induction args as [|[s c] rest IH1 IH2] using list_ind_two; intros st.
  - reflexivity.
  - destruct c as [|[[|a]|] os e|]; simpl; try done.
    destruct (kind a), e; try done.
    + rewrite get_values_ext. destruct (get_values a s0); simpl; [apply IH1|done].
    + destruct rest as [|[s' [| |]] rest']; try done.
      rewrite get_values_ext.
      destruct (get_values a s'); simpl; [by eapply IH2|done].
Qed.

Lemma check_required_ext actions seen ns :
  @check_required R1 actions seen ns = @check_required R2 actions seen ns.
Proof.
  revert ns. induction actions as [|a rest IH]; intros ns; [reflexivity|].
  simpl.
  destruct (bool_decide _); [done|].
  destruct (required a); [by rewrite IH|].
  destruct (default a); try done.
  destruct (ns !! dest a) as [[]|]; try done.
  destruct (String.eqb _ _); [|done].
  rewrite get_value_ext.
  destruct (get_value a s); simpl; [apply IH|done].
Qed.

Lemma parse_args_ext p argv : @parse_args R1 p argv = @parse_args R2 p argv.
Proof.
  unfold parse_args. destruct (classify p argv) as [args|]; simpl; [|done].
  rewrite consume_ext. destruct (consume p args _) as [st|]; simpl; [|done].
  by rewrite check_required_ext.
Qed.

End RuntimeExt.

(** ** A required and an optional field *)

Section RequiredAndOptional.
Context `{PyRuntime}.
Import Argparse BaseConfig.

Lemma with_int_ext (s0 : string) (z : Z) :
  convert TInt s0 = Some (VInt z) ->
  forall ty s, @convert H ty s = @convert (with_int s0 z) ty s.
Proof.
  intros Hint ty s. destruct ty; simpl; try done.
  - destruct (String.eqb_spec s s0) as [->|]; done.
  - apply convert_str.
Qed.

(** C4.  For the record with the required field [x] and the field [y]
    with default 5, [from_cli] without arguments ends with the usage error
    that [--x] is required, before an instance is constructed (the file
    system is untouched); with the arguments [--x 3] it returns the
    instance with [x = 3] and [y = 5]. *)
Theorem from_cli_required_and_optional (fs : filesystem) :
  convert TInt "3" = Some (VInt 3) ->
  from_cli xy_record [] fs = (Raise (SystemExit_usage (RequiredMissing ["--x"])), fs)
  /\ from_cli xy_record ["--x"; "3"] fs
     = (Ok (<["x" := VInt 3]> (<["y" := VInt 5]> ∅)), fs)
  /\ from_cli xy_config [] fs = (Raise (SystemExit_usage (RequiredMissing ["--x"])), fs)
  /\ from_cli xy_config ["--x"; "3"] fs
     = (Ok (<["verbose" := VInt 0]> (<["log_file" := VNone]> (<["log_mode" := VStr "w"]>
             (<["x" := VInt 3]> (<["y" := VInt 5]> ∅))))), fs).
Proof.
  intros Hint.
  pose proof (with_int_ext "3" 3 Hint) as Hext.
  split; [|split; [|split]]; unfold from_cli, from_cli_with;
    match goal with |- context [build_parser ?f ?l] =>
      let p := eval vm_compute in (build_parser f l) in
      change (build_parser f l) with p end;
    cbv iota beta;
    rewrite (parse_args_ext H (with_int "3" 3) Hext).
  - vm_compute. reflexivity.
  - vm_compute. reflexivity.
  - vm_compute. reflexivity.
  - vm_compute. reflexivity.
Qed.

End RequiredAndOptional.

Lemma from_cli_required_and_optional_witness :
  BaseConfig.from_cli BaseConfig.xy_record [] ∅
  = (Raise (SystemExit_usage (RequiredMissing ["--x"])), ∅)
  /\ BaseConfig.from_cli BaseConfig.xy_record ["--x"; "3"] ∅
     = (Ok (<["x" := VInt 3]> (<["y" := VInt 5]> ∅)), ∅)
  /\ BaseConfig.from_cli BaseConfig.xy_config [] ∅
     = (Raise (SystemExit_usage (RequiredMissing ["--x"])), ∅)
  /\ BaseConfig.from_cli BaseConfig.xy_config ["--x"; "3"] ∅
     = (Ok (<["verbose" := VInt 0]> (<["log_file" := VNone]> (<["log_mode" := VStr "w"]>
             (<["x" := VInt 3]> (<["y" := VInt 5]> ∅))))), ∅).
Proof. apply (from_cli_required_and_optional ∅). reflexivity. Defined.

(** ** describe *)

Section StringLines.

Lemma append_assoc (a b c : string) : (a +:+ b) +:+ c = a +:+ b +:+ c.
Proof.
  induction a as [|x a IH]; [reflexivity|].
  change (String x ((a +:+ b) +:+ c) = String x (a +:+ b +:+ c)). by f_equal.
Qed.

Lemma contains_app c (a b : string) :
  Str.contains c (a +:+ b) = Str.contains c a || Str.contains c b.
Proof.
  induction a as [|c' a IH]; simpl; [reflexivity|].
  rewrite IH. by rewrite orb_assoc.
Qed.

Lemma single_line_app (a b : string) :
  Str.single_line (a +:+ b) <-> Str.single_line a /\ Str.single_line b.
Proof. unfold Str.single_line. rewrite contains_app. apply orb_false_iff. Qed.

Lemma single_line_spaces (n : nat) :
  Str.single_line (String.concat "" (replicate n " ")).
Proof.
  induction n as [|n IH]; [reflexivity|].
  destruct n; [reflexivity|]. exact IH.
Qed.

Lemma single_line_ljust (s : string) (n : nat) :
  Str.single_line s -> Str.single_line (Str.ljust s n).
Proof.
  intros Hs. unfold Str.ljust. apply single_line_app. split; [done|].
  apply single_line_spaces.
Qed.

Lemma split_single_line (a : string) :
  Str.single_line a -> Str.split Str.newline a = [a].
Proof.
  unfold Str.single_line. induction a as [|c a IH]; simpl; [done|].
  destruct (Ascii.eqb c Str.newline); simpl; [done|].
  intros Ha. by rewrite IH.
Qed.

Lemma split_line_feed (a b : string) :
  Str.single_line a ->
  Str.split Str.newline (a +:+ String Str.newline b) = a :: Str.split Str.newline b.
Proof.
  unfold Str.single_line. induction a as [|c a IH]; simpl.
  - intros _. reflexivity.
  - destruct (Ascii.eqb c Str.newline); simpl; [done|].
    intros Ha. by rewrite IH.
Qed.

Lemma split_concat_lines (lines : list string) :
  lines <> [] ->
  Forall Str.single_line lines ->
  Str.split Str.newline (String.concat (String Str.newline EmptyString) lines) = lines.
Proof.
  induction lines as [|l lines IH]; [done|].
  intros _ Hall. apply Forall_cons in Hall as [Hl Hall].
  destruct lines as [|l' lines].
  - simpl. by apply split_single_line.
  - change (String.concat _ (l :: l' :: lines))
      with (l +:+ String Str.newline
              (String.concat (String Str.newline EmptyString) (l' :: lines))).
    rewrite split_line_feed by done. f_equal. by apply IH.
Qed.

End StringLines.

Section Describe.
Context `{PyRuntime}.
Import BaseConfig.

Lemma bind_fields_lookup (flds : list FieldSpec) (kwargs : gmap string pyval)
    (self : instance) :
  bind_fields flds kwargs = Ok self ->
  forall fld, fld ∈ flds -> is_Some (self !! fld_name fld).
Proof.
  revert self. induction flds as [|fld0 flds IH]; intros self Hb fld Hin.
  { by apply elem_of_nil in Hin. }
  simpl in Hb.
  destruct (match kwargs !! fld_name fld0 with Some v => _ | None => _ end)
    as [v|]; [|done].
  simpl in Hb. destruct (bind_fields flds kwargs) as [self'|]; [|done].
  simpl in Hb. injection Hb as <-.
  destruct (decide (fld_name fld0 = fld_name fld)) as [Heq|Hne].
  - rewrite Heq, lookup_insert_eq. eauto.
  - rewrite lookup_insert_ne by done.
    apply elem_of_cons in Hin as [->|Hin]; [done|]. by eapply IH.
Qed.

Lemma construct_bound (cls : dataclass) kwargs fs (self : instance) fs' :
  construct cls kwargs fs = (Ok self, fs') ->
  bind_fields (cls_fields cls) kwargs = Ok self.
Proof.
  unfold construct. destruct (bool_decide _); [|done].
  destruct (bind_fields _ _) as [self0|]; [|done].
  destruct (cls_post_init cls self0 fs) as [[|] fs0]; [|done].
  by intros [= -> _].
Qed.

Lemma field_lines_ok (self : instance) (flds : list FieldSpec) :
  (forall fld, fld ∈ flds -> is_Some (self !! fld_name fld)) ->
  exists field_lines,
    mapM (fun fld => value ← getattr self (fld_name fld);
                     Ok (describe_line fld value)) flds = Ok field_lines
    /\ Forall2 (fun fld line =>
                  exists v, self !! fld_name fld = Some v /\ line = describe_line fld v)
               flds field_lines.
Proof.
  induction flds as [|fld flds IH]; intros Hall.
  { exists []. split; [reflexivity|constructor]. }
  destruct IH as (field_lines & Hm & Hf).
  { intros fld' Hin. apply Hall. by right. }
  destruct (Hall fld) as [v Hv]; [by left|].
  exists (describe_line fld v :: field_lines). split.
  - change (mapM ?f (fld :: flds)) with (y ← f fld; k ← mapM f flds; mret (y :: k)).
    rewrite Hm. unfold getattr. rewrite Hv. reflexivity.
  - constructor; [eauto|done].
Qed.

Lemma describe_line_contains_value (fld : FieldSpec) (v : pyval) :
  Str.is_infix (py_repr v) (describe_line fld v).
Proof.
  unfold describe_line.
  exists ("  " +:+ Str.ljust (fld_name fld) 25 +:+ ": "
               +:+ Str.ljust (type_str (fld_type fld)) 25 +:+ " = "),
         ("  " +:+ fld_help fld).
  by rewrite !append_assoc.
Qed.

(** C6, as amended.  For an instance that [cls] constructed, whose class
    name, field names, type names, help texts and value representations
    contain no line break, [describe(return_string=True)] returns a text
    of as many lines as there are fields plus one; line [i + 1] is the
    line of field [i] of the declaration and contains [repr] of the value
    of that field. *)
Theorem describe_line_count (cls : dataclass) (kwargs : gmap string pyval)
    (fs fs' : filesystem) (self : instance) :
  construct cls kwargs fs = (Ok self, fs') ->
  Str.single_line (cls_name cls) ->
  Forall (fun fld => Str.single_line (fld_name fld)
                     /\ Str.single_line (type_str (fld_type fld))
                     /\ Str.single_line (fld_help fld)) (cls_fields cls) ->
  (forall fld v, fld ∈ cls_fields cls -> self !! fld_name fld = Some v ->
                 Str.single_line (py_repr v)) ->
  exists text,
    describe cls self true = Ok (Some text, [])
    /\ Str.line_count text = (length (cls_fields cls) + 1)%nat
    /\ Str.split Str.newline text !! 0%nat = Some (describe_header cls)
    /\ forall i fld, cls_fields cls !! i = Some fld ->
         exists v, self !! fld_name fld = Some v
                   /\ Str.split Str.newline text !! S i = Some (describe_line fld v)
                   /\ Str.is_infix (py_repr v) (describe_line fld v).
Proof.
  intros Hc Hname Hflds Hrepr.
  apply construct_bound in Hc.
  destruct (field_lines_ok self (cls_fields cls)) as (field_lines & Hm & Hf).
  { by eapply bind_fields_lookup. }
  exists (String.concat LF (describe_header cls :: field_lines)).
  assert (Hsplit : Str.split Str.newline
                     (String.concat LF (describe_header cls :: field_lines))
                   = describe_header cls :: field_lines).
  { apply split_concat_lines; [done|]. constructor.
    - unfold describe_header.
      apply single_line_app. split; [reflexivity|].
      apply single_line_app. split; [done|reflexivity].
    - apply Forall_forall. intros line Hline.
      apply list_elem_of_lookup in Hline as [i Hi].
      destruct (Forall2_lookup_r _ _ _ _ _ Hf Hi) as (fld & Hfld & v & Hv & ->).
      assert (Hin : fld ∈ cls_fields cls) by (by eapply list_elem_of_lookup_2).
      pose proof (proj1 (Forall_forall _ _) Hflds fld Hin) as (Hn & Ht & Hh).
      unfold describe_line.
      apply single_line_app. split; [reflexivity|].
      apply single_line_app. split; [by apply single_line_ljust|].
      apply single_line_app. split; [reflexivity|].
      apply single_line_app. split; [by apply single_line_ljust|].
      apply single_line_app. split; [reflexivity|].
      apply single_line_app. split; [by eapply Hrepr|].
      apply single_line_app. split; [reflexivity|done]. }
  split.
  { unfold describe, describe_lines. rewrite Hm. reflexivity. }
  unfold Str.line_count. rewrite Hsplit. split.
  { simpl. rewrite <- (Forall2_length _ _ _ Hf). lia. }
  split; [reflexivity|].
  intros i fld Hfld.
  destruct (Forall2_lookup_l _ _ _ _ _ Hf Hfld) as (line & Hline & v & Hv & ->).
  exists v. split; [done|]. split; [done|]. apply describe_line_contains_value.
Qed.

End Describe.

(** The help text of [note] spans two lines: the instance has four fields
    and its description six lines. *)
Lemma describe_line_count_two_line_help :
  exists self text,
    BaseConfig.from_cli BaseConfig.noted_config [] ∅ = (Ok self, ∅)
    /\ BaseConfig.describe BaseConfig.noted_config self true = Ok (Some text, [])
    /\ length (cls_fields BaseConfig.noted_config) = 4%nat
    /\ Str.line_count text = 6%nat.
Proof.
  eexists _, _. split; [vm_compute; reflexivity|].
  split; [vm_compute; reflexivity|]. split; reflexivity.
Qed.

Lemma describe_line_count_witness :
  exists text,
    BaseConfig.describe BaseConfig.BaseConfig
      (BaseConfig.bound (VInt 2) VNone (VStr "a")) true = Ok (Some text, [])
    /\ Str.line_count text = (length (cls_fields BaseConfig.BaseConfig) + 1)%nat
    /\ Str.split Str.newline text !! 0%nat
       = Some (BaseConfig.describe_header BaseConfig.BaseConfig)
    /\ forall i fld, cls_fields BaseConfig.BaseConfig !! i = Some fld ->
         exists v, BaseConfig.bound (VInt 2) VNone (VStr "a") !! fld_name fld = Some v
                   /\ Str.split Str.newline text !! S i
                      = Some (BaseConfig.describe_line fld v)
                   /\ Str.is_infix (py_repr v) (BaseConfig.describe_line fld v).
Proof.
  apply (describe_line_count BaseConfig.BaseConfig
           (BaseConfig.bound (VInt 2) VNone (VStr "a")) ∅ ∅).
  - vm_compute. reflexivity.
  - reflexivity.
  - repeat constructor.
  - intros fld v Hfld Hv.
    repeat (apply elem_of_cons in Hfld as [->|Hfld]);
      [| | |by apply elem_of_nil in Hfld];
      vm_compute in Hv; injection Hv as <-; reflexivity.
Defined.

(** ** argparse: what a successful parse did *)

Section ParseProperties.
Context `{PyRuntime}.
Import Argparse.

Lemma fmap_inj_on {X Y : Type} (f : X -> Y) (l : list X) (x y : X) :
  NoDup (f <$> l) -> x ∈ l -> y ∈ l -> f x = f y -> x = y.
Proof.
  induction l as [|z l IH]; intros Hnd Hx Hy Hf.
  { by apply elem_of_nil in Hx. }
  rewrite fmap_cons in Hnd. apply NoDup_cons in Hnd as [Hz Hnd].
  apply elem_of_cons in Hx as [->|Hx]; apply elem_of_cons in Hy as [->|Hy].
  - done.
  - exfalso. apply Hz. rewrite Hf. by apply list_elem_of_fmap_2.
  - exfalso. apply Hz. rewrite <- Hf. by apply list_elem_of_fmap_2.
  - by apply IH.
Qed.

(** *** Classification *)

Lemma option_string_actions_elem (p : parser) (os : string) (a : action) :
  (os, TAction a) ∈ option_string_actions p -> a ∈ p /\ os = option_string a.
Proof.
  unfold option_string_actions. intros Hin.
  apply elem_of_cons in Hin as [Heq|Hin]; [done|].
  apply elem_of_cons in Hin as [Heq|Hin]; [done|].
  apply list_elem_of_fmap in Hin as (a' & [= -> ->] & Hin). done.
Qed.

Lemma lookup_option_elem (p : parser) (s : string) (a : action) :
  lookup_option p s = Some (TAction a) -> a ∈ p /\ s = option_string a.
Proof.
  unfold lookup_option. intros Hl.
  destruct (find _ _) as [[os t]|] eqn:Hf; [|done].
  simpl in Hl. injection Hl as ->.
  apply find_some in Hf as [Hin Heq].
  apply String.eqb_eq in Heq as ->.
  apply list_elem_of_In in Hin. by apply option_string_actions_elem in Hin.
Qed.

Lemma get_option_tuples_elem (p : parser) (s : string) (c : ascii)
    (a : action) (os : string) (e : option string) :
  (TAction a, os, e) ∈ get_option_tuples p s c -> a ∈ p.
Proof.
  unfold get_option_tuples.
  destruct (Ascii.eqb c Str.minus).
  - destruct (match Str.split1 "=" s with Some _ => _ | None => _ end) as [pre ex].
    intros Hin. apply list_elem_of_omap in Hin as ([os' t] & Hin & Hsome).
    destruct (Str.startswith os' pre); [|done].
    injection Hsome as -> -> ->. by apply option_string_actions_elem in Hin as [? _].
  - intros Hin. apply list_elem_of_omap in Hin as ([os' t] & Hin & Hsome).
    destruct (String.eqb os' _).
    + injection Hsome as -> -> _. by apply option_string_actions_elem in Hin as [? _].
    + destruct (Str.startswith os' s); [|done].
      injection Hsome as -> -> _. by apply option_string_actions_elem in Hin as [? _].
Qed.

(** An action that a string selects is an action of the parser. *)
Lemma parse_optional_elem (p : parser) (s : string) (a : action)
    (os : string) (e : option string) :
  parse_optional p s = Ok (O (Some (TAction a)) os e) -> a ∈ p.
Proof.
  unfold parse_optional. destruct s as [|c0 rest]; [done|].
  destruct (negb _); [done|].
  destruct (lookup_option p (String c0 rest)) as [t|] eqn:Hl.
  { intros [= -> _ _]. by apply lookup_option_elem in Hl as [? _]. }
  destruct rest as [|c1 rest]; [done|].
  destruct (match Str.split1 "=" _ with Some _ => _ | None => _ end) as [c|] eqn:Hex.
  { intros [= ->].
    destruct (Str.split1 "=" _) as [[os' e']|]; [|done].
    destruct (lookup_option p os') as [t|] eqn:Hl'; [|done].
    simpl in Hex. injection Hex as -> _ _.
    by apply lookup_option_elem in Hl' as [? _]. }
  destruct (get_option_tuples _ _ _) as [|[[t os'] e'] [|? ?]] eqn:Ht.
  - destruct (negative_number _); [done|]. by destruct (Str.contains _ _).
  - intros [= -> _ _]. eapply get_option_tuples_elem. rewrite Ht. by left.
  - done.
Qed.

Lemma classify_options (p : parser) (argv : list string)
    (args : list (string * arg_class)) :
  classify p argv = Ok args ->
  Forall (fun x => x.2 <> Dash) args ->
  Forall2 (fun s x => x.1 = s /\ parse_optional p s = Ok x.2) argv args.
Proof.
  revert args. induction argv as [|s argv IH]; intros args Hc Hnd.
  { injection Hc as <-. constructor. }
  simpl in Hc. destruct (String.eqb s "--").
  { injection Hc as <-. apply Forall_cons in Hnd as [Hd _]. done. }
  destruct (parse_optional p s) as [c|] eqn:Hs; [|done]. simpl in Hc.
  destruct (classify p argv) as [cs|]; [|done]. simpl in Hc.
  injection Hc as <-. apply Forall_cons in Hnd as [_ Hnd].
  constructor; [done|]. by apply IH.
Qed.

(** *** The main loop *)

(** A parse that leaves nothing over has seen no [--]. *)
Lemma consume_no_extras (p : parser) (args : list (string * arg_class))
    (st st' : parse_state) :
  consume p args st = Ok st' ->
  extras st' = [] ->
  extras st = [] /\ Forall (fun x => x.2 <> Dash) args.
Proof.
  revert st. induction args as [|[s c] rest IH1 IH2] using list_ind_two;
    intros st Hc Hex.
  { injection Hc as <-. split; [done|constructor]. }
  assert (Hleft : forall s0, consume p rest (add_extra st s0) = Ok st' -> False).
  { intros s0 Hc'. apply IH1 in Hc' as [Hex' _]; [|done].
    simpl in Hex'. by destruct (extras st). }
  destruct c as [|[[|a]|] os e|]; simpl in Hc; try done;
    try (exfalso; by apply (Hleft s)).
  destruct (kind a), e; try done.
  - destruct (get_values a s0); [|done]. simpl in Hc.
    apply IH1 in Hc as [? ?]; [|done]. split; [done|]. by constructor.
  - destruct rest as [|[s' [| |]] rest']; try done.
    destruct (get_values a s'); [|done]. simpl in Hc.
    apply (IH2 _ _ eq_refl) in Hc as [? ?]; [|done]. split; [done|].
    constructor; [done|]. by constructor.
  - apply IH1 in Hc as [? ?]; [|done]. split; [done|]. by constructor.
  - apply IH1 in Hc as [? ?]; [|done]. split; [done|]. by constructor.
Qed.

(** The actions seen and the namespace after the loop: the actions seen
    are those selected; a destination that no selected action has is as
    before; any other holds a value that a selected action with that
    destination stores. *)
Lemma consume_spec (p : parser) (args : list (string * arg_class))
    (st st' : parse_state) :
  consume p args st = Ok st' ->
  (forall o, o ∈ seen_actions st' <->
             o ∈ seen_actions st \/ o ∈ option_string <$> selected args)
  /\ (forall d, d ∉ dest <$> selected args ->
                namespace st' !! d = namespace st !! d)
  /\ (forall d, d ∈ dest <$> selected args ->
                exists a v, a ∈ selected args /\ dest a = d
                            /\ namespace st' !! d = Some v /\ stores a v).
Proof.
  revert st. induction args as [|[s c] rest IH1 IH2] using list_ind_two;
    intros st Hc.
  { injection Hc as <-. split; [|split].
    - intros o. simpl. rewrite elem_of_nil. tauto.
    - done.
    - intros d Hd. by apply elem_of_nil in Hd. }
  assert (Hstep : forall v a rest',
    selected ((s, c) :: rest) = a :: selected rest' ->
    stores a v ->
    consume p rest' (take_action st a v) = Ok st' ->
    (forall st0, consume p rest' st0 = Ok st' ->
       (forall o, o ∈ seen_actions st' <->
                  o ∈ seen_actions st0 \/ o ∈ option_string <$> selected rest')
       /\ (forall d, d ∉ dest <$> selected rest' ->
                     namespace st' !! d = namespace st0 !! d)
       /\ (forall d, d ∈ dest <$> selected rest' ->
                     exists a v, a ∈ selected rest' /\ dest a = d
                                 /\ namespace st' !! d = Some v /\ stores a v)) ->
    (forall o, o ∈ seen_actions st' <->
               o ∈ seen_actions st \/ o ∈ option_string <$> selected ((s, c) :: rest))
    /\ (forall d, d ∉ dest <$> selected ((s, c) :: rest) ->
                  namespace st' !! d = namespace st !! d)
    /\ (forall d, d ∈ dest <$> selected ((s, c) :: rest) ->
                  exists a v, a ∈ selected ((s, c) :: rest) /\ dest a = d
                              /\ namespace st' !! d = Some v /\ stores a v)).
  { intros v a rest' -> Hst Hc' IH. destruct (IH _ Hc') as (Hseen & Hsame & Hset).
    split; [|split].
    - intros o. rewrite Hseen, fmap_cons. unfold take_action.
      cbn [seen_actions]. rewrite !elem_of_cons. tauto.
    - intros d Hd. rewrite fmap_cons, not_elem_of_cons in Hd. destruct Hd as [Hne Hd].
      rewrite Hsame by done. unfold take_action. cbn [namespace].
      by rewrite lookup_insert_ne.
    - intros d Hd.
      destruct (decide (d ∈ dest <$> selected rest')) as [Hin|Hnin].
      + destruct (Hset d Hin) as (a' & v' & Ha' & Hd' & Hns & Hst').
        exists a', v'. split; [by right|done].
      + rewrite fmap_cons, elem_of_cons in Hd. destruct Hd as [->|Hd]; [|done].
        exists a, v. split; [by left|]. split; [done|].
        rewrite Hsame by done. unfold take_action. cbn [namespace].
        by rewrite lookup_insert_eq. }
  destruct c as [|[[|a]|] os e|]; simpl in Hc; try done;
    try (apply IH1 in Hc; exact Hc).
  assert (Hrest : forall st0, consume p rest st0 = Ok st' ->
    (forall o, o ∈ seen_actions st' <->
               o ∈ seen_actions st0 \/ o ∈ option_string <$> selected rest)
    /\ (forall d, d ∉ dest <$> selected rest ->
                  namespace st' !! d = namespace st0 !! d)
    /\ (forall d, d ∈ dest <$> selected rest ->
                  exists a v, a ∈ selected rest /\ dest a = d
                              /\ namespace st' !! d = Some v /\ stores a v)).
  { intros st0 Hc0. by apply IH1. }
  destruct (kind a) eqn:Hk, e; try done.
  - destruct (get_values a s0) as [v|]; [|done]. simpl in Hc.
    apply (Hstep v a rest); [reflexivity| |done|done].
    unfold stores. by rewrite Hk.
  - destruct rest as [|[s' [| |]] rest']; try done.
    destruct (get_values a s') as [v|]; [|done]. simpl in Hc.
    apply (Hstep v a rest'); [reflexivity| |done|].
    + unfold stores. by rewrite Hk.
    + intros st0 Hc0. by apply (IH2 _ _ eq_refl).
  - apply (Hstep (VBool true) a rest); [reflexivity| |done|done].
    unfold stores. by rewrite Hk.
  - apply (Hstep (VBool false) a rest); [reflexivity| |done|done].
    unfold stores. by rewrite Hk.
Qed.

(** *** Defaults and required actions *)

Lemma initial_namespace_fold (p : parser) (ns0 : gmap string pyval) :
  let ns := foldl (fun ns a =>
                     match ns !! dest a with
                     | Some _ => ns
                     | None => <[dest a := default a]> ns
                     end) ns0 p in
  (forall d v, ns0 !! d = Some v -> ns !! d = Some v)
  /\ (NoDup (dest <$> p) -> forall a, a ∈ p -> ns0 !! dest a = None ->
      ns !! dest a = Some (default a)).
Proof.
  revert ns0. induction p as [|a0 p IH]; intros ns0; simpl.
  { split; [done|]. intros _ a Ha. by apply elem_of_nil in Ha. }
  set (ns1 := match ns0 !! dest a0 with
              | Some _ => ns0
              | None => <[dest a0 := default a0]> ns0
              end).
  destruct (IH ns1) as [Hkeep Hnew].
  assert (Hkeep1 : forall d v, ns0 !! d = Some v -> ns1 !! d = Some v).
  { intros d v Hd. unfold ns1. destruct (ns0 !! dest a0) eqn:H0; [done|].
    rewrite lookup_insert_ne; [done|]. intros Heq. rewrite Heq in H0. congruence. }
  split; [by eauto|].
  intros Hnd a Ha Hnone. apply NoDup_cons in Hnd as [Hfresh Hnd].
  apply elem_of_cons in Ha as [->|Ha].
  - apply Hkeep. unfold ns1. rewrite Hnone. by rewrite lookup_insert_eq.
  - apply Hnew; [done..|].
    unfold ns1. destruct (ns0 !! dest a0) eqn:H0; [done|].
    rewrite lookup_insert_ne; [done|]. intros Heq. apply Hfresh.
    rewrite Heq. by apply list_elem_of_fmap_2.
Qed.

Lemma initial_namespace_lookup (p : parser) (a : action) :
  NoDup (dest <$> p) -> a ∈ p ->
  initial_namespace p !! dest a = Some (default a).
Proof.
  intros Hnd Ha. unfold initial_namespace.
  by apply (proj2 (initial_namespace_fold p ∅)).
Qed.

Lemma check_required_spec (actions : list action) (seen : list string)
    (ns ns' : gmap string pyval) (names : list string) :
  NoDup (dest <$> actions) ->
  check_required actions seen ns = Ok (ns', names) ->
  (names = [] -> forall a, a ∈ actions -> required a = true -> option_string a ∈ seen)
  /\ (forall d, d ∉ dest <$> actions -> ns' !! d = ns !! d)
  /\ (forall a, a ∈ actions ->
        (option_string a ∈ seen -> ns' !! dest a = ns !! dest a)
        /\ (option_string a ∉ seen -> required a = false ->
            ns !! dest a = Some (default a) ->
            exists v, ns' !! dest a = Some v /\ defaulted a v)).
Proof.
  revert ns ns' names. induction actions as [|a0 actions IH];
    intros ns ns' names Hnd Hc.
  { injection Hc as <- <-. split; [|split]; [|done|];
      intros; by match goal with Hin : _ ∈ [] |- _ => apply elem_of_nil in Hin end. }
  rewrite fmap_cons in Hnd. apply NoDup_cons in Hnd as [Hfresh Hnd].
  assert (Hother : forall a, a ∈ actions -> dest a <> dest a0).
  { intros a Ha Heq. apply Hfresh. rewrite <- Heq. by apply list_elem_of_fmap_2. }
  (* what the tail does once the head left the namespace [ns1] *)
  assert (Htail : forall ns1 names1,
    check_required actions seen ns1 = Ok (ns', names1) ->
    (forall a, a ∈ actions -> ns1 !! dest a = ns !! dest a) ->
    (forall d, d ∉ dest <$> a0 :: actions -> ns1 !! d = ns !! d) ->
    (names1 = [] -> forall a, a ∈ actions -> required a = true -> option_string a ∈ seen)
    /\ (forall d, d ∉ dest <$> a0 :: actions -> ns' !! d = ns !! d)
    /\ ns' !! dest a0 = ns1 !! dest a0
    /\ (forall a, a ∈ actions ->
          (option_string a ∈ seen -> ns' !! dest a = ns !! dest a)
          /\ (option_string a ∉ seen -> required a = false ->
              ns !! dest a = Some (default a) ->
              exists v, ns' !! dest a = Some v /\ defaulted a v))).
  { intros ns1 names1 Hc1 Hsame Hout.
    destruct (IH _ _ _ Hnd Hc1) as (Hreq & Hd & Ha).
    split; [done|]. split.
    { intros d Hd'. rewrite fmap_cons, not_elem_of_cons in Hd'.
      rewrite Hd by tauto. apply Hout. rewrite fmap_cons, not_elem_of_cons. done. }
    split; [by apply Hd|].
    intros a Hin. destruct (Ha a Hin) as [Hs Hu]. rewrite <- (Hsame a Hin). done. }
  simpl in Hc.
  destruct (bool_decide (option_string a0 ∈ seen)) eqn:Hseen.
  { apply bool_decide_eq_true_1 in Hseen.
    destruct (Htail ns names Hc) as (Hreq & Hd & H0 & Ha); [done..|].
    split; [|split; [done|]].
    - intros Hn a Hin Hr. apply elem_of_cons in Hin as [->|Hin]; [done|by apply Hreq].
    - intros a Hin. apply elem_of_cons in Hin as [->|Hin]; [|by apply Ha].
      split; [done|]. intros Hns. done. }
  apply bool_decide_eq_false_1 in Hseen.
  destruct (required a0) eqn:Hr0.
  { destruct (check_required actions seen ns) as [[ns1 names1]|] eqn:Hc1; [|done].
    simpl in Hc. injection Hc as <- <-.
    destruct (Htail ns names1 Hc1) as (Hreq & Hd & H0 & Ha); [done..|].
    split; [done|]. split; [done|].
    intros a Hin. apply elem_of_cons in Hin as [->|Hin]; [|by apply Ha].
    split; [done|]. intros _ Hr. congruence. }
  assert (Hplain : check_required actions seen ns = Ok (ns', names) ->
    (forall d0, default a0 <> VStr d0) \/ ns !! dest a0 <> Some (default a0) ->
    (names = [] -> forall a, a ∈ a0 :: actions -> required a = true ->
                   option_string a ∈ seen)
    /\ (forall d, d ∉ dest <$> a0 :: actions -> ns' !! d = ns !! d)
    /\ (forall a, a ∈ a0 :: actions ->
          (option_string a ∈ seen -> ns' !! dest a = ns !! dest a)
          /\ (option_string a ∉ seen -> required a = false ->
              ns !! dest a = Some (default a) ->
              exists v, ns' !! dest a = Some v /\ defaulted a v))).
  { intros Hc1 Hcase.
    destruct (Htail ns names Hc1) as (Hreq & Hd & H0 & Ha); [done..|].
    split; [|split; [done|]].
    - intros Hn a Hin Hr. apply elem_of_cons in Hin as [->|Hin];
        [congruence|by apply Hreq].
    - intros a Hin. apply elem_of_cons in Hin as [->|Hin]; [|by apply Ha].
      split; [done|]. intros _ _ Hns. destruct Hcase as [Hcase|Hcase]; [|done].
      exists (default a0). split; [congruence|].
      unfold defaulted. destruct (default a0); try done. by destruct (Hcase s). }
  destruct (default a0) as [| | |d0| | |] eqn:Hd0;
    try (apply Hplain; [done|left; by intros ?]).
  destruct (ns !! dest a0) as [[| | |cur| | |]|] eqn:Hcur;
    try (apply Hplain; [done|right; by intros ?]).
  destruct (String.eqb_spec d0 cur) as [->|Hne];
    [|apply Hplain; [done|right; intros [=]; done]].
  destruct (get_value a0 cur) as [v|] eqn:Hv; [|done]. simpl in Hc.
  destruct (Htail (<[dest a0 := v]> ns) names Hc) as (Hreq & Hd & H0 & Ha).
  { intros a Hin. rewrite lookup_insert_ne; [done|]. intros Heq. by eapply Hother. }
  { intros d Hd'. rewrite fmap_cons, not_elem_of_cons in Hd'.
    rewrite lookup_insert_ne; [done|]. intros Heq. by destruct Hd'. }
  split; [|split; [done|]].
  - intros Hn a Hin Hr. apply elem_of_cons in Hin as [->|Hin];
      [congruence|by apply Hreq].
  - intros a Hin. apply elem_of_cons in Hin as [->|Hin]; [|by apply Ha].
    split; [done|]. intros _ _ _. exists v. rewrite H0, lookup_insert_eq.
    split; [done|]. unfold defaulted. by rewrite Hd0.
Qed.

(** *** The whole parse *)

Lemma selected_elem (args : list (string * arg_class)) (a : action) :
  a ∈ selected args <->
  exists s os e, (s, O (Some (TAction a)) os e) ∈ args.
Proof.
  unfold selected. rewrite list_elem_of_omap. split.
  - intros ([s c] & Hin & Hsel). simpl in Hsel.
    destruct c as [|[[|a']|] os e|]; try done. injection Hsel as ->. eauto.
  - intros (s & os & e & Hin). by exists (s, O (Some (TAction a)) os e).
Qed.

Lemma given_selected (p : parser) (argv : list string)
    (args : list (string * arg_class)) (a : action) :
  Forall2 (fun s x => x.1 = s /\ parse_optional p s = Ok x.2) argv args ->
  given p a argv <-> a ∈ selected args.
Proof.
  intros Hf. unfold given. rewrite selected_elem, Exists_exists. split.
  - intros (s & Hin & os & e & Hs).
    apply list_elem_of_lookup in Hin as [i Hi].
    destruct (Forall2_lookup_l _ _ _ _ _ Hf Hi) as ([s' c] & Hx & Heq & Hc).
    simpl in *. subst s'. rewrite Hs in Hc. injection Hc as <-.
    exists s, os, e. by eapply list_elem_of_lookup_2.
  - intros (s & os & e & Hin).
    apply list_elem_of_lookup in Hin as [i Hi].
    destruct (Forall2_lookup_r _ _ _ _ _ Hf Hi) as (s' & Hx & Heq & Hc).
    simpl in *. subst s'. exists s. split; [by eapply list_elem_of_lookup_2|eauto].
Qed.

(** After a successful parse: a required action was given; an action that
    was not given holds its default; an action that was given holds a
    value that it stores. *)
Lemma parse_args_spec (p : parser) (argv : list string) (ns : gmap string pyval)
    (a : action) :
  NoDup (option_string <$> p) ->
  NoDup (dest <$> p) ->
  parse_args p argv = Ok ns ->
  a ∈ p ->
  (required a = true -> given p a argv)
  /\ (~ given p a argv ->
      required a = false /\ exists v, ns !! dest a = Some v /\ defaulted a v)
  /\ (given p a argv -> exists v, ns !! dest a = Some v /\ stores a v).
Proof.
  intros Hos Hdest Hp Ha. unfold parse_args in Hp.
  destruct (classify p argv) as [args|] eqn:Hcl; [|done]. simpl in Hp.
  destruct (consume p args _) as [st|] eqn:Hco; [|done]. simpl in Hp.
  destruct (check_required p _ _) as [[ns' names]|] eqn:Hch; [|done]. simpl in Hp.
  destruct names; [|done]. destruct (extras st) eqn:Hex; [|done].
  injection Hp as ->.
  destruct (consume_no_extras _ _ _ _ Hco Hex) as [_ Hnd].
  pose proof (classify_options _ _ _ Hcl Hnd) as Hf.
  destruct (consume_spec _ _ _ _ Hco) as (Hseen & Hsame & Hset).
  destruct (check_required_spec _ _ _ _ _ Hdest Hch) as (Hreq & _ & Hact).
  destruct (Hact a Ha) as [Hkept Hdflt].
  assert (Hin_p : forall a', a' ∈ selected args -> a' ∈ p).
  { intros a' Hsel. apply selected_elem in Hsel as (s & os & e & Hin).
    apply list_elem_of_lookup in Hin as [i Hi].
    destruct (Forall2_lookup_r _ _ _ _ _ Hf Hi) as (s' & _ & _ & Hc).
    by eapply parse_optional_elem. }
  assert (Hsel_seen : option_string a ∈ seen_actions st <-> a ∈ selected args).
  { rewrite Hseen. simpl. rewrite elem_of_nil. split.
    - intros [[]|Hin]. apply list_elem_of_fmap in Hin as (a' & Heq & Hin).
      by rewrite (fmap_inj_on option_string p a a' Hos Ha (Hin_p _ Hin) Heq).
    - intros Hin. right. by apply list_elem_of_fmap_2. }
  assert (Hsel_dest : dest a ∈ dest <$> selected args <-> a ∈ selected args).
  { split.
    - intros Hin. apply list_elem_of_fmap in Hin as (a' & Heq & Hin).
      by rewrite (fmap_inj_on dest p a a' Hdest Ha (Hin_p _ Hin) Heq).
    - intros Hin. by apply list_elem_of_fmap_2. }
  rewrite (given_selected p argv args a Hf).
  split; [|split].
  - intros Hr. apply Hsel_seen. by apply Hreq.
  - intros Hng.
    assert (Hunseen : option_string a ∉ seen_actions st) by (by rewrite Hsel_seen).
    destruct (required a) eqn:Hr.
    { exfalso. apply Hunseen. by apply Hreq. }
    split; [done|]. apply Hdflt; [done..|].
    rewrite Hsame by (by rewrite Hsel_dest). simpl.
    by apply initial_namespace_lookup.
  - intros Hg.
    destruct (Hset (dest a)) as (a' & v & Ha' & Heq & Hns & Hst).
    { by apply Hsel_dest. }
    rewrite (fmap_inj_on dest p a' a Hdest (Hin_p _ Ha') Ha Heq) in Hst.
    exists v. split; [|done]. rewrite Hkept; [done|]. by apply Hsel_seen.
Qed.

End ParseProperties.

(** ** The parser that from_cli builds *)

Section BuildProperties.
Import Argparse BaseConfig.

(** The loop body adds [argument_of] the field, unless the annotation
    cannot be unwrapped, the destination is empty or the option string is
    taken. *)
Lemma add_field_spec (p : parser) (fld : FieldSpec) :
  add_field line_74 p fld =
  (ty ← unwrap (fld_type fld);
   d ← infer_dest (arg_name fld);
   match lookup_option p (arg_name fld) with
   | Some _ => Raise (ArgumentError_conflict (arg_name fld))
   | None => Ok (p ++ [argument_of fld ty d])
   end).
Proof.
  unfold add_field, unwrap, argument_of, declared_required, default_or_None,
    default_is_True, set_arg_type, set_required, add_argument.
  fold (arg_name fld). simpl.
  destruct (is_Optional (fld_type fld)) eqn:Hopt; simpl.
  - destruct (next_not_None (get_args (fld_type fld))) as [ty|]; simpl; [|done].
    rewrite andb_false_r. simpl.
    destruct (is_bool ty); simpl.
    + destruct (infer_dest (arg_name fld)); simpl; [|done].
      destruct (lookup_option p (arg_name fld)); [done|].
      destruct (fld_default fld) as [[| [|] | | | | |]|]; reflexivity.
    + destruct (infer_dest (arg_name fld)); simpl; [|done].
      by destruct (lookup_option p (arg_name fld)).
  - rewrite andb_true_r.
    destruct (is_bool (fld_type fld)); simpl.
    + destruct (infer_dest (arg_name fld)); simpl; [|done].
      destruct (lookup_option p (arg_name fld)); [done|].
      destruct (fld_default fld) as [[| [|] | | | | |]|]; reflexivity.
    + destruct (fld_default fld) as [d0|]; simpl.
      * destruct (infer_dest (arg_name fld)); simpl; [|done].
        by destruct (lookup_option p (arg_name fld)).
      * destruct (infer_dest (arg_name fld)); simpl; [|done].
        by destruct (lookup_option p (arg_name fld)).
Qed.

Lemma lookup_option_fresh (p : parser) (s : string) :
  lookup_option p s = None -> s ∉ (option_string_actions p).*1.
Proof.
  unfold lookup_option. intros Hl Hin.
  destruct (find _ _) eqn:Hf; [done|].
  apply list_elem_of_fmap in Hin as ([os t] & Heq & Hin).
  cbn [fst] in Heq. subst s.
  assert (Hno : String.eqb os os = false).
  { apply (find_none _ _ Hf (os, t)). by apply list_elem_of_In. }
  by rewrite String.eqb_refl in Hno.
Qed.

Lemma option_string_actions_app (p : parser) (a : action) :
  (option_string_actions (p ++ [a])).*1
  = (option_string_actions p).*1 ++ [option_string a].
Proof.
  unfold option_string_actions. rewrite !fmap_cons, fmap_app, !fmap_app.
  reflexivity.
Qed.

(** With distinct option strings, the option string of an action of the
    parser is registered for that action. *)
Lemma lookup_option_registered (p : parser) (a : action) :
  NoDup (option_string_actions p).*1 -> a ∈ p ->
  lookup_option p (option_string a) = Some (TAction a).
Proof.
  intros Hnd Ha. unfold lookup_option.
  assert (Hreg : (option_string a, TAction a) ∈ option_string_actions p).
  { unfold option_string_actions. right. right.
    by apply (list_elem_of_fmap_2 (fun a => (option_string a, TAction a))). }
  destruct (find _ _) as [[os t]|] eqn:Hf.
  - apply find_some in Hf as [Hin Heq]. apply String.eqb_eq in Heq as ->.
    apply list_elem_of_In in Hin. simpl. f_equal.
    apply list_elem_of_lookup in Hin as [i Hi].
    apply list_elem_of_lookup in Hreg as [j Hj].
    assert (i = j) as ->.
    { eapply NoDup_lookup; [exact Hnd| |];
        rewrite list_lookup_fmap; [by rewrite Hi|by rewrite Hj]. }
    congruence.
  - exfalso.
    assert (Hno : String.eqb (option_string a) (option_string a) = false).
    { apply (find_none _ _ Hf (option_string a, TAction a)).
      by apply list_elem_of_In. }
    by rewrite String.eqb_refl in Hno.
Qed.

Lemma registry_NoDup_actions (p : parser) :
  NoDup (option_string_actions p).*1 -> NoDup (option_string <$> p).
Proof.
  unfold option_string_actions. rewrite !fmap_cons. simpl.
  intros Hnd. apply NoDup_cons in Hnd as [_ Hnd]. apply NoDup_cons in Hnd as [_ Hnd].
  by rewrite <- list_fmap_compose in Hnd.
Qed.

Lemma build_parser_raise (flds : list FieldSpec) (e : exn) :
  foldl (fun acc fld => p ← acc; add_field line_74 p fld) (Raise e) flds = Raise e.
Proof. induction flds as [|fld flds IH]; [reflexivity|]. simpl. apply IH. Qed.

Lemma build_parser_from (flds : list FieldSpec) (p0 p : parser) :
  NoDup (option_string_actions p0).*1 ->
  foldl (fun acc fld => p ← acc; add_field line_74 p fld) (Ok p0) flds = Ok p ->
  NoDup (option_string_actions p).*1
  /\ exists p1, p = p0 ++ p1
       /\ Forall2 (fun fld a => exists ty d,
                      unwrap (fld_type fld) = Ok ty
                      /\ infer_dest (arg_name fld) = Ok d
                      /\ a = argument_of fld ty d) flds p1.
Proof.
  revert p0. induction flds as [|fld flds IH]; intros p0 Hnd Hb.
  { injection Hb as <-. split; [done|]. exists []. split; [|constructor].
    by rewrite app_nil_r. }
  simpl in Hb. rewrite add_field_spec in Hb.
  destruct (unwrap (fld_type fld)) as [ty|e] eqn:Hty; simpl in Hb;
    [|by rewrite build_parser_raise in Hb].
  destruct (infer_dest (arg_name fld)) as [d|e] eqn:Hd; simpl in Hb;
    [|by rewrite build_parser_raise in Hb].
  destruct (lookup_option p0 (arg_name fld)) eqn:Hl;
    [by rewrite build_parser_raise in Hb|].
  apply IH in Hb as (Hnd' & p1 & -> & Hf).
  - split; [done|]. exists (argument_of fld ty d :: p1). split.
    + by rewrite <- app_assoc.
    + constructor; [|done]. by exists ty, d.
  - rewrite option_string_actions_app. apply NoDup_app. split; [done|]. split.
    + intros o Ho Ho'. apply list_elem_of_singleton in Ho'. subst o.
      apply lookup_option_fresh in Hl. apply Hl.
      unfold argument_of in Ho. by destruct (is_bool ty).
    + apply NoDup_singleton.
Qed.

(** The parser of [from_cli]: one argument per field, in the order of the
    fields, with distinct option strings. *)
Lemma build_parser_spec (flds : list FieldSpec) (p : parser) :
  build_parser line_74 flds = Ok p ->
  NoDup (option_string_actions p).*1
  /\ Forall2 (fun fld a => exists ty d,
                 unwrap (fld_type fld) = Ok ty
                 /\ infer_dest (arg_name fld) = Ok d
                 /\ a = argument_of fld ty d) flds p.
Proof.
  intros Hb. apply build_parser_from in Hb as (Hnd & p1 & -> & Hf).
  - by split.
  - unfold option_string_actions. rewrite !fmap_cons. cbn [fst fmap list_fmap].
    apply NoDup_cons. split; [|apply NoDup_singleton].
    intros Hin. apply list_elem_of_singleton in Hin. discriminate.
Qed.

(** *** Field names *)

Lemma identifier_no_minus (s : string) :
  Str.is_identifier s = true -> Str.replace Str.minus Str.underscore
                                  (Str.replace Str.underscore Str.minus s) = s.
Proof.
  induction s as [|c s IH]; [done|]. simpl. intros Hid.
  apply andb_true_iff in Hid as [Hc Hid]. rewrite IH by done. f_equal.
  destruct (Ascii.eqb_spec c Str.underscore) as [->|Hne]; [reflexivity|].
  destruct (Ascii.eqb_spec c Str.minus) as [->|Hne']; [done|reflexivity].
Qed.

(** The destination of the option of a plain field name is the name. *)
Lemma infer_dest_plain (fld : FieldSpec) :
  Str.plain_name (fld_name fld) = true ->
  infer_dest (arg_name fld) = Ok (fld_name fld).
Proof.
  unfold arg_name. destruct (fld_name fld) as [|c s]; [done|].
  unfold Str.plain_name. intros Hp. apply andb_true_iff in Hp as [Hc Hid].
  pose proof (identifier_no_minus _ Hid) as Hback.
  apply negb_true_iff in Hc.
  assert (Hm : Ascii.eqb c Str.minus = false).
  { simpl in Hid. apply andb_true_iff in Hid as [Hidc _].
    destruct (Ascii.eqb_spec c Str.minus) as [->|Hne]; [done|reflexivity]. }
  unfold infer_dest.
  assert (Hstrip : Str.lstrip Str.minus
                     ("--" +:+ Str.replace Str.underscore Str.minus (String c s))
                   = String c (Str.replace Str.underscore Str.minus s)).
  { cbn [Str.replace]. rewrite Hc.
    change ("--" +:+ ?r) with (String Str.minus (String Str.minus r)).
    cbn [Str.lstrip]. rewrite Ascii.eqb_refl, Hm. reflexivity. }
  rewrite Hstrip. cbn [Str.replace] in Hback. rewrite Hc, Hm in Hback.
  cbn [Str.replace]. rewrite Hm. by rewrite Hback.
Qed.

End BuildProperties.

(** ** from_cli: required arguments, defaults and toggles *)

Section FromCli.
Context `{PyRuntime}.
Import Argparse BaseConfig.

Lemma bind_fields_kwargs (flds : list FieldSpec) (kwargs : gmap string pyval)
    (self : instance) (fld : FieldSpec) (v : pyval) :
  bind_fields flds kwargs = Ok self ->
  fld ∈ flds -> kwargs !! fld_name fld = Some v ->
  self !! fld_name fld = Some v.
Proof.
  revert self. induction flds as [|fld0 flds IH]; intros self Hb Hin Hv.
  { by apply elem_of_nil in Hin. }
  simpl in Hb.
  destruct (decide (fld_name fld0 = fld_name fld)) as [Heq|Hne].
  - rewrite Heq, Hv in Hb. simpl in Hb.
    destruct (bind_fields flds kwargs) as [self'|]; [|done]. simpl in Hb.
    injection Hb as <-. by rewrite lookup_insert_eq.
  - destruct (match kwargs !! fld_name fld0 with Some _ => _ | None => _ end)
      as [v0|]; [|done]. simpl in Hb.
    destruct (bind_fields flds kwargs) as [self'|]; [|done]. simpl in Hb.
    injection Hb as <-. rewrite lookup_insert_ne by done.
    apply elem_of_cons in Hin as [->|Hin]; [done|]. by apply IH.
Qed.

Lemma from_cli_ok (cls : dataclass) (argv : list string) (fs fs' : filesystem)
    (self : instance) :
  from_cli cls argv fs = (Ok self, fs') ->
  exists p ns,
    build_parser line_74 (cls_fields cls) = Ok p
    /\ parse_args p argv = Ok ns
    /\ bind_fields (cls_fields cls) ns = Ok self.
Proof.
  unfold from_cli, from_cli_with.
  destruct (build_parser line_74 (cls_fields cls)) as [p|] eqn:Hb; [|done].
  destruct (parse_args p argv) as [ns|] eqn:Hp; [|done].
  intros Hc. exists p, ns. split; [done|]. split; [done|]. by eapply construct_bound.
Qed.

(** The parser for well-named fields: argument [i] is the argument of
    field [i], with the field name as destination, and destinations are
    distinct. *)
Lemma build_parser_well_named (flds : list FieldSpec) (p : parser) :
  well_named flds ->
  build_parser line_74 flds = Ok p ->
  NoDup (option_string_actions p).*1
  /\ NoDup (dest <$> p)
  /\ (forall i fld, flds !! i = Some fld ->
       exists ty, unwrap (fld_type fld) = Ok ty
                  /\ p !! i = Some (argument_of fld ty (fld_name fld)))
  /\ (forall a, a ∈ p ->
       exists fld, fld ∈ flds /\ option_string a = arg_name fld).
Proof.
  intros [Hnd Hplain] Hb. apply build_parser_spec in Hb as [Hos Hf].
  assert (Hf' : Forall2 (fun fld a => exists ty, unwrap (fld_type fld) = Ok ty
                           /\ a = argument_of fld ty (fld_name fld)) flds p).
  { clear Hnd Hos. induction Hf as [|fld a flds p (ty & d & Hty & Hd & ->) Hf IH].
    - constructor.
    - apply Forall_cons in Hplain as [Hp Hplain].
      rewrite infer_dest_plain in Hd by done. injection Hd as <-.
      constructor; [eauto|by apply IH]. }
  split; [done|]. split.
  - assert (Hdest : dest <$> p = fld_name <$> flds).
    { clear Hnd Hplain Hos Hf.
      induction Hf' as [|fld a flds p (ty & _ & ->) Hf IH]; [done|].
      rewrite !fmap_cons, IH. f_equal. unfold argument_of. by destruct (is_bool ty). }
    by rewrite Hdest.
  - split.
    + intros i fld Hi.
      destruct (Forall2_lookup_l _ _ _ _ _ Hf' Hi) as (a & Ha & ty & Hty & ->).
      eauto.
    + intros a Ha. apply list_elem_of_lookup in Ha as [i Hi].
      destruct (Forall2_lookup_r _ _ _ _ _ Hf' Hi) as (fld & Hfld & ty & Hty & ->).
      exists fld. split; [by eapply list_elem_of_lookup_2|].
      unfold argument_of. by destruct (is_bool ty).
Qed.

(** What [from_cli] returned for field [i] of well-named fields: a
    required argument was given; an argument that was not given left its
    default in the field; an argument that was given left a value that its
    action stores. *)
Lemma from_cli_field (cls : dataclass) (p : parser) (i : nat) (fld : FieldSpec)
    (ty : pytype) (argv : list string) (fs fs' : filesystem) (self : instance) :
  well_named (cls_fields cls) ->
  build_parser line_74 (cls_fields cls) = Ok p ->
  cls_fields cls !! i = Some fld ->
  unwrap (fld_type fld) = Ok ty ->
  from_cli cls argv fs = (Ok self, fs') ->
  let a := argument_of fld ty (fld_name fld) in
  (required a = true -> given p a argv)
  /\ (~ given p a argv ->
      required a = false
      /\ exists v, self !! fld_name fld = Some v /\ defaulted a v)
  /\ (given p a argv -> exists v, self !! fld_name fld = Some v /\ stores a v).
Proof.
  intros Hwf Hb Hi Hty Hcli a.
  destruct (build_parser_well_named _ _ Hwf Hb) as (Hos & Hdest & Hact & _).
  destruct (Hact i fld Hi) as (ty' & Hty' & Ha).
  rewrite Hty in Hty'. injection Hty' as <-.
  apply from_cli_ok in Hcli as (p' & ns & Hb' & Hp & Hself).
  rewrite Hb in Hb'. injection Hb' as <-.
  assert (Hin : a ∈ p) by (by eapply list_elem_of_lookup_2).
  assert (Hfld : fld ∈ cls_fields cls) by (by eapply list_elem_of_lookup_2).
  assert (Hd : dest a = fld_name fld).
  { unfold a, argument_of. by destruct (is_bool ty). }
  destruct (parse_args_spec p argv ns a (registry_NoDup_actions _ Hos) Hdest Hp Hin)
    as (Hreq & Hdflt & Hgiven).
  rewrite Hd in Hdflt, Hgiven.
  split; [done|]. split.
  - intros Hng. destruct (Hdflt Hng) as (Hr & v & Hv & Hdv).
    split; [done|]. exists v. split; [|done]. by eapply bind_fields_kwargs.
  - intros Hg. destruct (Hgiven Hg) as (v & Hv & Hst).
    exists v. split; [|done]. by eapply bind_fields_kwargs.
Qed.

(** *** Option strings on the command line *)

Lemma parse_optional_exact (p : parser) (a : action) (rest : string) :
  lookup_option p (option_string a) = Some (TAction a) ->
  option_string a = String Str.minus rest ->
  parse_optional p (option_string a) = Ok (O (Some (TAction a)) (option_string a) None).
Proof.
  intros Hl Hos. rewrite Hos in *. unfold parse_optional.
  rewrite Ascii.eqb_refl. cbn [negb]. by rewrite Hl.
Qed.

Lemma lookup_option_registry (p : parser) (s : string) (t : target) :
  lookup_option p s = Some t -> s ∈ (option_string_actions p).*1.
Proof.
  unfold lookup_option. destruct (find _ _) as [[os t']|] eqn:Hf; [|done].
  intros _. apply find_some in Hf as [Hin Heq]. apply String.eqb_eq in Heq as ->.
  apply list_elem_of_In in Hin. by apply (list_elem_of_fmap_2 fst) in Hin.
Qed.

Lemma contains_replaced_identifier (c : ascii) (s : string) :
  Str.is_identifier_char c = false -> c <> Str.minus ->
  Str.is_identifier s = true ->
  Str.contains c (Str.replace Str.underscore Str.minus s) = false.
Proof.
  intros Hc Hm. induction s as [|c' s IH]; [done|]. simpl. intros Hid.
  apply andb_true_iff in Hid as [Hid' Hid]. rewrite IH by done.
  rewrite orb_false_r.
  destruct (Ascii.eqb c' Str.underscore).
  - by apply Ascii.eqb_neq.
  - apply Ascii.eqb_neq. intros ->. congruence.
Qed.




Lemma parse_optional_argument (p : parser) (v : string) :
  Str.startswith v "-" = false ->
  String.eqb v "--" = false /\ parse_optional p v = Ok A.
Proof.
  destruct v as [|c v]; [done|]. unfold Str.startswith. simpl.
  destruct (ascii_dec "-" c) as [<-|Hne]; [by destruct v|]. intros _.
  assert (Hc : Ascii.eqb c Str.minus = false).
  { apply Ascii.eqb_neq. intros ->. done. }
  pose proof Hc as Hc'. unfold Str.minus in Hc'. rewrite ?Hc, ?Hc'.
  split; reflexivity.
Qed.



(** C1, as amended.  For well-named fields, argument [i] of the parser
    that [from_cli] builds belongs to field [i]; its type is the declared
    type with [Optional] taken off.  A field declared [Optional] is never
    required; nor is a field whose unwrapped type is [bool].  Any other
    field is required exactly if its default is the missing sentinel and
    its type is not [Optional].  When [from_cli] returns an instance, every
    required argument was given; and a field whose argument was not given
    holds [False] or, if its default is [True], [True] when its unwrapped
    type is [bool], and otherwise its declared default ([None] without
    one), a string default being converted by the type. *)
Theorem from_cli_requiredness (cls : dataclass) (p : parser) (i : nat)
    (fld : FieldSpec) :
  well_named (cls_fields cls) ->
  build_parser line_74 (cls_fields cls) = Ok p ->
  cls_fields cls !! i = Some fld ->
  exists a ty,
    p !! i = Some a
    /\ unwrap (fld_type fld) = Ok ty
    /\ option_string a = arg_name fld
    /\ (is_Optional (fld_type fld) = true -> required a = false)
    /\ (is_bool ty = true -> required a = false)
    /\ (is_bool ty = false ->
        kind a = Store (CType ty) /\ required a = declared_required fld)
    /\ forall argv fs self fs',
         from_cli cls argv fs = (Ok self, fs') ->
         (required a = true -> given p a argv)
         /\ (~ given p a argv ->
             (is_bool ty = true ->
              self !! fld_name fld = Some (VBool (default_is_True fld)))
             /\ (is_bool ty = false ->
                 exists v, self !! fld_name fld = Some v
                           /\ match fld_default fld with
                              | None => v = VNone
                              | Some (VStr d) => convert ty d = Some v
                              | Some d => v = d
                              end)).
Proof.
  intros Hwf Hb Hi.
  destruct (build_parser_well_named _ _ Hwf Hb) as (_ & _ & Hact & _).
  destruct (Hact i fld Hi) as (ty & Hty & Ha).
  exists (argument_of fld ty (fld_name fld)), ty.
  split; [done|]. split; [done|].
  split. { unfold argument_of. by destruct (is_bool ty). }
  split.
  { intros Hopt. unfold argument_of, declared_required. rewrite Hopt, andb_false_r.
    by destruct (is_bool ty). }
  split. { intros Hbool. unfold argument_of. by rewrite Hbool. }
  split. { intros Hbool. unfold argument_of. by rewrite Hbool. }
  intros argv fs self fs' Hcli.
  destruct (from_cli_field cls p i fld ty argv fs fs' self Hwf Hb Hi Hty Hcli)
    as (Hreq & Hdflt & _).
  split; [done|].
  intros Hng. destruct (Hdflt Hng) as (_ & v & Hv & Hdv).
  unfold defaulted, argument_of in Hdv. split.
  - intros Hbool. rewrite Hbool in Hdv. simpl in Hdv. by rewrite Hv, Hdv.
  - intros Hbool. rewrite Hbool in Hdv. simpl in Hdv. exists v. split; [done|].
    unfold default_or_None in Hdv.
    destruct (fld_default fld) as [[| | |d| | |]|]; try done.
    unfold get_value, call_converter in Hdv. simpl in Hdv.
    by destruct (convert ty d) as [v'|]; [injection Hdv as ->|].
Qed.

(** *** The option string of a plain field name *)

Lemma arg_name_shape (fld : FieldSpec) :
  Str.plain_name (fld_name fld) = true ->
  exists c rest,
    arg_name fld = String Str.minus (String Str.minus (String c rest))
    /\ Str.contains "=" (arg_name fld) = false.
Proof.
  intros Hp. unfold arg_name.
  assert (Hid : Str.is_identifier (fld_name fld) = true).
  { unfold Str.plain_name in Hp. destruct (fld_name fld); [done|].
    by apply andb_true_iff in Hp as [_ ?]. }
  assert (Hno : Str.contains "=" (Str.replace Str.underscore Str.minus (fld_name fld))
                = false).
  { by apply contains_replaced_identifier. }
  destruct (fld_name fld) as [|c s]; [done|].
  eexists _, _. split; [reflexivity|].
  change ("--" +:+ ?r) with (String Str.minus (String Str.minus r)).
  cbn [Str.contains]. by rewrite Hno.
Qed.



End FromCli.

(** A [bool] field without default is not required, and an
    [Optional[bool]] field without default falls back to [False]:
    [from_cli] without arguments returns the instance with [flag = False]
    for both records. *)
Lemma from_cli_bool_not_required :
  BaseConfig.declared_required (mkField "flag" TBool None "") = true
  /\ BaseConfig.from_cli BaseConfig.flag_record [] ∅
     = (Ok (<["flag" := VBool false]> (BaseConfig.bound (VInt 0) VNone (VStr "w"))), ∅)
  /\ is_Optional (TUnion [TBool; TNoneType]) = true
  /\ BaseConfig.from_cli BaseConfig.optional_flag_record [] ∅
     = (Ok (<["flag" := VBool false]> (BaseConfig.bound (VInt 0) VNone (VStr "w"))), ∅).
Proof. repeat split; vm_compute; reflexivity. Qed.


Lemma from_cli_requiredness_witness :
  exists p a_x a_y,
    BaseConfig.build_parser BaseConfig.line_74 (cls_fields BaseConfig.xy_config) = Ok p
    /\ p !! 3%nat = Some a_x /\ p !! 4%nat = Some a_y
    /\ Argparse.kind a_x = Argparse.Store (CType TInt)
    /\ Argparse.required a_x = true
    /\ Argparse.required a_y = false
    /\ forall argv fs self fs',
         BaseConfig.from_cli BaseConfig.xy_config argv fs = (Ok self, fs') ->
         Argparse.given p a_x argv
         /\ (~ Argparse.given p a_y argv -> self !! "y" = Some (VInt 5)).
Proof.
  assert (Hwf : well_named (cls_fields BaseConfig.xy_config)).
  { split; [apply (bool_decide_unpack _); vm_compute; reflexivity|repeat constructor]. }
  destruct (BaseConfig.build_parser BaseConfig.line_74 (cls_fields BaseConfig.xy_config))
    as [p|] eqn:Hb; [|vm_compute in Hb; discriminate].
  destruct (from_cli_requiredness BaseConfig.xy_config p 3 BaseConfig.field_x Hwf Hb eq_refl)
    as (a_x & ty_x & Hx & Htx & _ & _ & _ & Hkx & Hcx).
  destruct (from_cli_requiredness BaseConfig.xy_config p 4 BaseConfig.field_y Hwf Hb eq_refl)
    as (a_y & ty_y & Hy & Hty & _ & _ & _ & Hky & Hcy).
  injection Htx as <-. injection Hty as <-.
  destruct (Hkx eq_refl) as [Hkind_x Hreq_x].
  destruct (Hky eq_refl) as [_ Hreq_y].
  exists p, a_x, a_y. do 3 (split; [done|]).
  split; [done|]. split; [done|]. split; [done|].
  intros argv fs self fs' Hcli. split.
  - apply (Hcx argv fs self fs' Hcli). done.
  - intros Hng.
    destruct (proj2 (proj2 (Hcy argv fs self fs' Hcli) Hng) eq_refl) as (v & Hv & ->).
    done.
Defined.



(** The toggles at work. *)
Example from_cli_toggles :
  (BaseConfig.from_cli BaseConfig.flag_config [] ∅).1
  = Ok (<["flag" := VBool false]> (<["on" := VBool true]>
          (BaseConfig.bound (VInt 0) VNone (VStr "w"))))
  /\ (BaseConfig.from_cli BaseConfig.flag_config ["--flag"; "--on"] ∅).1
     = Ok (<["flag" := VBool true]> (<["on" := VBool false]>
             (BaseConfig.bound (VInt 0) VNone (VStr "w"))))
  /\ (BaseConfig.from_cli BaseConfig.flag_config ["--flag"; "1"] ∅).1
     = Raise (SystemExit_usage (UnrecognizedArguments ["1"])).
Proof. repeat split; vm_compute; reflexivity. Qed.

(** * Further properties *)

(** ** The plot-style dictionaries and the map defaults *)

Section StyleProperties.
Import PlotStyle.
Context {object : Type} (matter py_True BORDERS : object).

(** X1 ([xarray_plot_style]): a keyword the caller passes keeps the caller's
    value, a key the caller does not pass has the value of the defaults, the
    keys of the result are the caller's and the three defaults [cmap],
    [robust] and [add_colorbar], and passing the result back in changes
    nothing. *)
Theorem xarray_plot_style_update (kwargs : gmap string object) :
  (forall k v, kwargs !! k = Some v ->
               xarray_plot_style matter py_True kwargs !! k = Some v)
  /\ (forall k, kwargs !! k = None ->
                xarray_plot_style matter py_True kwargs !! k
                = xarray_defaults matter py_True !! k)
  /\ dom (xarray_plot_style matter py_True kwargs)
     = dom kwargs ∪ {[ "cmap"; "robust"; "add_colorbar" ]}
  /\ xarray_plot_style matter py_True (xarray_plot_style matter py_True kwargs)
     = xarray_plot_style matter py_True kwargs.
Proof.
  unfold xarray_plot_style. repeat split.
  - intros k v Hk. by apply lookup_union_Some_l.
  - intros k Hk. by apply lookup_union_r.
  - rewrite dom_union_L. unfold xarray_defaults.
    rewrite !dom_insert_L, dom_singleton_L. set_solver.
  - by rewrite <- map_union_assoc, map_union_idemp.
Qed.

(** X2 ([set_cartopy_defaults]), for every axes object.  When grid lines
    are wanted and [gridlines_kwargs] names [crs] or [draw_labels], the
    function does not return, and the only calls it makes are the ones for
    the coast lines and the borders: [gridlines], [set_extent] and
    [set_global] are not called.  On axes whose [set_global] takes no
    keyword, as on cartopy's [GeoAxes], the function returns only for a
    central longitude equal to 0.  On axes that refuse nothing else it
    raises [TypeError] exactly in these two cases.  An empty [extent] is
    ignored like [None], and no [gridlines_kwargs] is the empty
    dictionary. *)
Theorem set_cartopy_defaults_calls (ax : list ax_call -> ax_call -> option exn)
    (projection : object)
    (with_coastlines with_borders with_gridlines : bool)
    (gridlines_kwargs : option (gmap string object))
    (central_longitude : Q) (extent : option (list Q)) :
  let run := set_cartopy_defaults BORDERS ax projection with_coastlines with_borders
               with_gridlines in
  let r := run gridlines_kwargs central_longitude extent in
  let clash := with_gridlines = true
               /\ exists kw, gridlines_kwargs = Some kw
                             /\ ("crs" ∈ dom kw \/ "draw_labels" ∈ dom kw) in
  (clash ->
   r.1 <> Ok ()
   /\ Forall (fun c => c = coastlines \/ c = add_feature BORDERS ":") r.2)
  /\ ((forall made q, ax made (set_global q) = Some TypeError) ->
      r.1 = Ok () -> Qeq_bool central_longitude 0 = true)
  /\ ((forall made c, ax made c = match c with
                                   | set_global _ => Some TypeError
                                   | _ => None
                                   end) ->
      (r.1 = Ok () \/ r.1 = Raise TypeError)
      /\ (r.1 = Raise TypeError <-> clash \/ Qeq_bool central_longitude 0 = false))
  /\ run gridlines_kwargs central_longitude (Some [])
     = run gridlines_kwargs central_longitude None
  /\ run None central_longitude extent = run (Some ∅) central_longitude extent.
Proof.
  cbn zeta.
  assert (Hclash :
    (with_gridlines = true
     /\ exists kw, gridlines_kwargs = Some kw
                   /\ ("crs" ∈ dom kw \/ "draw_labels" ∈ dom kw))
    <-> (with_gridlines = true
         /\ bool_decide ("crs" ∈ dom (match gridlines_kwargs with
                                       | None => ∅
                                       | Some kw => kw
                                       end))
            || bool_decide ("draw_labels" ∈ dom (match gridlines_kwargs with
                                                 | None => ∅
                                                 | Some kw => kw
                                                 end)) = true)).
  { split.
    - intros (Hg & kw & -> & Hkw). split; [done|]. apply orb_true_iff.
      destruct Hkw; [left|right]; by apply bool_decide_eq_true_2.
    - intros (Hg & Hb). split; [done|]. destruct gridlines_kwargs as [kw|].
      + exists kw. split; [done|]. apply orb_true_iff in Hb.
        destruct Hb as [Hb|Hb]; apply bool_decide_eq_true_1 in Hb; auto.
      + rewrite dom_empty_L in Hb. apply orb_true_iff in Hb.
        destruct Hb as [Hb|Hb]; apply bool_decide_eq_true_1 in Hb; set_solver. }
  split; [|split; [|split; [|split]]]; [| | |reflexivity|reflexivity].
  - intros Hc. apply Hclash in Hc as [-> Hb].
    unfold set_cartopy_defaults, call. rewrite Hb.
    destruct with_coastlines, with_borders;
      repeat match goal with
             | |- context [ax ?m ?c] => destruct (ax m c)
             end; cbn [fst snd app]; (split; [done|]);
      repeat (constructor; auto).
  - intros Hglobal.
    unfold set_cartopy_defaults, call.
    destruct (Qeq_bool central_longitude 0); [done|]. cbn [negb].
    destruct with_coastlines, with_borders, with_gridlines,
      (bool_decide ("crs" ∈ dom _) || bool_decide ("draw_labels" ∈ dom _)),
      extent as [[|x xs]|];
      repeat match goal with
             | |- context [ax ?m (set_global ?q)] => rewrite (Hglobal m q)
             | |- context [ax ?m ?c] => destruct (ax m c)
             end; cbn [fst]; done.
  - intros Hax.
    assert (Hrun :
      (set_cartopy_defaults BORDERS ax projection with_coastlines with_borders
         with_gridlines gridlines_kwargs central_longitude extent).1
      = if (with_gridlines
            && (bool_decide ("crs" ∈ dom (match gridlines_kwargs with
                                          | None => ∅
                                          | Some kw => kw
                                          end))
                || bool_decide ("draw_labels" ∈ dom (match gridlines_kwargs with
                                                     | None => ∅
                                                     | Some kw => kw
                                                     end))))
           || negb (Qeq_bool central_longitude 0)
        then Raise TypeError else Ok ()).
    { unfold set_cartopy_defaults, call. rewrite !Hax.
      destruct with_coastlines, with_borders, with_gridlines,
        (bool_decide ("crs" ∈ dom _) || bool_decide ("draw_labels" ∈ dom _)),
        extent as [[|x xs]|], (Qeq_bool central_longitude 0);
        cbn [fst andb orb negb]; rewrite ?Hax; reflexivity. }
    rewrite Hrun. split.
    + match goal with |- context [if ?b then _ else _] => destruct b end; auto.
    + rewrite Hclash. destruct with_gridlines, (bool_decide _ || bool_decide _),
        (Qeq_bool central_longitude 0); cbn [andb orb negb]; split; intros Hx;
        try done; auto; destruct Hx as [[? ?]|?]; done.
Qed.

End StyleProperties.

Section EnsembleProperties.
Import PlotStyle.
Context {color : Type}.
Context (plt_get_cmap : string -> result (Q -> color)).

Lemma member_colors_length (cmap : Q -> color) (n : Z) :
  length (member_colors cmap n) = Z.to_nat n.
Proof. unfold member_colors. by rewrite length_fmap, range_length. Qed.

Lemma member_colors_lookup (cmap : Q -> color) (n : Z) (i : nat) :
  (i < Z.to_nat n)%nat ->
  member_colors cmap n !! i = Some (cmap (inject_Z (Z.of_nat i) / inject_Z n)%Q).
Proof.
  intros Hi. unfold member_colors. by rewrite list_lookup_fmap, range_lookup.
Qed.

(** X3 ([get_member_color], [get_ensemble_colors]): a negative index counts
    from the end, so [-1] is the color of the last member and [i] with
    [-n <= i < 0] the color of member [i + n]; below [-n] the index is an
    [IndexError].  A negative number of members gives no colors, and then
    every index is an [IndexError]. *)
Theorem member_color_from_end (cmap : Q -> color) (n i : Z) (cmap_name : string) :
  plt_get_cmap cmap_name = Ok cmap ->
  ((- n) <= i < 0 ->
   get_member_color plt_get_cmap i n cmap_name
   = Ok (cmap (inject_Z (i + n) / inject_Z n)%Q)
   /\ get_member_color plt_get_cmap i n cmap_name
      = get_member_color plt_get_cmap (i + n) n cmap_name)
  /\ (0 <= n -> i < (- n) ->
      get_member_color plt_get_cmap i n cmap_name = Raise IndexError)
  /\ (n < 0 ->
      get_ensemble_colors plt_get_cmap n cmap_name = Ok []
      /\ get_member_color plt_get_cmap i n cmap_name = Raise IndexError).
Proof.
  intros Hcmap. unfold get_member_color.
  rewrite !(get_ensemble_colors_known plt_get_cmap cmap n cmap_name Hcmap).
  cbn [mbind result_bind]. unfold index. rewrite member_colors_length.
  split; [|split].
  - intros Hi.
    assert ((i <? 0) = true) as -> by lia.
    assert ((i + n <? 0) = false) as -> by lia.
    rewrite Z2Nat.id by lia.
    assert ((0 <=? i + n) && (i + n <? n) = true) as -> by lia.
    rewrite (member_colors_lookup cmap n (Z.to_nat (i + n))) by lia.
    rewrite Z2Nat.id by lia. done.
  - intros Hn Hi.
    assert ((i <? 0) = true) as -> by lia.
    rewrite Z2Nat.id by lia.
    assert ((0 <=? i + n) && (i + n <? n) = false) as -> by lia. done.
  - intros Hn.
    assert (Hnil : member_colors cmap n = []).
    { unfold member_colors, range. by replace (Z.to_nat n) with 0%nat by lia. }
    rewrite Hnil. split; [done|].
    replace (Z.to_nat n) with 0%nat by lia. change (Z.of_nat 0) with 0.
    match goal with |- context [?a && ?b] => destruct (a && b) eqn:Hb end; [|done].
    apply andb_true_iff in Hb. destruct (i <? 0); lia.
Qed.

(** X4 ([get_ensemble_colors]): member [i] of [n] gets the color of the
    colormap at [i / n].  These points start at 0, grow strictly with the
    member index and stay below 1: the upper end of the colormap is never
    used. *)
Theorem ensemble_sample_points (cmap : Q -> color) (n : Z) (cmap_name : string) :
  plt_get_cmap cmap_name = Ok cmap ->
  exists points : list Q,
    get_ensemble_colors plt_get_cmap n cmap_name = Ok (cmap <$> points)
    /\ length points = Z.to_nat n
    /\ (0 < n -> exists x, points !! 0%nat = Some x /\ (x == 0)%Q)
    /\ Forall (fun x => (0 <= x)%Q /\ (x < 1)%Q) points
    /\ forall i j x y, points !! i = Some x -> points !! j = Some y ->
                       (i < j)%nat -> (x < y)%Q.
Proof.
  intros Hcmap.
  exists ((fun i => (inject_Z i / inject_Z n)%Q) <$> range n).
  assert (Hlook : forall i x,
            ((fun i => (inject_Z i / inject_Z n)%Q) <$> range n) !! i = Some x ->
            (i < Z.to_nat n)%nat /\ x = (inject_Z (Z.of_nat i) / inject_Z n)%Q).
  { intros i x Hx. rewrite list_lookup_fmap in Hx.
    destruct (range n !! i) as [z|] eqn:Hz; [|done].
    assert (Hi : (i < Z.to_nat n)%nat).
    { rewrite <- (range_length n). by eapply lookup_lt_Some. }
    rewrite (range_lookup n i Hi) in Hz. injection Hz as <-.
    cbn in Hx. by injection Hx as <-. }
  assert (Hdiv : forall a b : Z, 0 < n -> a < b ->
            (inject_Z a / inject_Z n < inject_Z b / inject_Z n)%Q).
  { intros a b Hn Hab. unfold Qdiv.
    apply Qmult_lt_compat_r.
    - apply Qinv_lt_0_compat. change 0%Q with (inject_Z 0). by rewrite <- Zlt_Qlt.
    - by rewrite <- Zlt_Qlt. }
  split; [|split; [|split; [|split]]].
  - rewrite (get_ensemble_colors_known plt_get_cmap cmap n cmap_name Hcmap).
    unfold member_colors. by rewrite <- list_fmap_compose.
  - by rewrite length_fmap, range_length.
  - intros Hn. rewrite list_lookup_fmap, (range_lookup n 0) by lia.
    eexists. split; [reflexivity|]. unfold Qdiv. apply Qmult_0_l.
  - apply Forall_lookup. intros i x Hx. destruct (Hlook i x Hx) as [Hi ->].
    assert (Hn : 0 < n) by lia. split.
    + apply Qle_shift_div_l.
      * change 0%Q with (inject_Z 0). rewrite <- Zlt_Qlt. lia.
      * rewrite Qmult_0_l. change 0%Q with (inject_Z 0). rewrite <- Zle_Qle. lia.
    + apply Qlt_shift_div_r.
      * change 0%Q with (inject_Z 0). rewrite <- Zlt_Qlt. lia.
      * rewrite Qmult_1_l, <- Zlt_Qlt. lia.
  - intros i j x y Hx Hy Hij.
    destruct (Hlook i x Hx) as [Hi ->]. destruct (Hlook j y Hy) as [Hj ->].
    apply Hdiv; lia.
Qed.

End EnsembleProperties.

(** ** Construction and the file system *)

Section ConstructionProperties.
Context `{PyRuntime}.
Import BaseConfig.

(** What [__post_init__] returns for an instance and what it leaves of the
    file system. *)
Lemma post_init_cases (self : instance) (fs fs' : filesystem) (r : result unit) :
  post_init self fs = (r, fs') ->
  (fs' = fs /\ forall fs0, post_init self fs0 = (r, fs0))
  \/ (exists p r0,
        self !! "log_file" = Some (VPath p)
        /\ ensure_log_file fs p = (r0, fs')
        /\ (forall fs0 fs0', ensure_log_file fs0 p = (r0, fs0') ->
                             post_init self fs0 = (r, fs0'))
        /\ match r0 with
           | Raise e => r = Raise e
           | Ok _ =>
               r = Ok ()
               \/ (exists m, self !! "log_mode" = Some m
                     /\ r = Raise (ValueError ("Invalid log mode: " +:+ py_str m
                                                 +:+ ". Must be 'w' or 'a'.")))
               \/ (self !! "log_mode" = None
                   /\ r = Raise (AttributeError "log_mode"))
           end).
Proof.
  unfold post_init, getattr.
  destruct (self !! "verbose") as [v|]; [|intros [= <- <-]; by left].
  destruct (negb (py_in_ints v [0; 1; 2; 3])); [intros [= <- <-]; by left|].
  destruct (self !! "log_file") as [lf|]; [|intros [= <- <-]; by left].
  destruct lf as [| | | |p| |]; try (intros [= <- <-]; by left).
  - destruct (self !! "log_mode") as [m|]; [|intros [= <- <-]; by left].
    destruct (negb (py_in_strs m ["w"; "a"])); intros [= <- <-]; by left.
  - destruct (ensure_log_file fs p) as [[[]|e] fs1] eqn:Hens.
    + destruct (self !! "log_mode") as [m|] eqn:Hm.
      * destruct (negb (py_in_strs m ["w"; "a"])); intros [= <- <-]; right;
          exists p, (Ok ()); (split; [done|]); (split; [done|]);
          (split; [by intros fs0 fs0' ->|eauto]).
      * intros [= <- <-]. right. exists p, (Ok ()).
        split; [done|]. split; [done|]. split; [by intros fs0 fs0' ->|eauto].
    + intros [= <- <-]. right. exists p, (Raise e).
      split; [done|]. split; [done|]. split; [by intros fs0 fs0' ->|done].
Qed.

(** Every instance a class with this [__post_init__] constructs passed its
    checks. *)
Lemma post_init_ok (self : instance) (fs fs' : filesystem) :
  post_init self fs = (Ok (), fs') ->
  exists v lf m,
    self !! "verbose" = Some v /\ py_in_ints v [0; 1; 2; 3] = true
    /\ self !! "log_file" = Some lf
    /\ (lf = VNone /\ fs' = fs
        \/ exists p, lf = VPath p /\ ensure_log_file fs p = (Ok (), fs'))
    /\ self !! "log_mode" = Some m /\ py_in_strs m ["w"; "a"] = true.
Proof.
  unfold post_init, getattr.
  destruct (self !! "verbose") as [v|]; [|done].
  destruct (py_in_ints v [0; 1; 2; 3]) eqn:Hv; [|done]. cbn [negb].
  destruct (self !! "log_file") as [lf|]; [|done].
  destruct lf as [| | | |p| |]; try done.
  - destruct (self !! "log_mode") as [m|]; [|done].
    destruct (py_in_strs m ["w"; "a"]) eqn:Hm; [|done]. cbn [negb].
    intros [= <-]. exists v, VNone, m. repeat split; eauto.
  - destruct (ensure_log_file fs p) as [[[]|e] fs1] eqn:Hens; [|done].
    destruct (self !! "log_mode") as [m|]; [|done].
    destruct (py_in_strs m ["w"; "a"]) eqn:Hm; [|done]. cbn [negb].
    intros [= <-]. exists v, (VPath p), m. repeat split; eauto.
Qed.

Lemma construct_cases (cls : dataclass) (kwargs : gmap string pyval)
    (fs fs' : filesystem) (r : result instance) :
  construct cls kwargs fs = (r, fs') ->
  (fs' = fs /\ (r = Raise TypeError \/ bind_fields (cls_fields cls) kwargs = r)
   /\ forall self, r <> Ok self)
  \/ exists self r0,
       bind_fields (cls_fields cls) kwargs = Ok self
       /\ cls_post_init cls self fs = (r0, fs')
       /\ r = match r0 with Ok _ => Ok self | Raise e => Raise e end.
Proof.
  unfold construct.
  destruct (bool_decide _).
  - destruct (bind_fields (cls_fields cls) kwargs) as [self|e] eqn:Hb.
    + destruct (cls_post_init cls self fs) as [[[]|e] fs1] eqn:Hp; intros [= <- <-];
        right; exists self; eexists; repeat split; eauto.
    + intros [= <- <-]. left. split; [done|]. split; [by right|done].
  - intros [= <- <-]. left. split; [done|]. split; [by left|done].
Qed.

(** X5 (construction of a [BaseConfig] or a subclass, [__post_init__]): no
    path is ever removed; nothing changes when the log file is [None] or
    exists already; and constructing again with the same arguments gives the
    same result and leaves the file system as the first construction left
    it. *)
Theorem construct_repeatable (cls : dataclass) (kwargs : gmap string pyval)
    (fs fs1 : filesystem) (r : result instance) :
  cls_post_init cls = post_init ->
  construct cls kwargs fs = (r, fs1) ->
  fs ⊆ fs1
  /\ construct cls kwargs fs1 = (r, fs1)
  /\ (forall self, bind_fields (cls_fields cls) kwargs = Ok self ->
      (forall p, self !! "log_file" = Some (VPath p) -> FS.path_exists fs p = true) ->
      fs1 = fs).
Proof.
  intros Hpost Hc.
  destruct (construct_cases cls kwargs fs fs1 r Hc)
    as [(-> & Hr & Hne)|(self & r0 & Hb & Hp & ->)].
  - split; [apply filesystem_subseteq_refl|]. split; [done|]. done.
  - rewrite Hpost in Hp.
    destruct (post_init_cases self fs fs1 r0 Hp)
      as [[-> Hall]|(p & r1 & Hlf & Hens & Hall & _)].
    + split; [apply filesystem_subseteq_refl|]. split; [done|]. done.
    + destruct (ensure_log_file_spec fs fs1 p r1 Hens) as (Hsub & Hagain & _).
      split; [done|]. split.
      * unfold construct in Hc |- *.
        destruct (bool_decide _); [|injection Hc as Hr _; by rewrite <- Hr].
        rewrite Hb in Hc |- *. rewrite Hpost in Hc |- *.
        rewrite (Hall _ _ Hagain).
        destruct r0 as [[]|e]; done.
      * intros self' Hb' Hex. rewrite Hb in Hb'. injection Hb' as <-.
        rewrite (ensure_log_file_present fs p (Hex p Hlf)) in Hens.
        by injection Hens.
Qed.

(** X6 (construction, [__post_init__]): an instance that was constructed
    holds a verbosity equal to 0, 1, 2 or 3 and a log mode equal to ['w'] or
    ['a'], and its log file is [None] or a path that exists afterwards. *)
Theorem constructed_instance_valid (cls : dataclass) (kwargs : gmap string pyval)
    (fs fs' : filesystem) (self : instance) :
  cls_post_init cls = post_init ->
  construct cls kwargs fs = (Ok self, fs') ->
  exists verbose log_file log_mode,
    self !! "verbose" = Some verbose
    /\ py_in_ints verbose [0; 1; 2; 3] = true
    /\ self !! "log_mode" = Some log_mode
    /\ py_in_strs log_mode ["w"; "a"] = true
    /\ self !! "log_file" = Some log_file
    /\ (log_file = VNone
        \/ exists p, log_file = VPath p /\ FS.path_exists fs' p = true)
    /\ fs ⊆ fs'.
Proof.
  intros Hpost Hc.
  destruct (construct_cases cls kwargs fs fs' (Ok self) Hc)
    as [(_ & _ & Hne)|(self' & r0 & Hb & Hp & Hr)]; [by destruct (Hne self)|].
  destruct r0 as [[]|e]; [|done]. injection Hr as <-.
  rewrite Hpost in Hp.
  destruct (post_init_ok self fs fs' Hp)
    as (v & lf & m & Hv & Hvin & Hlf & Hcase & Hm & Hmin).
  exists v, lf, m. do 5 (split; [done|]).
  destruct Hcase as [[-> ->]|(p & -> & Hens)].
  - split; [by left|apply filesystem_subseteq_refl].
  - destruct (ensure_log_file_spec fs fs' p _ Hens) as (Hsub & _ & Hthere).
    split; [|done]. right. by exists p.
Qed.

End ConstructionProperties.

(** ** More on [from_cli] *)

Section FromCliErrors.
Context `{PyRuntime}.
Import Argparse BaseConfig.

(** X7 ([from_cli] of a subclass of [BaseConfig]): a failure never removes
    an entry, and it leaves the file system as it was unless it comes from
    the end of [__post_init__]: the exception is then the [ValueError] for
    the log mode, raised after the log file was created, or the [OSError]
    of creating the log file.  So a usage error, a request for help or a
    wrong verbosity never creates anything. *)
Theorem from_cli_failure_filesystem (name : string) (own_fields : list FieldSpec)
    (argv : list string) (fs fs' : filesystem) (e : exn) :
  from_cli (subclass name own_fields) argv fs = (Raise e, fs') ->
  fs ⊆ fs'
  /\ (fs' = fs
      \/ (exists log_mode,
            e = ValueError ("Invalid log mode: " +:+ py_str log_mode
                              +:+ ". Must be 'w' or 'a'."))
      \/ is_OSError e = true).
Proof.
  unfold from_cli, from_cli_with.
  destruct (build_parser line_74 (cls_fields (subclass name own_fields))) as [p|e0];
    [|intros [= <- <-]; split; [apply filesystem_subseteq_refl|by left]].
  destruct (parse_args p argv) as [ns|e0];
    [|intros [= <- <-]; split; [apply filesystem_subseteq_refl|by left]].
  intros Hc.
  destruct (construct_cases _ _ _ _ _ Hc)
    as [(-> & _)|(self & r0 & Hb & Hp & Hr)];
    [split; [apply filesystem_subseteq_refl|by left]|].
  cbn [subclass cls_post_init] in Hp.
  destruct (post_init_cases self fs fs' r0 Hp)
    as [[-> _]|(p0 & r1 & _ & Hens & _ & Hcase)];
    [split; [apply filesystem_subseteq_refl|by left]|].
  destruct (ensure_log_file_spec fs fs' p0 r1 Hens) as (Hsub & _ & Hpost).
  split; [done|]. destruct r1 as [[]|e1].
  - destruct Hcase as [->|[(m & _ & ->)|[Hnone _]]]; [done| |].
    + injection Hr as ->. right. left. by exists m.
    + assert (Hin : mkField "log_mode" TStr (Some (VStr "w"))
                      "Mode for opening the log file ('w' for write, 'a' for append)"
                    ∈ cls_fields (subclass name own_fields)).
      { cbn [subclass cls_fields]. apply elem_of_app. left.
        unfold declared_fields. set_solver. }
      destruct (bind_fields_lookup _ _ _ Hb _ Hin) as [v Hv].
      cbn [fld_name] in Hv. congruence.
  - subst r0. injection Hr as ->. right. right. by destruct Hpost.
Qed.

Lemma classify_dash (p : parser) (argv : list string)
    (args : list (string * arg_class)) :
  classify p argv = Ok args -> "--" ∈ argv -> Exists (fun x => x.2 = Dash) args.
Proof.
  revert args. induction argv as [|s rest IH]; intros args Hc Hin.
  - by apply elem_of_nil in Hin.
  - cbn [classify] in Hc. destruct (String.eqb s "--") eqn:Hs.
    + injection Hc as <-. by left.
    + apply elem_of_cons in Hin as [<-|Hin]; [done|].
      destruct (parse_optional p s) as [c|e]; [|done].
      destruct (classify p rest) as [cs|e]; [|done].
      cbn in Hc. injection Hc as <-. right. by apply IH.
Qed.

Lemma consume_no_help (p : parser) (args : list (string * arg_class))
    (st st' : parse_state) :
  consume p args st = Ok st' ->
  Forall (fun x => forall os e, x.2 <> O (Some THelp) os e) args.
Proof.
  revert st. induction args as [|[s c] rest IH1 IH2] using list_ind_two; intros st Hc.
  - constructor.
  - destruct c as [|[[|a]|] os e|]; cbn [consume] in Hc.
    + constructor; [done|]. by eapply IH1.
    + done.
    + constructor; [done|].
      destruct (kind a) as [cv| |], e as [e|]; try done; try (by eapply IH1).
      * destruct (get_values a e) as [v|]; [|done]. by eapply IH1.
      * destruct rest as [|[s' [| |]] rest']; try done.
        destruct (get_values a s') as [v|]; [|done]. cbn in Hc.
        constructor; [done|]. by eapply (IH2 _ _ eq_refl).
    + constructor; [done|]. by eapply IH1.
    + constructor; [done|]. by eapply IH1.
Qed.

(** X8 ([from_cli]): a command line that holds [-h], [--help] or the
    separator [--] never gives an instance. *)
Theorem from_cli_rejects_help_and_separator (cls : dataclass) (argv : list string)
    (fs fs' : filesystem) (self : instance) :
  from_cli cls argv fs = (Ok self, fs') ->
  ("-h" ∉ argv) /\ ("--help" ∉ argv) /\ ("--" ∉ argv).
Proof.
  intros Hcli. destruct (from_cli_ok cls argv fs fs' self Hcli) as (p & ns & _ & Hp & _).
  unfold parse_args in Hp.
  destruct (classify p argv) as [args|] eqn:Hcl; [|done]. cbn in Hp.
  destruct (consume p args _) as [st|] eqn:Hco; [|done]. cbn in Hp.
  destruct (check_required p _ _) as [[ns' names]|]; [|done]. cbn in Hp.
  destruct names; [|done]. destruct (extras st) eqn:Hex; [|done].
  destruct (consume_no_extras p args _ st Hco Hex) as [_ Hnodash].
  pose proof (consume_no_help p args _ st Hco) as Hnohelp.
  pose proof (classify_options p argv args Hcl Hnodash) as Hall.
  assert (Hhelp : forall s, s ∈ argv ->
            parse_optional p s <> Ok (O (Some THelp) s None)).
  { intros s Hs Hpo. apply list_elem_of_lookup in Hs as [i Hi].
    destruct (Forall2_lookup_l _ _ _ _ _ Hall Hi) as ([s' c] & Hargs & _ & Hc).
    cbn in Hc. rewrite Hpo in Hc. injection Hc as <-.
    rewrite Forall_lookup in Hnohelp. by apply (Hnohelp i _ Hargs s None). }
  split; [|split].
  - intros Hin. by apply (Hhelp _ Hin).
  - intros Hin. by apply (Hhelp _ Hin).
  - intros Hin. apply (classify_dash p argv args Hcl) in Hin.
    apply Exists_exists in Hin as (x & Hx & Hd).
    rewrite Forall_forall in Hnodash. by apply (Hnodash x Hx).
Qed.

End FromCliErrors.

Section FromCliParser.
Context `{PyRuntime}.
Import Argparse BaseConfig.






End FromCliParser.

Section FromCliBuilds.
Context `{PyRuntime}.
Import Argparse BaseConfig.



End FromCliBuilds.

Section FromCliDefaults.
Context `{PyRuntime}.
Import Argparse BaseConfig.




End FromCliDefaults.

Section FromCliLastValue.
Context `{PyRuntime}.
Import Argparse BaseConfig.

Lemma classify_app (p : parser) (l1 l2 : list string)
    (args : list (string * arg_class)) :
  classify p (l1 ++ l2) = Ok args -> "--" ∉ l1 ->
  exists a1 a2, classify p l1 = Ok a1 /\ classify p l2 = Ok a2 /\ args = a1 ++ a2.
Proof.
  revert args. induction l1 as [|s l1 IH]; intros args Hc Hnd.
  - exists [], args. split; [done|]. split; [exact Hc|done].
  - cbn [app classify] in Hc |- *.
    destruct (String.eqb s "--") eqn:Hs.
    { apply String.eqb_eq in Hs as ->. exfalso. apply Hnd. by left. }
    destruct (parse_optional p s) as [c|e]; [|done]. cbn [mbind result_bind] in Hc |- *.
    destruct (classify p (l1 ++ l2)) as [cs|e] eqn:Hcs; [|done].
    cbn in Hc. injection Hc as <-.
    destruct (IH cs eq_refl) as (a1 & a2 & -> & -> & ->).
    { intros Hin. apply Hnd. by right. }
    by exists ((s, c) :: a1), a2.
Qed.

(** The last option of the command line with its value: the value is
    converted and stored, whatever came before. *)
Lemma consume_last (p : parser) (a : action) (c : converter) (s os v : string)
    (args : list (string * arg_class)) (st st' : parse_state) :
  kind a = Store c ->
  consume p (args ++ [(s, O (Some (TAction a)) os None); (v, A)]) st = Ok st' ->
  exists val, get_values a v = Ok val
              /\ namespace st' !! dest a = Some val
              /\ option_string a ∈ seen_actions st'.
Proof.
  intros Hk. revert st.
  induction args as [|[s0 c0] rest IH1 IH2] using list_ind_two; intros st Hc.
  - cbn [app consume] in Hc. rewrite Hk in Hc.
    destruct (get_values a v) as [val|]; [|done]. cbn in Hc. injection Hc as <-.
    exists val. split; [done|]. unfold take_action. cbn [namespace seen_actions].
    split; [apply lookup_insert_eq|by left].
  - cbn [app] in Hc.
    destruct c0 as [|[[|b]|] os0 e0|]; cbn [consume] in Hc; try (apply (IH1 _ Hc)); try done.
    destruct (kind b) as [cv| |], e0 as [e0|]; try done; try (apply (IH1 _ Hc)).
    + destruct (get_values b e0) as [w|]; [|done]. apply (IH1 _ Hc).
    + destruct rest as [|[s' c'] rest'].
      * done.
      * cbn [app] in Hc. destruct c' as [| |]; try done.
        destruct (get_values b s') as [w|]; [|done]. cbn in Hc.
        apply (IH2 _ _ eq_refl _ Hc).
Qed.

Lemma parse_args_tokens (p : parser) (argv : list string) (ns : gmap string pyval) :
  parse_args p argv = Ok ns ->
  exists args st ns0,
    classify p argv = Ok args
    /\ consume p args (mkState (initial_namespace p) [] []) = Ok st
    /\ check_required p (seen_actions st) (namespace st) = Ok (ns, ns0)
    /\ Forall (fun x => x.2 <> Dash) args.
Proof.
  unfold parse_args. intros Hp.
  destruct (classify p argv) as [args|] eqn:Hcl; [|done]. cbn in Hp.
  destruct (consume p args _) as [st|] eqn:Hco; [|done]. cbn in Hp.
  destruct (check_required p _ _) as [[ns' names]|] eqn:Hch; [|done]. cbn in Hp.
  destruct names; [|done]. destruct (extras st) eqn:Hex; [|done].
  injection Hp as ->.
  destruct (consume_no_extras p args _ st Hco Hex) as [_ Hnodash].
  by exists args, st, [].
Qed.

Lemma parse_args_last (p : parser) (a : action) (c : converter) (v : string)
    (argv : list string) (ns : gmap string pyval) :
  NoDup (dest <$> p) -> a ∈ p -> kind a = Store c ->
  classify p [option_string a; v]
  = Ok [(option_string a, O (Some (TAction a)) (option_string a) None); (v, A)] ->
  parse_args p (argv ++ [option_string a; v]) = Ok ns ->
  exists val, get_values a v = Ok val /\ ns !! dest a = Some val.
Proof.
  intros Hnd Ha Hk Hlast Hp.
  destruct (parse_args_tokens _ _ _ Hp) as (args & st & ns0 & Hcl & Hco & Hch & Hnodash).
  destruct (classify_app p argv _ args Hcl) as (a1 & a2 & Hc1 & Hc2 & ->).
  { intros Hin.
    assert (Hin' : "--" ∈ argv ++ [option_string a; v]) by (apply elem_of_app; by left).
    apply (classify_dash p _ _ Hcl) in Hin'.
    apply Exists_exists in Hin' as (x & Hx & Hd).
    rewrite Forall_forall in Hnodash. by apply (Hnodash x Hx). }
  rewrite Hlast in Hc2. injection Hc2 as <-.
  destruct (consume_last p a c _ _ v a1 _ st Hk Hco) as (val & Hval & Hns & Hseen).
  exists val. split; [done|].
  destruct (check_required_spec p _ _ _ _ Hnd Hch) as (_ & _ & Hsp).
  rewrite (proj1 (Hsp a Ha) Hseen). done.
Qed.

(** X11 ([from_cli], an option given more than once): when the command
    line ends with the option of a field that is not [bool] and a value for
    it, the instance holds that value, converted by the type of the field,
    whatever values the option was given before. *)
Theorem from_cli_last_value (cls : dataclass) (i : nat) (fld : FieldSpec)
    (ty : pytype) (argv : list string) (v : string) (fs fs' : filesystem)
    (self : instance) :
  well_named (cls_fields cls) ->
  cls_fields cls !! i = Some fld ->
  unwrap (fld_type fld) = Ok ty ->
  is_bool ty = false ->
  Str.startswith v "-" = false ->
  from_cli cls (argv ++ [arg_name fld; v]) fs = (Ok self, fs') ->
  exists val, convert ty v = Some val /\ self !! fld_name fld = Some val.
Proof.
  intros Hwn Hfld Hty Hbool Hv Hcli.
  destruct (from_cli_ok _ _ _ _ _ Hcli) as (p & ns & Hb & Hp & Hbind).
  destruct (build_parser_well_named _ p Hwn Hb) as (Hreg & Hnd & Hact & _).
  destruct (Hact i fld Hfld) as (ty' & Hty' & Hpi).
  rewrite Hty in Hty'. injection Hty' as <-.
  set (a := argument_of fld ty (fld_name fld)) in *.
  assert (Ha : a ∈ p) by (by eapply list_elem_of_lookup_2).
  assert (Hos : option_string a = arg_name fld).
  { unfold a, argument_of. by destruct (is_bool ty). }
  assert (Hk : kind a = Store (CType ty)).
  { unfold a, argument_of. by rewrite Hbool. }
  assert (Hd : dest a = fld_name fld).
  { unfold a, argument_of. by destruct (is_bool ty). }
  destruct Hwn as [_ Hpl]. rewrite Forall_lookup in Hpl.
  destruct (arg_name_shape fld (Hpl i fld Hfld)) as (ch & rest & Hshape & _).
  destruct (parse_optional_argument p v Hv) as [Hvd Hva].
  assert (Hlast : classify p [option_string a; v]
                  = Ok [(option_string a, O (Some (TAction a)) (option_string a) None);
                        (v, A)]).
  { cbn [classify]. rewrite Hvd, Hva.
    rewrite (parse_optional_exact p a (String Str.minus (String ch rest))).
    - rewrite Hos, Hshape. done.
    - by apply lookup_option_registered.
    - by rewrite Hos, Hshape. }
  rewrite <- Hos in Hp.
  destruct (parse_args_last p a _ v argv ns Hnd Ha Hk Hlast Hp) as (val & Hval & Hns).
  exists val. split.
  - unfold get_values in Hval. rewrite Hvd in Hval.
    unfold get_value in Hval. rewrite Hk in Hval. cbn [call_converter] in Hval.
    destruct (convert ty v) as [w|]; [|done]. by injection Hval as ->.
  - rewrite Hd in Hns. eapply bind_fields_kwargs; [done| |done].
    by eapply list_elem_of_lookup_2.
Qed.

End FromCliLastValue.

(** ** The listings *)

Section Listings.
Context `{PyRuntime}.
Import Argparse BaseConfig.

Lemma help_line_required (fld : FieldSpec) :
  fld_default fld = None -> exists pre, help_line fld = pre +:+ " (required)".
Proof.
  intros Hd. unfold help_line. rewrite Hd.
  exists ("  " +:+ Str.ljust (fld_name fld) 25 +:+ ": "
          +:+ Str.ljust (type_str (fld_type fld)) 25 +:+ " " +:+ fld_help fld).
  by rewrite !append_assoc.
Qed.

(** X12 ([help] and [from_cli]): [help] prints a header and one line for
    each field.  An option that [from_cli] requires belongs to a field
    without default, which [help] lists as [(required)].  The converse
    fails: a [bool] or [Optional] field without default is listed as
    [(required)] too, and its option is not required. *)
Theorem help_announces_required (cls : dataclass) (p : parser) (i : nat)
    (fld : FieldSpec) :
  build_parser line_74 (cls_fields cls) = Ok p ->
  cls_fields cls !! i = Some fld ->
  length (help cls) = S (length (cls_fields cls))
  /\ exists a line,
       p !! i = Some a
       /\ help cls !! S i = Some line
       /\ (required a = true -> exists pre, line = pre +:+ " (required)")
       /\ (fld_default fld = None ->
           is_bool (fld_type fld) = true \/ is_Optional (fld_type fld) = true ->
           required a = false /\ exists pre, line = pre +:+ " (required)").
Proof.
  intros Hb Hfld. split.
  { unfold help. cbn [length]. by rewrite length_fmap. }
  destruct (build_parser_spec _ _ Hb) as [_ Hall].
  destruct (Forall2_lookup_l _ _ _ _ _ Hall Hfld) as (a & Ha & ty & d & Hty & _ & ->).
  exists (argument_of fld ty d), (help_line fld). split; [done|]. split.
  { unfold help. change ((help_line <$> cls_fields cls) !! i = Some (help_line fld)).
    by rewrite list_lookup_fmap, Hfld. }
  unfold argument_of, declared_required, unwrap in *. split.
  - intros Hreq. apply help_line_required.
    destruct (is_bool ty); [done|]. cbn [required] in Hreq.
    apply andb_true_iff in Hreq as [Hd _]. by apply bool_decide_eq_true_1 in Hd.
  - intros Hd Hkind. split; [|by apply help_line_required].
    destruct (is_Optional (fld_type fld)) eqn:Hopt.
    + destruct (is_bool ty); [done|]. cbn [required]. by rewrite andb_false_r.
    + injection Hty as <-. destruct Hkind as [->|]; done.
Qed.

(** X13 ([describe]): on an instance that was constructed, [describe]
    does not raise; with [return_string] it returns the text and prints
    nothing, and without it prints the same text once and returns
    [None]. *)
Theorem describe_prints_what_it_returns (cls : dataclass)
    (kwargs : gmap string pyval) (fs fs' : filesystem) (self : instance) :
  construct cls kwargs fs = (Ok self, fs') ->
  exists text,
    describe cls self true = Ok (Some text, [])
    /\ describe cls self false = Ok (None, [text]).
Proof.
  intros Hc. apply construct_bound in Hc.
  destruct (field_lines_ok self (cls_fields cls) (bind_fields_lookup _ _ _ Hc))
    as (field_lines & Hlines & _).
  unfold describe, describe_lines. rewrite Hlines. cbn [mbind result_bind].
  eexists. split; done.
Qed.

End Listings.

Section UnionFields.
Context `{PyRuntime}.
Import Argparse BaseConfig.

Lemma unwrap_union (nones others : list pytype) (a : pytype) :
  Forall (fun t => t = TNoneType) nones ->
  a <> TNoneType ->
  TNoneType ∈ nones ++ others ->
  is_Optional (TUnion (nones ++ a :: others)) = true
  /\ unwrap (TUnion (nones ++ a :: others)) = Ok a.
Proof.
  intros Hnones Ha Hin.
  assert (Hopt : is_Optional (TUnion (nones ++ a :: others)) = true).
  { unfold is_Optional. cbn [origin_is_Union get_args andb].
    apply existsb_exists. exists TNoneType. split; [|done].
    apply list_elem_of_In. apply elem_of_app in Hin as [Hin|Hin];
      apply elem_of_app; [by left|right; by right]. }
  split; [done|]. unfold unwrap. rewrite Hopt. cbn [get_args].
  unfold next_not_None. rewrite filter_app.
  assert (filter (fun t => is_NoneType t = false) nones = []) as ->.
  { clear -Hnones. induction Hnones as [|t l -> _ IH]; [done|].
    by rewrite filter_cons_False. }
  rewrite filter_cons_True; [done|]. by destruct a.
Qed.

Lemma add_field_union (p : parser) (fld : FieldSpec) (a : pytype) :
  is_Optional (fld_type fld) = true ->
  unwrap (fld_type fld) = Ok a ->
  a <> TNoneType ->
  add_field line_74 p fld
  = add_field line_74 p (mkField (fld_name fld) (TUnion [a; TNoneType])
                           (fld_default fld) (fld_help fld)).
Proof.
  intros Hopt Hun Ha. rewrite !add_field_spec.
  destruct (unwrap_union [] [TNoneType] a) as [Hopt' Hun']; [done|done|set_solver|].
  cbn [app] in Hopt', Hun'. cbn [fld_type]. rewrite Hun, Hun'.
  cbn [mbind result_bind]. unfold arg_name. cbn [fld_name].
  destruct (infer_dest _) as [d|]; [|done]. cbn [mbind result_bind].
  destruct (lookup_option p _); [done|].
  unfold argument_of, declared_required, default_is_True, default_or_None, arg_name.
  cbn [fld_name fld_type fld_default fld_help]. by rewrite Hopt, Hopt'.
Qed.

Lemma bind_fields_names (flds flds' : list FieldSpec) (kwargs : gmap string pyval) :
  Forall2 (fun f g => fld_name f = fld_name g /\ fld_default f = fld_default g)
    flds flds' ->
  bind_fields flds kwargs = bind_fields flds' kwargs
  /\ fld_name <$> flds = fld_name <$> flds'.
Proof.
  induction 1 as [|f g flds flds' [Hn Hd] _ [IH1 IH2]]; [done|].
  cbn [bind_fields fmap list_fmap]. by rewrite Hn, Hd, IH1, <- IH2.
Qed.

(** X14 ([from_cli], a field annotated with a [Union] that has [None]
    among its members): the type of the command-line argument is the first
    member that is not [None], whatever the members after it are, and the
    class behaves on every command line like the class in which the field
    is declared [Optional] of that member. *)
Theorem from_cli_union_first_member (name : string) (before after : list FieldSpec)
    (fld : FieldSpec) (nones others : list pytype) (a : pytype)
    (post : instance -> filesystem -> result unit * filesystem)
    (argv : list string) (fs : filesystem) :
  fld_type fld = TUnion (nones ++ a :: others) ->
  Forall (fun t => t = TNoneType) nones ->
  a <> TNoneType ->
  TNoneType ∈ nones ++ others ->
  unwrap (fld_type fld) = Ok a
  /\ from_cli (mkDataclass name (before ++ fld :: after) post) argv fs
     = from_cli (mkDataclass name
                   (before ++ mkField (fld_name fld) (TUnion [a; TNoneType])
                                (fld_default fld) (fld_help fld) :: after) post)
         argv fs.
Proof.
  intros Hty Hnones Ha Hin.
  destruct (unwrap_union nones others a Hnones Ha Hin) as [Hopt Hun].
  rewrite <- Hty in Hopt, Hun. split; [done|].
  unfold from_cli, from_cli_with. cbn [cls_fields].
  assert (Hbuild : build_parser line_74 (before ++ fld :: after)
                   = build_parser line_74
                       (before ++ mkField (fld_name fld) (TUnion [a; TNoneType])
                                    (fld_default fld) (fld_help fld) :: after)).
  { unfold build_parser. rewrite !foldl_app. cbn [foldl]. f_equal.
    destruct (foldl _ (Ok []) before) as [p|]; [|done].
    cbn [mbind result_bind]. by apply add_field_union. }
  rewrite Hbuild. clear Hbuild. destruct (build_parser line_74 _) as [p|]; [|done].
  destruct (parse_args p argv) as [ns|]; [|done].
  unfold construct. cbn [cls_fields cls_post_init].
  destruct (bind_fields_names (before ++ fld :: after)
              (before ++ mkField (fld_name fld) (TUnion [a; TNoneType])
                           (fld_default fld) (fld_help fld) :: after) ns)
    as [-> ->]; [|done].
  apply Forall2_app; [by apply Forall_Forall2_diag, Forall_true|].
  constructor; [done|]. by apply Forall_Forall2_diag, Forall_true.
Qed.

End UnionFields.

Section FromCliSpelling.
Context `{PyRuntime}.
Import Argparse BaseConfig.

Lemma contains_identifier (c : ascii) (w : string) :
  Str.is_identifier_char c = false -> Str.is_identifier w = true ->
  Str.contains c w = false.
Proof.
  intros Hc. induction w as [|c' w IH]; [done|]. cbn [Str.is_identifier Str.contains].
  intros Hid. apply andb_true_iff in Hid as [Hc' Hid]. rewrite (IH Hid), orb_false_r.
  apply Ascii.eqb_neq. intros ->. congruence.
Qed.

Lemma contains_replace_self (a b : ascii) (s : string) :
  a <> b -> Str.contains a (Str.replace a b s) = false.
Proof.
  intros Hab. induction s as [|c s IH]; [done|]. cbn [Str.replace Str.contains].
  rewrite IH, orb_false_r. destruct (Ascii.eqb c a) eqn:Hc.
  - apply Ascii.eqb_neq. congruence.
  - done.
Qed.

Lemma split1_None (c : ascii) (s : string) :
  Str.contains c s = false -> Str.split1 c s = None.
Proof.
  induction s as [|c' s IH]; [done|]. cbn [Str.contains Str.split1].
  intros Hc. apply orb_false_iff in Hc as [-> Hc]. by rewrite (IH Hc).
Qed.

Lemma prefix_contains (c : ascii) (pre s : string) :
  String.prefix pre s = true -> Str.contains c pre = true -> Str.contains c s = true.
Proof.
  revert s. induction pre as [|c' pre IH]; intros s Hp Hc; [done|].
  destruct s as [|c'' s]; [done|]. cbn [String.prefix Str.contains] in *.
  destruct (ascii_dec c' c'') as [<-|]; [|done].
  apply orb_true_iff in Hc as [->|Hc]; [done|].
  rewrite (IH s Hp Hc). apply orb_true_r.
Qed.

Lemma chomp_single_line (s : string) :
  Str.contains Str.newline s = false -> Str.chomp s = s.
Proof.
  induction s as [|c s IH]; [done|]. cbn [Str.contains Str.chomp].
  intros Hc. apply orb_false_iff in Hc as [Hc Hs].
  destruct s as [|c' s]; [by rewrite Hc|]. by rewrite (IH Hs).
Qed.

Lemma registry_without_underscore (flds : list FieldSpec) (p : parser) (o : string) :
  well_named flds ->
  build_parser line_74 flds = Ok p ->
  o ∈ (option_string_actions p).*1 -> Str.contains "_" o = false.
Proof.
  intros Hwn Hb Ho.
  destruct (build_parser_well_named flds p Hwn Hb) as (_ & _ & _ & Hopt).
  unfold option_string_actions in Ho. cbn [fmap list_fmap fst] in Ho.
  apply elem_of_cons in Ho as [->|Ho]; [done|].
  apply elem_of_cons in Ho as [->|Ho]; [done|].
  apply list_elem_of_fmap in Ho as ([os t'] & -> & Hin).
  apply list_elem_of_fmap in Hin as (a & [= -> ->] & Ha).
  destruct (Hopt a Ha) as (fld & _ & ->). unfold arg_name.
  change (Str.contains "_" (Str.replace Str.underscore Str.minus (fld_name fld)) = false).
  by apply contains_replace_self.
Qed.

(** An option string spelled with an underscore abbreviates nothing and is
    an unknown option. *)
Lemma parse_optional_underscore (flds : list FieldSpec) (p : parser) (w : string) :
  well_named flds ->
  build_parser line_74 flds = Ok p ->
  Str.is_identifier w = true ->
  Str.contains "_" w = true ->
  parse_optional p ("--" +:+ w) = Ok (O None ("--" +:+ w) None).
Proof.
  intros Hwn Hb Hid Hus.
  assert (Hnot : forall c, Str.is_identifier_char c = false -> c <> Str.minus ->
                           Str.contains c ("--" +:+ w) = false).
  { intros c Hc Hm. change ("--" +:+ w) with (String Str.minus (String Str.minus w)).
    cbn [Str.contains]. rewrite (contains_identifier c w Hc Hid).
    assert (Ascii.eqb Str.minus c = false) as ->; [|done].
    apply Ascii.eqb_neq. congruence. }
  assert (Hreg : forall o, o ∈ (option_string_actions p).*1 ->
                           Str.startswith o ("--" +:+ w) = false).
  { intros o Ho. destruct (Str.startswith o ("--" +:+ w)) eqn:Hs; [|done].
    unfold Str.startswith in Hs.
    apply (prefix_contains "_"%char) in Hs.
    - by rewrite (registry_without_underscore flds p o Hwn Hb Ho) in Hs.
    - change ("--" +:+ w) with (String Str.minus (String Str.minus w)).
      cbn [Str.contains]. by rewrite Hus, !orb_true_r. }
  assert (Hlook : lookup_option p ("--" +:+ w) = None).
  { destruct (lookup_option p ("--" +:+ w)) as [t|] eqn:Hl; [|done].
    apply lookup_option_registry in Hl. apply Hreg in Hl.
    unfold Str.startswith in Hl.
    assert (String.prefix ("--" +:+ w) ("--" +:+ w) = true); [|congruence].
    clear. induction ("--" +:+ w) as [|c s IH]; [done|].
    cbn. by destruct (ascii_dec c c). }
  assert (Htuples : get_option_tuples p ("--" +:+ w) Str.minus = []).
  { unfold get_option_tuples. rewrite Ascii.eqb_refl.
    rewrite (split1_None "="%char _ (Hnot "="%char eq_refl ltac:(done))).
    induction (option_string_actions p) as [|[os t] l IH]; [done|].
    cbn [omap list_omap]. cbn [fmap list_fmap fst] in Hreg.
    rewrite (Hreg os) by (by left).
    apply IH. intros o Ho. apply Hreg. by right. }
  destruct w as [|c w]; [done|].
  change ("--" +:+ String c w) with (String Str.minus (String Str.minus (String c w))) in *.
  unfold parse_optional. rewrite Ascii.eqb_refl. cbn [negb]. rewrite Hlook.
  rewrite (split1_None "="%char _ (Hnot "="%char eq_refl ltac:(done))).
  rewrite Htuples.
  assert (negative_number (String Str.minus (String Str.minus (String c w))) = false) as ->.
  { unfold negative_number.
    rewrite (chomp_single_line _ (Hnot Str.newline eq_refl ltac:(done))).
    rewrite Ascii.eqb_refl. cbn [andb Str.all_digits].
    assert (Str.is_digit Str.minus = false) as -> by done. cbn [andb].
    rewrite andb_false_r. cbn [orb].
    rewrite (split1_None "."%char (String Str.minus (String c w))); [done|].
    pose proof (Hnot "."%char eq_refl ltac:(done)) as Hdot.
    cbn [Str.contains] in Hdot |- *. by apply orb_false_iff in Hdot as [_ ->]. }
  by rewrite (Hnot " "%char eq_refl ltac:(done)).
Qed.

Lemma consume_known_options (p : parser) (args : list (string * arg_class))
    (st st' : parse_state) :
  consume p args st = Ok st' ->
  extras st' = [] ->
  Forall (fun x => forall os e, x.2 <> O None os e) args.
Proof.
  revert st. induction args as [|[s c] rest IH1 IH2] using list_ind_two;
    intros st Hc Hex.
  - constructor.
  - destruct c as [|[[|a]|] os e|]; cbn [consume] in Hc.
    + constructor; [done|]. by apply (IH1 _ Hc).
    + done.
    + constructor; [done|].
      destruct (kind a) as [cv| |], e as [e|]; try done; try (by apply (IH1 _ Hc)).
      * destruct (get_values a e) as [v|]; [|done]. by apply (IH1 _ Hc).
      * destruct rest as [|[s' [| |]] rest']; try done.
        destruct (get_values a s') as [v|]; [|done]. cbn in Hc.
        constructor; [done|]. by apply (IH2 _ _ eq_refl _ Hc).
    + destruct (consume_no_extras p rest _ st' Hc Hex) as [Hnil _].
      unfold add_extra in Hnil. cbn [extras] in Hnil. by destruct (extras st).
    + constructor; [done|]. by apply (IH1 _ Hc).
Qed.

(** X15 ([from_cli], the option strings of line 70): the options are
    spelled with hyphens.  A command line that holds [--] followed by an
    identifier with an underscore in it, such as [--log_file], never gives
    an instance. *)
Theorem from_cli_underscore_spelling (cls : dataclass) (w : string)
    (argv : list string) (fs fs' : filesystem) (self : instance) :
  well_named (cls_fields cls) ->
  Str.is_identifier w = true ->
  Str.contains "_" w = true ->
  from_cli cls argv fs = (Ok self, fs') ->
  ("--" +:+ w) ∉ argv.
Proof.
  intros Hwn Hid Hus Hcli Hin.
  destruct (from_cli_ok _ _ _ _ _ Hcli) as (p & ns & Hb & Hp & _).
  pose proof (parse_optional_underscore _ p w Hwn Hb Hid Hus) as Hpo.
  unfold parse_args in Hp.
  destruct (classify p argv) as [args|] eqn:Hcl; [|done]. cbn in Hp.
  destruct (consume p args _) as [st|] eqn:Hco; [|done]. cbn in Hp.
  destruct (check_required p _ _) as [[ns' names]|]; [|done]. cbn in Hp.
  destruct names; [|done]. destruct (extras st) eqn:Hex; [|done].
  destruct (consume_no_extras p args _ st Hco Hex) as [_ Hnodash].
  pose proof (consume_known_options p args _ st Hco Hex) as Hknown.
  pose proof (classify_options p argv args Hcl Hnodash) as Hall.
  apply list_elem_of_lookup in Hin as [i Hi].
  destruct (Forall2_lookup_l _ _ _ _ _ Hall Hi) as ([s' c] & Hargs & _ & Hc).
  cbn in Hc. rewrite Hpo in Hc. injection Hc as <-.
  rewrite Forall_lookup in Hknown. by apply (Hknown i _ Hargs ("--" +:+ w) None).
Qed.

End FromCliSpelling.

(** ** Instances of the properties above *)

Lemma xarray_plot_style_update_witness :
  PlotStyle.xarray_plot_style "matter" "True" {[ "cmap" := "viridis" ]} !! "cmap"
  = Some "viridis"
  /\ PlotStyle.xarray_plot_style "matter" "True" {[ "cmap" := "viridis" ]} !! "robust"
     = Some "True".
Proof.
  destruct (xarray_plot_style_update "matter" "True" {[ "cmap" := "viridis" ]})
    as (Hgiven & Hdefault & _).
  split.
  - apply Hgiven. reflexivity.
  - rewrite Hdefault; reflexivity.
Defined.

Lemma set_cartopy_defaults_calls_witness :
  (PlotStyle.set_cartopy_defaults "BORDERS"
     (fun _ c => match c with PlotStyle.set_global _ => Some TypeError | _ => None end)
     "PlateCarree" true true true None 180%Q (Some [0; 30; 50; 70]%Q)).1
  = Raise TypeError.
Proof.
  destruct (set_cartopy_defaults_calls "BORDERS"
              (fun _ c => match c with
                          | PlotStyle.set_global _ => Some TypeError
                          | _ => None
                          end)
              "PlateCarree" true true true None 180%Q (Some [0; 30; 50; 70]%Q))
    as (_ & _ & Hgeo & _).
  destruct (Hgeo (fun _ _ => eq_refl)) as [_ Hiff].
  apply Hiff. right. reflexivity.
Defined.

Lemma member_color_from_end_witness :
  PlotStyle.get_member_color Sample.sample_get_cmap (-1) 4 "tab20"
  = Ok (inject_Z (-1 + 4) / inject_Z 4)%Q
  /\ PlotStyle.get_member_color Sample.sample_get_cmap (-5) 4 "tab20" = Raise IndexError
  /\ PlotStyle.get_ensemble_colors Sample.sample_get_cmap (-2) "tab20" = Ok [].
Proof.
  destruct (member_color_from_end Sample.sample_get_cmap (fun x => x) 4 (-1) "tab20"
              eq_refl) as (Hlast & _ & _).
  destruct (member_color_from_end Sample.sample_get_cmap (fun x => x) 4 (-5) "tab20"
              eq_refl) as (_ & Hbelow & _).
  destruct (member_color_from_end Sample.sample_get_cmap (fun x => x) (-2) 0 "tab20"
              eq_refl) as (_ & _ & Hnone).
  split; [|split].
  - apply Hlast. lia.
  - apply Hbelow; lia.
  - apply Hnone. lia.
Defined.

Lemma ensemble_sample_points_witness :
  exists points : list Q,
    PlotStyle.get_ensemble_colors Sample.sample_get_cmap 4 "tab20"
    = Ok ((fun x => x) <$> points)
    /\ length points = 4%nat
    /\ Forall (fun x => (0 <= x)%Q /\ (x < 1)%Q) points.
Proof.
  destruct (ensemble_sample_points Sample.sample_get_cmap (fun x => x) 4 "tab20" eq_refl)
    as (points & Hcolors & Hlen & _ & Hrange & _).
  exists points. split; [exact Hcolors|]. split; [exact Hlen|exact Hrange].
Defined.

Lemma construct_repeatable_witness :
  exists r fs1,
    BaseConfig.new (VInt 0) (VPath ["logs"; "run.log"]) (VStr "w") ∅ = (r, fs1)
    /\ (∅ ⊆ fs1)
    /\ BaseConfig.new (VInt 0) (VPath ["logs"; "run.log"]) (VStr "w") fs1 = (r, fs1).
Proof.
  destruct (BaseConfig.new (VInt 0) (VPath ["logs"; "run.log"]) (VStr "w") ∅)
    as [r fs1] eqn:Hnew.
  exists r, fs1. split; [reflexivity|].
  destruct (construct_repeatable BaseConfig.BaseConfig _ ∅ fs1 r eq_refl Hnew)
    as (Hsub & Hagain & _).
  split; [exact Hsub|exact Hagain].
Defined.

Lemma constructed_instance_valid_witness :
  exists verbose log_file log_mode,
    BaseConfig.bound (VInt 1) VNone (VStr "a") !! "verbose" = Some verbose
    /\ py_in_ints verbose [0; 1; 2; 3] = true
    /\ BaseConfig.bound (VInt 1) VNone (VStr "a") !! "log_mode" = Some log_mode
    /\ py_in_strs log_mode ["w"; "a"] = true
    /\ BaseConfig.bound (VInt 1) VNone (VStr "a") !! "log_file" = Some log_file
    /\ (log_file = VNone
        \/ exists p, log_file = VPath p /\ FS.path_exists ∅ p = true)
    /\ (∅ : filesystem) ⊆ ∅.
Proof.
  assert (Hnew : construct BaseConfig.BaseConfig
                   (<["verbose" := VInt 1]> (<["log_file" := VNone]>
                      {["log_mode" := VStr "a"]})) ∅
                 = (Ok (BaseConfig.bound (VInt 1) VNone (VStr "a")), ∅))
    by (vm_compute; reflexivity).
  exact (constructed_instance_valid BaseConfig.BaseConfig _ ∅ ∅ _ eq_refl Hnew).
Defined.

Lemma from_cli_failure_filesystem_witness :
  exists e fs',
    BaseConfig.from_cli (BaseConfig.subclass "main_config" [])
      ["--log-file"; "logs/run.log"; "--log-mode"; "x"] ∅ = (Raise e, fs')
    /\ (∅ ⊆ fs')
    /\ (fs' = ∅
        \/ (exists log_mode,
              e = ValueError ("Invalid log mode: " +:+ py_str log_mode
                                +:+ ". Must be 'w' or 'a'."))
        \/ is_OSError e = true).
Proof.
  assert (Hfails : is_ok (BaseConfig.from_cli (BaseConfig.subclass "main_config" [])
                            ["--log-file"; "logs/run.log"; "--log-mode"; "x"] ∅).1
                   = false) by (vm_compute; reflexivity).
  destruct (BaseConfig.from_cli (BaseConfig.subclass "main_config" [])
              ["--log-file"; "logs/run.log"; "--log-mode"; "x"] ∅)
    as [[self|e] fs'] eqn:Hcli; [discriminate Hfails|].
  exists e, fs'. split; [reflexivity|].
  exact (from_cli_failure_filesystem "main_config" [] _ ∅ fs' e Hcli).
Defined.

Lemma from_cli_rejects_help_and_separator_witness :
  ("-h" ∉ ["--verbose"; "2"]) /\ ("--help" ∉ ["--verbose"; "2"])
  /\ ("--" ∉ ["--verbose"; "2"]).
Proof.
  assert (Hok : is_ok (BaseConfig.from_cli BaseConfig.main_config
                         ["--verbose"; "2"] ∅).1 = true) by (vm_compute; reflexivity).
  destruct (BaseConfig.from_cli BaseConfig.main_config ["--verbose"; "2"] ∅)
    as [[self|e] fs'] eqn:Hcli; [|discriminate Hok].
  exact (from_cli_rejects_help_and_separator _ _ ∅ fs' self Hcli).
Defined.



Lemma from_cli_last_value_witness :
  exists self fs',
    BaseConfig.from_cli BaseConfig.xy_config ["--x"; "1"; "--x"; "3"] ∅ = (Ok self, fs')
    /\ self !! "x" = Some (VInt 3).
Proof.
  assert (Hok : is_ok (BaseConfig.from_cli BaseConfig.xy_config
                         ["--x"; "1"; "--x"; "3"] ∅).1 = true)
    by (vm_compute; reflexivity).
  destruct (BaseConfig.from_cli BaseConfig.xy_config ["--x"; "1"; "--x"; "3"] ∅)
    as [[self|e] fs'] eqn:Hcli; [|discriminate Hok].
  exists self, fs'. split; [reflexivity|].
  destruct (from_cli_last_value BaseConfig.xy_config 3 BaseConfig.field_x TInt
              ["--x"; "1"] "3" ∅ fs' self) as (val & Hval & Hself).
  - split; [apply (bool_decide_unpack _); vm_compute; reflexivity|repeat constructor].
  - reflexivity.
  - reflexivity.
  - reflexivity.
  - reflexivity.
  - exact Hcli.
  - vm_compute in Hval. injection Hval as <-. exact Hself.
Defined.

Lemma help_announces_required_witness :
  length (BaseConfig.help BaseConfig.xy_config) = 6%nat
  /\ exists a line,
       Argparse.required a = true
       /\ BaseConfig.help BaseConfig.xy_config !! 4%nat = Some line
       /\ exists pre, line = pre +:+ " (required)".
Proof.
  assert (Hok : (p ← BaseConfig.build_parser BaseConfig.line_74
                        (cls_fields BaseConfig.xy_config);
                 Ok (Argparse.required <$> p !! 3%nat)) = Ok (Some true))
    by (vm_compute; reflexivity).
  destruct (BaseConfig.build_parser BaseConfig.line_74 (cls_fields BaseConfig.xy_config))
    as [p|] eqn:Hb; [|discriminate Hok].
  destruct (help_announces_required BaseConfig.xy_config p 3 BaseConfig.field_x Hb eq_refl)
    as (Hlen & a & line & Ha & Hline & Hreq & _).
  split; [exact Hlen|].
  assert (Hrequired : Argparse.required a = true).
  { cbn [mbind result_bind] in Hok. rewrite Ha in Hok. by injection Hok. }
  exists a, line. split; [exact Hrequired|]. split; [exact Hline|exact (Hreq Hrequired)].
Defined.

Lemma describe_prints_what_it_returns_witness :
  exists text,
    BaseConfig.describe BaseConfig.BaseConfig
      (BaseConfig.bound (VInt 2) VNone (VStr "a")) true = Ok (Some text, [])
    /\ BaseConfig.describe BaseConfig.BaseConfig
         (BaseConfig.bound (VInt 2) VNone (VStr "a")) false = Ok (None, [text]).
Proof.
  assert (Hnew : construct BaseConfig.BaseConfig
                   (<["verbose" := VInt 2]> (<["log_file" := VNone]>
                      {["log_mode" := VStr "a"]})) ∅
                 = (Ok (BaseConfig.bound (VInt 2) VNone (VStr "a")), ∅))
    by (vm_compute; reflexivity).
  exact (describe_prints_what_it_returns BaseConfig.BaseConfig _ ∅ ∅ _ Hnew).
Defined.

Lemma from_cli_union_first_member_witness :
  BaseConfig.unwrap (TUnion [TInt; TStr; TNoneType]) = Ok TInt
  /\ forall argv fs,
       BaseConfig.from_cli
         (BaseConfig.subclass "Levels"
            [mkField "level" (TUnion [TInt; TStr; TNoneType]) (Some VNone) ""]) argv fs
       = BaseConfig.from_cli
           (BaseConfig.subclass "Levels"
              [mkField "level" (TUnion [TInt; TNoneType]) (Some VNone) ""]) argv fs.
Proof.
  split.
  - apply (from_cli_union_first_member "Levels" BaseConfig.declared_fields []
             (mkField "level" (TUnion [TInt; TStr; TNoneType]) (Some VNone) "")
             [] [TStr; TNoneType] TInt BaseConfig.post_init [] ∅);
      [reflexivity|constructor|discriminate|set_solver].
  - intros argv fs.
    apply (from_cli_union_first_member "Levels" BaseConfig.declared_fields []
             (mkField "level" (TUnion [TInt; TStr; TNoneType]) (Some VNone) "")
             [] [TStr; TNoneType] TInt BaseConfig.post_init argv fs);
      [reflexivity|constructor|discriminate|set_solver].
Defined.

Lemma from_cli_underscore_spelling_witness :
  ("--" +:+ "log_file") ∉ ["--log-file"; "run.log"].
Proof.
  assert (Hok : is_ok (BaseConfig.from_cli BaseConfig.main_config
                         ["--log-file"; "run.log"] ∅).1 = true)
    by (vm_compute; reflexivity).
  destruct (BaseConfig.from_cli BaseConfig.main_config ["--log-file"; "run.log"] ∅)
    as [[self|e] fs'] eqn:Hcli; [|discriminate Hok].
  apply (from_cli_underscore_spelling BaseConfig.main_config "log_file" _ ∅ fs' self).
  - split; [apply (bool_decide_unpack _); vm_compute; reflexivity|repeat constructor].
  - reflexivity.
  - reflexivity.
  - exact Hcli.
Defined.
